(** * Coverage filter and spine merge of the CSMAR panel pipeline

    A shallow embedding of [clean_data.py] and [merge_filtered.py].

    A pandas [DataFrame] is a list of column labels together with a list
    of rows, each row a finite map from label to cell.  The row index is
    not modelled: every operation of the two scripts is positional, and
    the filters end in [reset_index(drop=True)] or are followed by
    positional use only.  Column dtypes are not modelled either: a cell
    carries its own Python value.

    pandas primitives are modelled with the behaviour of pandas 2.x:
    [astype(str)] turns every value, missing ones included, into text
    ("nan", "None"); [drop_duplicates] and [merge] compare cells by
    value; a left [merge] keeps the order of its left operand.  The two
    date parsers are parameters of the development. *)

From Stdlib Require Import ZArith Ascii String List.
From stdpp Require Import base decidable countable gmap sets list strings.
From stdpp Require Import pretty sorting.

Local Open Scope string_scope.
Local Open Scope Z_scope.

(** ** Cells *)

(** The scalar values a table read from CSV or a spreadsheet holds in an
    identifier or filter column.  A float is carried with the text that
    Python's [str] prints for it ("600000.0", "1e+16"): no claim depends
    on float arithmetic, only on that text. *)
Inductive cell : Type :=
| CNone
| CNaN
| CStr (s : string)
| CInt (z : Z)
| CFloat (repr : string).

#[global] Instance cell_eq_dec : EqDecision cell.
Proof. solve_decision. Defined.

Definition cell_encode (c : cell) : unit + unit + string + Z + string :=
  match c with
  | CNone => inl (inl (inl (inl tt)))
  | CNaN => inl (inl (inl (inr tt)))
  | CStr s => inl (inl (inr s))
  | CInt z => inl (inr z)
  | CFloat r => inr r
  end.

Definition cell_decode (x : unit + unit + string + Z + string) : cell :=
  match x with
  | inl (inl (inl (inl _))) => CNone
  | inl (inl (inl (inr _))) => CNaN
  | inl (inl (inr s)) => CStr s
  | inl (inr z) => CInt z
  | inr r => CFloat r
  end.

#[global] Instance cell_countable : Countable cell.
Proof.
  apply (inj_countable' cell_encode cell_decode).
  by intros [].
Defined.

(** [pd.isna] on a scalar. *)
Definition isna (c : cell) : bool :=
  match c with
  | CNone | CNaN => true
  | _ => false
  end.

(** [Series.astype(str)], one value.  A missing value becomes a text
    like any other: "nan" for NaN, "None" for None. *)
Definition astype_str (c : cell) : string :=
  match c with
  | CNone => "None"
  | CNaN => "nan"
  | CStr s => s
  | CInt z => pretty z
  | CFloat r => r
  end.

(** ** Text: [str.strip] and the replacement of [\.0$] by nothing

    A string is a sequence of code points below 256. *)

Module Text.

(** [str.isspace] on one code point below 256: tab, line feed, vertical
    tab, form feed, carriage return, the four separators 28..31, space,
    next-line (133) and no-break space (160). *)
Definition isspace (a : ascii) : bool :=
  let n := nat_of_ascii a in
  ((9 <=? n) && (n <=? 13) || (28 <=? n) && (n <=? 32)
   || (n =? 133) || (n =? 160))%nat.

Fixpoint lstrip (s : list ascii) : list ascii :=
  match s with
  | [] => []
  | a :: tl => if isspace a then lstrip tl else s
  end.

Definition rstrip (s : list ascii) : list ascii := rev (lstrip (rev s)).

Definition strip (s : list ascii) : list ascii := rstrip (lstrip s).

Definition newline : ascii := ascii_of_nat 10.

(** Where [$] matches without [re.MULTILINE]: at the end of the text and
    just before a line feed that ends the text. *)
Definition at_dollar (rest : list ascii) : bool :=
  match rest with
  | [] => true
  | [a] => bool_decide (a = newline)
  | _ => false
  end.

(** [re.sub] of the pattern [\.0$] by the empty text: scan from the left;
    where a dot and a zero stand at a [$] position delete them and go on
    after the match. *)
Fixpoint sub_dot0 (s : list ascii) : list ascii :=
  match s with
  | [] => []
  | a :: tl =>
      match tl with
      | b :: rest =>
          if bool_decide (a = "."%char) && bool_decide (b = "0"%char)
             && at_dollar rest
          then sub_dot0 rest
          else a :: sub_dot0 tl
      | [] => [a]
      end
  end.

(** The spec's wording: drop one trailing ".0" when the text ends with it. *)
Definition drop_dot0_suffix (s : list ascii) : list ascii :=
  match rev s with
  | z :: d :: front =>
      if bool_decide (z = "0"%char) && bool_decide (d = "."%char)
      then rev front else s
  | _ => s
  end.

End Text.

(** [normalize_company_id], one value of the series:
    [series.astype(str).str.strip()] and then [.str.replace] of the
    regular expression [\.0$] by the empty text.  Both scripts define it
    with the same body. *)
Definition normalize_company_id1 (c : cell) : string :=
  string_of_list_ascii
    (Text.sub_dot0 (Text.strip (list_ascii_of_string (astype_str c)))).

(** The spec's reading of the same function. *)
Definition normalize_spec (c : cell) : string :=
  string_of_list_ascii
    (Text.drop_dot0_suffix (Text.strip (list_ascii_of_string (astype_str c)))).

(** [normalize_company_id] on a series. *)
Definition normalize_company_id (series : list cell) : list cell :=
  (fun c => CStr (normalize_company_id1 c)) <$> series.

(** ** Results and tables *)

Inductive error : Type :=
| KeyError
| ValueError
| TypeError
| RuntimeError
| FileNotFoundError.

#[global] Instance error_eq_dec : EqDecision error.
Proof. solve_decision. Defined.

Inductive res (A : Type) : Type :=
| Ok (a : A)
| Err (e : error).
Arguments Ok {A} a.
Arguments Err {A} e.

Definition res_bind {A B} (m : res A) (k : A -> res B) : res B :=
  match m with
  | Ok a => k a
  | Err e => Err e
  end.

Notation "'let*' x ':=' m 'in' k" := (res_bind m (fun x => k))
  (at level 10, x name, m at level 100, k at level 200,
   format "'[v' 'let*'  x  ':='  m  'in'  '/' k ']'").

Record date : Type := mkDate { year : Z; month : Z; day : Z }.

#[global] Instance date_eq_dec : EqDecision date.
Proof. solve_decision. Defined.

Record DataFrame : Type := mkDF {
  columns : list string;
  rows : list (gmap string cell)
}.

#[global] Instance DataFrame_eq_dec : EqDecision DataFrame.
Proof. solve_decision. Defined.

(** The value of a row under a label; a label the row does not carry
    reads as missing. *)
Definition cell_at (r : gmap string cell) (c : string) : cell :=
  default CNaN (r !! c).

Definition column (df : DataFrame) (c : string) : list cell :=
  (fun r => cell_at r c) <$> rows df.

(** [df[c]]: raises [KeyError] for an absent label. *)
Definition getcol (df : DataFrame) (c : string) : res (list cell) :=
  if decide (c ∈ columns df) then Ok (column df c) else Err KeyError.

(** [df[c] = series]: overwrites the column, or appends a new one. *)
Definition setcol (df : DataFrame) (c : string) (series : list cell)
  : DataFrame :=
  mkDF (if decide (c ∈ columns df) then columns df else columns df ++ [c])
       (zip_with (fun r v => <[c := v]> r) (rows df) series).

(** [df.drop(columns=[c])] on a frame that has the label. *)
Definition dropcol (df : DataFrame) (c : string) : DataFrame :=
  mkDF (filter (fun x => x ≠ c) (columns df)) (delete c <$> rows df).

Fixpoint loc_mask {A} (l : list A) (mask : list bool) : list A :=
  match l, mask with
  | x :: l', b :: mask' =>
      if b then x :: loc_mask l' mask' else loc_mask l' mask'
  | _, _ => []
  end.

(** [df.loc[mask]] (and [reset_index(drop=True)]: the index is not
    modelled). *)
Definition loc (df : DataFrame) (mask : list bool) : DataFrame :=
  mkDF (columns df) (loc_mask (rows df) mask).

(** [df.dropna(subset=cols)]. *)
Definition dropna (df : DataFrame) (subset : list string) : DataFrame :=
  mkDF (columns df)
       (filter (fun r => Forall (fun c => isna (cell_at r c) = false) subset)
               (rows df)).

(** ** The date parsers

    [pd.to_datetime(raw, format="%Y-%m-%d", errors="coerce")] reads each
    value by itself against the fixed format.  Without a format
    [pd.to_datetime(raw, errors="coerce")] is a function of the whole
    series (pandas 2 infers one format from the first value that is not
    missing).  Both give [None] (NaT) for a value they cannot read. *)
Class Pandas : Type := {
  to_datetime_iso : cell -> option date;
  to_datetime : list cell -> list (option date)
}.

(** ** clean_data.py *)

Record DatasetConfig : Type := mkConfig {
  key : string;
  stem : string;
  expected_exts : list string;
  company_cols : list string;
  date_cols : list string;
  filter_col : option string;
  filter_keep : option (list cell)
}.

Definition DATASETS : list DatasetConfig :=
  [ mkConfig "cg_co" "CG_Co" [".xlsx"; ".xls"] ["Stkcd"] [] None None;
    mkConfig "fs_combas" "FS_Combas" [".xlsx"; ".xls"] ["Stkcd"] ["Accper"]
             (Some "Typrep") (Some [CStr "B"]);
    mkConfig "fs_comins" "FS_Comins" [".xlsx"; ".xls"] ["Stkcd"] ["Accper"]
             (Some "Typrep") (Some [CStr "B"]);
    mkConfig "mc_diversified_degree" "MC_DiverOperationsDegree"
             [".csv"; ".xlsx"; ".xls"] ["Symbol"] ["EndDate"]
             (Some "StateTypeCode") (Some [CStr "2"; CInt 2]);
    mkConfig "mc_diversified_product" "MC_DiverOperationsPro"
             [".csv"; ".xlsx"; ".xls"] ["Symbol"] ["EndDate"]
             (Some "StateTypeCode") (Some [CStr "2"; CInt 2]) ].

(** Python truth of an [Optional[str]]: [None] and the empty text are
    false. *)
Definition truthy (o : option string) : option string :=
  match o with
  | Some s => if decide (s = EmptyString) then None else Some s
  | None => None
  end.

Fixpoint pick_first_existing (df : DataFrame) (cols : list string)
  : res string :=
  match cols with
  | [] => Err KeyError
  | col :: cols' =>
      if decide (col ∈ columns df) then Ok col
      else pick_first_existing df cols'
  end.

Definition startswith (p s : string) : bool :=
  bool_decide (String.prefix p s = true).

Definition apply_row_filter (df : DataFrame) (cfg : DatasetConfig)
    (include_consolidated : bool) : res DataFrame :=
  match truthy (filter_col cfg) with
  | None => Ok df
  | Some fc =>
      if decide (fc ∈ columns df) then
        let keep_values : gset string :=
          match filter_keep cfg with
          | Some vs => list_to_set (astype_str <$> vs)
          | None => ∅
          end in
        let keep_values :=
          if include_consolidated then
            let k1 := if startswith "mc_" (key cfg)
                      then keep_values ∪ {["1"]} else keep_values in
            if decide (key cfg ∈ ["fs_combas"; "fs_comins"])
            then k1 ∪ {["A"]} else k1
          else keep_values in
        Ok (loc df ((fun v => bool_decide (astype_str v ∈ keep_values))
                      <$> column df fc))
      else Err KeyError
  end.

Section CleanData.
Context `{Pandas}.

Definition is_year_end (d : option date) : bool :=
  match d with
  | Some d => bool_decide (month d = 12) && bool_decide (day d = 31)
  | None => false
  end.

(** The series a parser returns has the index of its argument. *)
Definition flexible_dates (raw : list cell) : list (option date) :=
  resize (length raw) None (to_datetime raw).

Definition filter_year_end (df : DataFrame) (date_col : option string)
  : res DataFrame :=
  match truthy date_col with
  | None => Ok df
  | Some c =>
      let* raw := getcol df c in
      Ok (loc df (is_year_end <$> flexible_dates raw))
  end.

Definition normalize_year (df : DataFrame) (date_col : string)
  : res (list (option Z)) :=
  let* raw := getcol df date_col in
  let dates : list (option date) := to_datetime_iso <$> raw in
  let dates :=
    if forallb (fun d : option date => bool_decide (d = None)) dates
    then flexible_dates raw else dates in
  Ok ((fun d : option date => year <$> d) <$> dates).

(** A value of [dates.dt.year] as a cell. *)
Definition year_cell (y : option Z) : cell :=
  match y with
  | Some y => CInt y
  | None => CNaN
  end.

(** [temp.groupby(company_col)["__year"]] with
    [.apply(lambda s: set(s) & target_years)]. *)
Definition year_sets (temp : DataFrame) (company_col : string)
    (target_years : gset Z) : gmap cell (gset cell) :=
  (fun s : gset cell => s ∩ set_map CInt target_years) <$>
  foldr (fun r (m : gmap cell (gset cell)) =>
           let k := cell_at r company_col in
           <[k := {[cell_at r "__year"]} ∪ default ∅ (m !! k)]> m)
        ∅ (rows temp).

Definition companies_with_full_years (df : DataFrame) (company_col : string)
    (year_col : option string) (target_years : gset Z) (min_years : Z)
  : res (gset cell) :=
  let* col := getcol df company_col in
  let temp := setcol df company_col (normalize_company_id col) in
  match year_col with
  | None =>
      Ok (list_to_set
            (filter (fun c => isna c = false) (column temp company_col)))
  | Some yc =>
      let* years := normalize_year temp yc in
      let temp := setcol temp "__year" (year_cell <$> years) in
      let temp := dropna temp [company_col; "__year"] in
      Ok (dom (filter (fun kv => min_years <= Z.of_nat (size kv.2))
                      (year_sets temp company_col target_years)))
  end.

Definition isin_years (target_years : gset Z) (y : option Z) : bool :=
  match y with
  | Some y => bool_decide (y ∈ target_years)
  | None => false
  end.

Definition filter_for_companies_and_years (df : DataFrame)
    (company_col : string) (year_col : option string)
    (keep_companies : gset cell) (target_years : gset Z) : res DataFrame :=
  let* col := getcol df company_col in
  let out := setcol df company_col (normalize_company_id col) in
  let mask :=
    (fun c => bool_decide (c ∈ keep_companies)) <$> column out company_col in
  match truthy year_col with
  | Some yc =>
      let* years := normalize_year out yc in
      let out := setcol out "__year" (year_cell <$> years) in
      let mask := zip_with andb mask (isin_years target_years <$> years) in
      let out := dropcol out "__year" in
      Ok (loc out mask)
  | None => Ok (loc out mask)
  end.

End CleanData.

(** ** merge_filtered.py *)

(** [df[list(cols)]] on a frame that has the labels. *)
Definition project (df : DataFrame) (cols : list string) : DataFrame :=
  mkDF cols
       ((fun r => list_to_map ((fun c => (c, cell_at r c)) <$> cols))
          <$> rows df).

(** The values of a row under a list of labels: what [drop_duplicates]
    and [merge] compare. *)
Definition row_key (cols : list string) (r : gmap string cell) : list cell :=
  cell_at r <$> cols.

(** Keep the first row of every key. *)
Fixpoint keep_first {A K} `{EqDecision K} (f : A -> K) (seen : list K)
    (l : list A) : list A :=
  match l with
  | [] => []
  | x :: l' =>
      if decide (f x ∈ seen) then keep_first f seen l'
      else x :: keep_first f (f x :: seen) l'
  end.

(** [df.drop_duplicates()] *)
Definition drop_duplicates (df : DataFrame) : DataFrame :=
  mkDF (columns df) (keep_first (row_key (columns df)) [] (rows df)).

(** [df.rename(columns={old: new})]: nothing changes when the table has
    no label [old]. *)
Definition rename_label (old new c : string) : string :=
  if decide (c = old) then new else c.

Definition rename (df : DataFrame) (old new : string) : DataFrame :=
  if decide (old ∈ columns df) then
    mkDF (rename_label old new <$> columns df)
         ((fun r : gmap string cell =>
             match r !! old with
             | Some v => <[new := v]> (delete old r)
             | None => delete new r
             end) <$> rows df)
  else df.

(** [df.rename(columns={c: f(c) for c in df.columns})] *)
Definition relabel (f : string -> string) (df : DataFrame) : DataFrame :=
  mkDF (f <$> columns df)
       ((fun r : gmap string cell => kmap (M2 := gmap string) f r)
          <$> rows df).

(** [pd.concat(parts, ignore_index=True)]: labels in order of first
    appearance; a row reads as missing under a label its part lacks. *)
Definition concat_frames (parts : list DataFrame) : res DataFrame :=
  match parts with
  | [] => Err ValueError
  | _ => Ok (mkDF (keep_first id [] (concat (columns <$> parts)))
                  (concat (rows <$> parts)))
  end.

Fixpoint build_spine_parts (dfs : list DataFrame) (key_cols : list string)
  : res (list DataFrame) :=
  match dfs with
  | [] => Ok []
  | df :: dfs' =>
      if decide (Forall (fun c => c ∈ columns df) key_cols) then
        let sub := drop_duplicates (project df key_cols) in
        let* parts := build_spine_parts dfs' key_cols in
        Ok (sub :: parts)
      else Err KeyError
  end.

Definition build_spine (dfs : list DataFrame) (key_cols : list string)
  : res DataFrame :=
  let* parts := build_spine_parts dfs key_cols in
  let* all := concat_frames parts in
  Ok (drop_duplicates all).

(** [left.merge(right, how="left", left_on=on, right_on=on)].

    Every left row, in order, is paired with each right row of the same
    key, in the right table's order; a left row without a partner is
    kept once, with the right table's other columns missing.  A label
    other than a key that both tables carry gets the suffixes "_x" and
    "_y".  A key label that is absent raises [KeyError]; a key label that
    is repeated raises [ValueError], and so does a result in which a
    label would be repeated, which rows as finite maps cannot hold.

    pandas also raises [ValueError] for a pair of key columns whose types
    cannot be compared, text on one side and numbers on the other.  A
    table here carries cells and no column type, so [merge_left] does not
    have this refusal: where it returns a table, pandas returns that
    table or raises [ValueError]. *)
Definition suffix_label (overlap : list string) (sfx : string) (c : string)
  : string :=
  if decide (c ∈ overlap) then c ++ sfx else c.

Definition unique_label (c : string) (cols : list string) : Prop :=
  length (filter (fun x => x = c) cols) = 1%nat.

#[global] Instance unique_label_dec c cols : Decision (unique_label c cols).
Proof. unfold unique_label. apply _. Defined.

Definition merge_rows (on : list string) (lf rf : string -> string)
    (rcols : list string) (right_rows : list (gmap string cell))
    (l : gmap string cell) : list (gmap string cell) :=
  let partners :=
    filter (fun r => row_key on r = row_key on l) right_rows in
  let l' : gmap string cell := kmap (M2 := gmap string) lf l in
  match partners with
  | [] => [l' ∪ list_to_map ((fun c => (rf c, CNaN)) <$> rcols)]
  | _ =>
      (fun r : gmap string cell =>
         l' ∪ list_to_map ((fun c => (rf c, cell_at r c)) <$> rcols))
        <$> partners
  end.

Definition merge_left (left right : DataFrame) (on : list string)
  : res DataFrame :=
  if decide (Forall (fun c => c ∈ columns left ∧ c ∈ columns right) on)
  then
    if decide (Forall (fun c => unique_label c (columns left)
                                ∧ unique_label c (columns right)) on) then
      let overlap :=
        filter (fun c => c ∈ columns right ∧ c ∉ on) (columns left) in
      let lf := suffix_label overlap "_x" in
      let rf := suffix_label overlap "_y" in
      let rcols := filter (fun c => c ∉ on) (columns right) in
      let cols := ((lf <$> columns left) ++ (rf <$> rcols))%list in
      if decide (NoDup cols) then
        Ok (mkDF cols
                 (concat (merge_rows on lf rf rcols (rows right)
                            <$> rows left)))
      else Err ValueError
    else Err ValueError
  else Err KeyError.

(** The keys of the [files] dictionary, in its order. *)
Inductive source : Type :=
| cg_co
| fs_combas
| fs_comins
| mc_degree
| mc_pro.

#[global] Instance source_eq_dec : EqDecision source.
Proof. solve_decision. Defined.

Definition files : list source :=
  [cg_co; fs_combas; fs_comins; mc_degree; mc_pro].

Definition source_name (k : source) : string :=
  match k with
  | cg_co => "cg_co"
  | fs_combas => "fs_combas"
  | fs_comins => "fs_comins"
  | mc_degree => "mc_degree"
  | mc_pro => "mc_pro"
  end.

(** [date_map], in its order. *)
Definition date_map_keys : list source :=
  [fs_combas; fs_comins; mc_degree; mc_pro; cg_co].

Definition date_map (k : source) : option string :=
  match k with
  | fs_combas | fs_comins => Some "Accper"
  | mc_degree | mc_pro => Some "EndDate"
  | cg_co => None
  end.

Definition fallbacks : list string :=
  ["Accper"; "Accper.1"; "EndDate"; "EndDate.1"].

(** The loop over the fallback names: the first one the table has, else
    the name kept so far. *)
Fixpoint first_fallback (df : DataFrame) (names : list string)
    (current : string) : string :=
  match names with
  | [] => current
  | fallback :: names' =>
      if decide (fallback ∈ columns df) then fallback
      else first_fallback df names' current
  end.

Definition resolve_date_col (df : DataFrame) (declared : string) : string :=
  if decide (declared ∈ columns df) then declared
  else first_fallback df fallbacks declared.

(** The loop "Normalize company id", on one loaded table. *)
Definition add_symbol (df : DataFrame) : DataFrame :=
  if decide ("Stkcd" ∈ columns df)
  then setcol df "Symbol" (normalize_company_id (column df "Stkcd"))
  else if decide ("Symbol" ∈ columns df)
  then setcol df "Symbol" (normalize_company_id (column df "Symbol"))
  else df.

(** The body of the loop over [dated_keys]. *)
Definition spine_source (df : DataFrame) (declared : string)
  : res DataFrame :=
  let actual_col := resolve_date_col df declared in
  if decide (Forall (fun c => c ∈ columns df) ["Symbol"; actual_col])
  then Ok (rename (project df ["Symbol"; actual_col]) actual_col "Date")
  else Err KeyError.

Fixpoint spine_sources (dfs : list (source * DataFrame))
    (dated_keys : list source) : res (list DataFrame) :=
  match dated_keys with
  | [] => Ok []
  | k :: ks =>
      match date_map k, list_find (fun kd => kd.1 = k) dfs with
      | Some declared, Some (_, (_, df)) =>
          let* s := spine_source df declared in
          let* rest := spine_sources dfs ks in
          Ok (s :: rest)
      | _, _ => spine_sources dfs ks
      end
  end.

(** The renaming of one source before its join, and the join labels. *)
Definition join_labels (k : source) : list string :=
  match truthy (date_map k) with
  | Some _ => ["Symbol"; "Date"]
  | None => ["Symbol"]
  end.

Definition prefix_label (k : source) (key_cols : list string) (c : string)
  : string :=
  if decide (c ∈ key_cols) then c else source_name k ++ "_" ++ c.

Definition prepare (k : source) (df : DataFrame) : DataFrame :=
  let temp :=
    match truthy (date_map k) with
    | Some declared => rename df (resolve_date_col df declared) "Date"
    | None => df
    end in
  relabel (prefix_label k (join_labels k)) temp.

(** The loop "Join each source". *)
Fixpoint join_sources (merged : DataFrame) (dfs : list (source * DataFrame))
  : res DataFrame :=
  match dfs with
  | [] => Ok merged
  | (k, df) :: dfs' =>
      let* merged' := merge_left merged (prepare k df) (join_labels k) in
      join_sources merged' dfs'
  end.

(** The tables found on disk, as the loop "Load available files" leaves
    them in [dfs]: one entry per file that exists, in the order of
    [files]. *)
Definition load_available (avail : source -> option DataFrame)
  : list (source * DataFrame) :=
  omap (fun k => (fun df => (k, df)) <$> avail k) files.

Definition empty_spine : DataFrame := mkDF ["Symbol"; "Date"] [].

(** The spine [merge_filtered] builds from the loaded tables. *)
Definition spine_of (dfs : list (source * DataFrame)) : res DataFrame :=
  let dfs := prod_map id add_symbol <$> dfs in
  let* sources := spine_sources dfs date_map_keys in
  match sources with
  | [] => Ok empty_spine
  | _ => build_spine sources ["Symbol"; "Date"]
  end.

(** [merge_filtered], from the loaded tables to the table it writes. *)
Definition merge_loaded (dfs : list (source * DataFrame)) : res DataFrame :=
  match dfs with
  | [] => Err FileNotFoundError
  | _ =>
      let* spine := spine_of dfs in
      join_sources spine (prod_map id add_symbol <$> dfs)
  end.

Definition merge_filtered (avail : source -> option DataFrame)
  : res DataFrame :=
  merge_loaded (load_available avail).

(** ** The driver of clean_data.py

    [find_input_file] and [read_dataset] touch the file system: together
    they are the parameter [read_input], which gives for a dataset the
    path found and the table read from it, or the error raised.  What
    [process] prints and writes is the list of its events; the counts and
    names an f-string formats are the fields of the event. *)

Record Path : Type := mkPath { path_stem : string; path_suffix : string }.

Definition years_summary : Type := option Z * option Z * list Z.

Inductive event : Type :=
| PrintCoverage (min_years : Z) (target_years : gset Z) (common : nat)
| PrintDataset (cfg_key : string) (row_count unique_companies covered : nat)
               (yr_info : option (option Z * option Z))
| SaveDataset (output_path : string) (df : DataFrame)
| PrintSaved (cfg_key : string) (output_path : string) (row_count : nat).

Definition is_save (e : event) : bool :=
  match e with
  | SaveDataset _ _ => true
  | _ => false
  end.

Record Loaded : Type := mkLoaded {
  l_cfg : DatasetConfig;
  l_path : Path;
  l_df : DataFrame;
  l_company_col : string;
  l_year_col : option string
}.

Record Meta : Type := mkMeta {
  m_path : Path;
  m_company_col : string;
  m_year_col : option string;
  m_coverage : gset cell;
  m_row_count : nat;
  m_unique_companies : nat;
  m_years_present : option years_summary
}.

(** [d[k] = v] on a dictionary kept in insertion order. *)
Fixpoint dict_set {V} (k : string) (v : V) (d : list (string * V))
  : list (string * V) :=
  match d with
  | [] => [(k, v)]
  | (k', v') :: d' =>
      if decide (k' = k) then (k, v) :: d' else (k', v') :: dict_set k v d'
  end.

(** [series.nunique()]: the distinct values that are not missing. *)
Definition nunique (series : list cell) : nat :=
  size (list_to_set (filter (fun c => isna c = false) series) : gset cell).

Definition list_min (l : list Z) : option Z :=
  match l with
  | [] => None
  | x :: l' => Some (foldr Z.min x l')
  end.

Definition list_max (l : list Z) : option Z :=
  match l with
  | [] => None
  | x :: l' => Some (foldr Z.max x l')
  end.

(** [set.intersection] applied to the unpacked coverage sets. *)
Definition set_intersection (sets : list (gset cell)) : res (gset cell) :=
  match sets with
  | [] => Err TypeError
  | s :: sets' => Ok (foldl (fun acc t => acc ∩ t) s sets')
  end.

Section Process.
Context `{Pandas}.
Variable read_input : DatasetConfig -> res (Path * DataFrame).

(** The body of the loop over [DATASETS]. *)
Definition load_dataset (cfg : DatasetConfig) (target_years : gset Z)
    (min_years : Z) (include_consolidated : bool) : res (Loaded * Meta) :=
  let* found := read_input cfg in
  let path := found.1 in
  let* df := apply_row_filter found.2 cfg include_consolidated in
  let* df := filter_year_end df (head (date_cols cfg)) in
  let* company_col := pick_first_existing df (company_cols cfg) in
  let* year_col :=
    match date_cols cfg with
    | [] => Ok None
    | _ => let* c := pick_first_existing df (date_cols cfg) in Ok (Some c)
    end in
  let* coverage :=
    companies_with_full_years df company_col year_col target_years
                              min_years in
  let* years_present :=
    match truthy year_col with
    | Some yc =>
        let* years := normalize_year df yc in
        let years_series := omap id years in
        Ok (Some (list_min years_series, list_max years_series,
                  take 10 (merge_sort Z.le
                             (elements (list_to_set years_series : gset Z)))))
    | None => Ok None
    end in
  Ok (mkLoaded cfg path df company_col year_col,
      mkMeta path company_col year_col coverage (length (rows df))
             (nunique (column df company_col)) years_present).

Fixpoint load_datasets (cfgs : list DatasetConfig) (target_years : gset Z)
    (min_years : Z) (include_consolidated : bool)
    (loaded : list (string * Loaded)) (metadata : list (string * Meta))
  : res (list (string * Loaded) * list (string * Meta)) :=
  match cfgs with
  | [] => Ok (loaded, metadata)
  | cfg :: cfgs' =>
      let* lm := load_dataset cfg target_years min_years
                              include_consolidated in
      load_datasets cfgs' target_years min_years include_consolidated
                    (dict_set (key cfg) lm.1 loaded)
                    (dict_set (key cfg) lm.2 metadata)
  end.

Definition dataset_line (km : string * Meta) : event :=
  PrintDataset km.1 (m_row_count km.2) (m_unique_companies km.2)
               (size (m_coverage km.2))
               ((fun y : years_summary => (y.1.1, y.1.2))
                  <$> m_years_present km.2).

Definition output_path (output_dir : string) (p : Path) : string :=
  output_dir ++ "/" ++ path_stem p ++ "_filtered" ++ path_suffix p.

(** The loop that filters and saves every loaded dataset. *)
Fixpoint save_all (output_dir : string) (common_companies : gset cell)
    (target_years : gset Z) (loaded : list (string * Loaded))
  : list event * res unit :=
  match loaded with
  | [] => ([], Ok tt)
  | (cfg_key, l) :: loaded' =>
      match filter_for_companies_and_years (l_df l) (l_company_col l)
              (l_year_col l) common_companies target_years with
      | Err e => ([], Err e)
      | Ok filtered =>
          let out := output_path output_dir (l_path l) in
          let rest :=
            save_all output_dir common_companies target_years loaded' in
          (SaveDataset out filtered
             :: PrintSaved cfg_key out (length (rows filtered)) :: rest.1,
           rest.2)
      end
  end.

Definition process_with (cfgs : list DatasetConfig) (output_dir : string)
    (target_years : gset Z) (min_years : Z) (include_consolidated : bool)
  : list event * res unit :=
  match load_datasets cfgs target_years min_years include_consolidated
                      [] [] with
  | Err e => ([], Err e)
  | Ok (loaded, metadata) =>
      match set_intersection ((fun km => m_coverage km.2) <$> metadata) with
      | Err e => ([], Err e)
      | Ok common_companies =>
          let printed :=
            PrintCoverage min_years target_years (size common_companies)
              :: (dataset_line <$> metadata) in
          if decide (common_companies = ∅) then (printed, Err RuntimeError)
          else
            let saved :=
              save_all output_dir common_companies target_years loaded in
            ((printed ++ saved.1)%list, saved.2)
      end
  end.

Definition process (output_dir : string) (target_years : gset Z)
    (min_years : Z) (include_consolidated : bool) : list event * res unit :=
  process_with DATASETS output_dir target_years min_years
               include_consolidated.

End Process.

(** ** Tables as mutable objects

    [companies_with_full_years] and [filter_for_companies_and_years]
    receive a reference to the caller's table and assign columns in
    place.  Here the tables live in a store indexed by object identity;
    [temp[c] = series] overwrites the object [temp] points to, while
    [copy], [dropna], [drop] and [loc] build a new object. *)

Module InPlace.

Abbreviation ref := nat (only parsing).

Abbreviation heap := (gmap nat DataFrame) (only parsing).

(** A computation on the store; an exception leaves the store as it was
    when raised. *)
Definition M (A : Type) : Type := heap -> heap * res A.

Definition ret {A} (a : A) : M A := fun h => (h, Ok a).

Definition bind {A B} (m : M A) (k : A -> M B) : M B := fun h =>
  match m h with
  | (h', Ok a) => k a h'
  | (h', Err e) => (h', Err e)
  end.

Notation "'let!' x ':=' m 'in' k" := (bind m (fun x => k))
  (at level 10, x name, m at level 100, k at level 200,
   format "'[v' 'let!'  x  ':='  m  'in'  '/' k ']'").

Definition lift {A} (r : res A) : M A := fun h => (h, r).

(** A new object, at an identity the store has not handed out. *)
Definition alloc (df : DataFrame) : M ref := fun h =>
  let l := fresh (dom h) in (<[l := df]> h, Ok l).

(** Reading through a reference.  References come from the caller or
    from [alloc], so the second case does not occur. *)
Definition read (l : ref) : M DataFrame := fun h =>
  match h !! l with
  | Some df => (h, Ok df)
  | None => (h, Err TypeError)
  end.

Definition write (l : ref) (df : DataFrame) : M unit := fun h =>
  (<[l := df]> h, Ok tt).

Definition copy (l : ref) : M ref :=
  let! df := read l in alloc df.

Definition getitem (l : ref) (c : string) : M (list cell) :=
  let! df := read l in lift (getcol df c).

Definition setitem (l : ref) (c : string) (series : list cell) : M unit :=
  let! df := read l in write l (setcol df c series).

Section Functions.
Context `{Pandas}.

Definition normalize_year (l : ref) (date_col : string)
  : M (list (option Z)) :=
  let! df := read l in lift (normalize_year df date_col).

Definition companies_with_full_years (df : ref) (company_col : string)
    (year_col : option string) (target_years : gset Z) (min_years : Z)
  : M (gset cell) :=
  let! temp := copy df in
  let! col := getitem temp company_col in
  let! _ := setitem temp company_col (normalize_company_id col) in
  match year_col with
  | None =>
      let! col := getitem temp company_col in
      ret (list_to_set (filter (fun c => isna c = false) col))
  | Some yc =>
      let! years := normalize_year temp yc in
      let! _ := setitem temp "__year" (year_cell <$> years) in
      let! t := read temp in
      let! temp := alloc (dropna t [company_col; "__year"]) in
      let! t := read temp in
      ret (dom (filter (fun kv => min_years <= Z.of_nat (size kv.2))
                       (year_sets t company_col target_years)))
  end.

Definition filter_for_companies_and_years (df : ref) (company_col : string)
    (year_col : option string) (keep_companies : gset cell)
    (target_years : gset Z) : M ref :=
  let! out := copy df in
  let! col := getitem out company_col in
  let! _ := setitem out company_col (normalize_company_id col) in
  let! norm := getitem out company_col in
  let mask := (fun c => bool_decide (c ∈ keep_companies)) <$> norm in
  match truthy year_col with
  | Some yc =>
      let! years := normalize_year out yc in
      let! _ := setitem out "__year" (year_cell <$> years) in
      let mask := zip_with andb mask (isin_years target_years <$> years) in
      let! t := read out in
      let! out := alloc (dropcol t "__year") in
      let! t := read out in
      alloc (loc t mask)
  | None =>
      let! t := read out in
      alloc (loc t mask)
  end.

End Functions.

(** Every object of [h] is still in [h'], with the same value. *)
Definition preserved (h h' : heap) : Prop :=
  forall l d, h !! l = Some d -> h' !! l = Some d.

End InPlace.

(** ** A concrete pair of parsers

    Both read a text of the shape YYYY-MM-DD with a month from 1 to 12
    and a day from 1 to 31, and nothing else.  The examples below run
    the pipeline with them. *)

Definition digit (a : ascii) : option Z :=
  let n := nat_of_ascii a in
  if ((48 <=? n) && (n <=? 57))%nat then Some (Z.of_nat n - 48) else None.

Definition number (ds : list ascii) : option Z :=
  foldl (fun acc a =>
           match acc, digit a with
           | Some n, Some d => Some (10 * n + d)
           | _, _ => None
           end) (Some 0) ds.

Definition iso_date (c : cell) : option date :=
  match c with
  | CStr s =>
      match list_ascii_of_string s with
      | [y1; y2; y3; y4; s1; m1; m2; s2; d1; d2] =>
          if bool_decide (s1 = "-"%char) && bool_decide (s2 = "-"%char) then
            match number [y1; y2; y3; y4], number [m1; m2], number [d1; d2]
            with
            | Some y, Some m, Some d =>
                if (1 <=? m) && (m <=? 12) && (1 <=? d) && (d <=? 31)
                then Some (mkDate y m d) else None
            | _, _, _ => None
            end
          else None
      | _ => None
      end
  | _ => None
  end.

Definition iso_pandas : Pandas :=
  {| to_datetime_iso := iso_date; to_datetime := fmap iso_date |}.

(** ** The filter, row by row

    What [filter_for_companies_and_years] does to one row, once the year
    of a date value is a function [yr] of that value alone. *)

Definition normalized_row (company_col : string) (r : gmap string cell)
  : gmap string cell :=
  <[company_col := CStr (normalize_company_id1 (cell_at r company_col))]> r.

Definition row_out (company_col : string) (year_col : option string)
    (keep_companies : gset cell) (target_years : gset Z)
    (yr : cell -> option Z) (r : gmap string cell)
  : option (gmap string cell) :=
  let r1 := normalized_row company_col r in
  match year_col with
  | Some yc =>
      if bool_decide (cell_at r1 company_col ∈ keep_companies)
         && isin_years target_years (yr (cell_at r1 yc))
      then Some (delete "__year" r1) else None
  | None =>
      if bool_decide (cell_at r1 company_col ∈ keep_companies)
      then Some r1 else None
  end.

(** The year [normalize_year] gives a value of the series [raw] when the
    flexible parser reads each value with [p]: the strict format, unless
    it reads no value of the series at all. *)
Definition year_by `{Pandas} (p : cell -> option date) (raw : list cell)
    (v : cell) : option Z :=
  if forallb (fun d : option date => bool_decide (d = None))
             (to_datetime_iso <$> raw)
  then year <$> p v else year <$> to_datetime_iso v.

(** The series [out[year_col]] after the company column was normalised. *)
Definition year_values (df : DataFrame) (company_col year_col : string)
  : list cell :=
  (fun r => cell_at (normalized_row company_col r) year_col) <$> rows df.


(** ** Sources the merge can take

    A source as [read_any] gives it: no label twice, a company column,
    and for a dated source its declared date column or one of the
    fallback names, with no other column already called "Date". *)

Definition has_company_col (df : DataFrame) : Prop :=
  "Stkcd" ∈ columns df \/ "Symbol" ∈ columns df.

Definition has_date_col (k : source) (df : DataFrame) : Prop :=
  match date_map k with
  | Some declared =>
      (declared ∈ columns df \/ exists f, f ∈ fallbacks /\ f ∈ columns df)
      /\ "Date" ∉ columns df
  | None => True
  end.

Definition well_formed_source (kd : source * DataFrame) : Prop :=
  NoDup (columns kd.2) /\ has_company_col kd.2 /\ has_date_col kd.1 kd.2.

(** A label of the running merged table: a key label, or a label that a
    source of [ks] brought in under its prefix. *)
Definition owned (ks : list source) (c : string) : Prop :=
  c = "Symbol" \/ c = "Date"
  \/ exists k x, k ∈ ks /\ c = source_name k ++ "_" ++ x.

(** The labels of the running merged table. *)
Definition merged_labels (merged : DataFrame) (ks : list source) : Prop :=
  NoDup (columns merged)
  /\ "Symbol" ∈ columns merged
  /\ "Date" ∈ columns merged
  /\ forall c, c ∈ columns merged -> owned ks c.

(** The labels of a source prepared for its join. *)
Definition prepared_labels (k : source) (right : DataFrame) : Prop :=
  NoDup (columns right)
  /\ (forall c, c ∈ join_labels k -> c ∈ columns right)
  /\ forall c, c ∈ columns right ->
       c ∈ join_labels k \/ exists x, c = source_name k ++ "_" ++ x.

(** A loaded source after the loop that adds its "Symbol" column. *)
Definition ready (kd : source * DataFrame) : Prop :=
  NoDup (columns kd.2) /\ "Symbol" ∈ columns kd.2 /\ has_date_col kd.1 kd.2.

(** What the loop over [DATASETS] records about a dataset agrees with
    the table it keeps for it. *)
Definition recorded `{Pandas} (target_years : gset Z) (min_years : Z)
    (kl : string * Loaded) (km : string * Meta) : Prop :=
  kl.1 = km.1
  /\ m_row_count km.2 = length (rows (l_df kl.2))
  /\ m_unique_companies km.2
     = nunique (column (l_df kl.2) (l_company_col kl.2))
  /\ companies_with_full_years (l_df kl.2) (l_company_col kl.2)
                               (l_year_col kl.2) target_years min_years
     = Ok (m_coverage km.2).

(** ** Example tables *)

Module Examples.

Definition row (cells : list (string * cell)) : gmap string cell :=
  list_to_map cells.

(** A small balance-sheet table: the same company under three spellings,
    a second company, one mid-year row and one unreadable date. *)
Definition panel : DataFrame :=
  mkDF ["Stkcd"; "Accper"]
       [ row [("Stkcd", CFloat "600000.0"); ("Accper", CStr "2018-12-31")];
         row [("Stkcd", CInt 600000); ("Accper", CStr "2019-12-31")];
         row [("Stkcd", CStr " 600000 "); ("Accper", CStr "2020-12-31")];
         row [("Stkcd", CStr "000001"); ("Accper", CStr "2018-12-31")];
         row [("Stkcd", CStr "000001"); ("Accper", CStr "2018-06-30")];
         row [("Stkcd", CStr "000001"); ("Accper", CStr "n/a")] ].

Definition years : gset Z := {[2018; 2019; 2020]}.

(** An identifier that still ends in ".0" after normalisation. *)
Definition double_suffix : DataFrame :=
  mkDF ["Stkcd"] [ row [("Stkcd", CStr "600000.0.0")] ].

Definition double_suffix_once : DataFrame :=
  mkDF ["Stkcd"] [ row [("Stkcd", CStr "600000.0")] ].

Definition double_suffix_twice : DataFrame := mkDF ["Stkcd"] [].

(** A company table with a blank identifier cell. *)
Definition missing_id : DataFrame :=
  mkDF ["Stkcd"]
       [ row [("Stkcd", CInt 600000)]; row [("Stkcd", CNaN)] ].



(** A balance sheet whose date column came back as "Accper.1", next to a
    company table. *)
Definition renamed_dates : DataFrame :=
  mkDF ["Stkcd"; "Accper.1"; "A001000000"]
       [ row [("Stkcd", CFloat "600000.0"); ("Accper.1", CStr "2020-12-31");
              ("A001000000", CInt 100)];
         row [("Stkcd", CInt 1); ("Accper.1", CStr "2020-12-31");
              ("A001000000", CInt 7)] ].

Definition companies : DataFrame :=
  mkDF ["Stkcd"; "Conme"]
       [ row [("Stkcd", CInt 600000); ("Conme", CStr "SPDB")] ].

Definition renamed_and_companies (k : source) : option DataFrame :=
  match k with
  | cg_co => Some companies
  | fs_combas => Some renamed_dates
  | _ => None
  end.

(** One raw table that serves every dataset of [DATASETS]: one company,
    one year. *)
Definition raw : DataFrame :=
  mkDF ["Stkcd"; "Symbol"; "Accper"; "EndDate"; "Typrep"; "StateTypeCode"]
       [ row [("Stkcd", CInt 600000); ("Symbol", CInt 600000);
              ("Accper", CStr "2020-12-31"); ("EndDate", CStr "2020-12-31");
              ("Typrep", CStr "B"); ("StateTypeCode", CInt 2)] ].

Definition read_raw (cfg : DatasetConfig) : res (Path * DataFrame) :=
  Ok (mkPath (stem cfg) ".csv", raw).

(** What the filter keeps of [panel] for the company "600000". *)
Definition panel_kept : DataFrame :=
  mkDF ["Stkcd"; "Accper"]
       [ row [("Stkcd", CStr "600000"); ("Accper", CStr "2018-12-31")];
         row [("Stkcd", CStr "600000"); ("Accper", CStr "2019-12-31")];
         row [("Stkcd", CStr "600000"); ("Accper", CStr "2020-12-31")] ].

(** Two key tables for the spine, the first with a repeated key. *)
Definition keys_a : DataFrame :=
  mkDF ["Symbol"; "Date"]
       [ row [("Symbol", CStr "600000"); ("Date", CStr "2019-12-31")];
         row [("Symbol", CStr "600000"); ("Date", CStr "2020-12-31")];
         row [("Symbol", CStr "600000"); ("Date", CStr "2019-12-31")] ].

Definition keys_b : DataFrame :=
  mkDF ["Symbol"; "Date"]
       [ row [("Symbol", CStr "000001"); ("Date", CStr "2020-12-31")];
         row [("Symbol", CStr "600000"); ("Date", CStr "2020-12-31")] ].

End Examples.

(** ** Further definitions

    The texts of the filter column whose rows [apply_row_filter] keeps:
    the text of a value of [filter_keep], and with [include_consolidated]
    also "1" for a dataset whose key starts with "mc_" and "A" for the
    two financial statements. *)
Definition kept_text (cfg : DatasetConfig) (include_consolidated : bool)
    (s : string) : Prop :=
  (exists vs v, filter_keep cfg = Some vs /\ v ∈ vs /\ s = astype_str v)
  \/ (include_consolidated = true
      /\ ((startswith "mc_" (key cfg) = true /\ s = "1")
          \/ (key cfg ∈ ["fs_combas"; "fs_comins"] /\ s = "A"))).

(** The set of texts that [apply_row_filter] builds. *)
Definition keep_values_of (cfg : DatasetConfig) (include_consolidated : bool)
  : gset string :=
  let keep_values : gset string :=
    match filter_keep cfg with
    | Some vs => list_to_set (astype_str <$> vs)
    | None => ∅
    end in
  if include_consolidated then
    let k1 := if startswith "mc_" (key cfg)
              then keep_values ∪ {["1"]} else keep_values in
    if decide (key cfg ∈ ["fs_combas"; "fs_comins"])
    then k1 ∪ {["A"]} else k1
  else keep_values.

(** The target-free part of the coverage: the years seen for an
    identifier, one list entry per row. *)
Definition observed_years (ids : list cell) (years : list (option Z))
    (c : cell) : gset Z :=
  list_to_set
    (omap (fun p : cell * option Z => if decide (p.1 = c) then p.2 else None)
          (zip ids years)).

(** The grouping of a list of (key, value) pairs, as the fold of
    [year_sets] builds it. *)
Definition group_pairs (l : list (cell * cell)) : gmap cell (gset cell) :=
  foldr (fun p (m : gmap cell (gset cell)) =>
           <[p.1 := {[p.2]} ∪ default ∅ (m !! p.1)]> m) ∅ l.

(** The row that [filter_for_companies_and_years] returns for a row it
    keeps. *)
Definition kept_row (company_col : string) (year_col : option string)
    (r : gmap string cell) : gmap string cell :=
  match truthy year_col with
  | Some _ => delete "__year" (normalized_row company_col r)
  | None => normalized_row company_col r
  end.

(** What the loop over [DATASETS] leaves in [loaded] for a dataset: the
    chosen columns are columns of the table it keeps and candidates of
    the configuration. *)
Definition usable (l : Loaded) : Prop :=
  l_company_col l ∈ columns (l_df l)
  /\ l_company_col l ∈ company_cols (l_cfg l)
  /\ match l_year_col l with
     | Some yc => yc ∈ columns (l_df l) /\ yc ∈ date_cols (l_cfg l)
     | None => date_cols (l_cfg l) = []
     end.

(** What one round of the last loop of [process] writes and prints. *)
Definition saved_events (output_dir : string) (kl : string * Loaded)
    (filtered : DataFrame) : list event :=
  let out := output_path output_dir (l_path kl.2) in
  [SaveDataset out filtered; PrintSaved kl.1 out (length (rows filtered))].

(** The column names of [DATASETS]: no company column is the working
    column "__year" or a date column, and no date column is the empty
    text. *)
Definition plain_columns (cfg : DatasetConfig) : Prop :=
  Forall (fun c => c ≠ "__year"
                   /\ Forall (fun y => y ≠ c /\ y ≠ EmptyString)
                             (date_cols cfg))
         (company_cols cfg).

(** The columns a source brings into the merged table: its columns other
    than the join keys, under its prefix. *)
Definition brought (kd : source * DataFrame) : list string :=
  filter (fun c => c ∉ join_labels kd.1)
         (columns (prepare kd.1 (add_symbol kd.2))).

(** ** Finding the input files

    The directory is the list of the names it holds.  The pattern of
    [glob] is the stem, a star and the extension; for a stem and an
    extension without pattern characters, as those of [DATASETS], a name
    matches when it starts with the stem and what follows ends with the
    extension.  [sorted] orders the matches as texts. *)
Fixpoint chop_prefix (p s : string) : option string :=
  match p, s with
  | EmptyString, _ => Some s
  | String a p', String b s' =>
      if decide (a = b) then chop_prefix p' s' else None
  | String _ _, EmptyString => None
  end.

Fixpoint has_suffix (ext s : string) : bool :=
  bool_decide (s = ext)
  || match s with
     | EmptyString => false
     | String _ s' => has_suffix ext s'
     end.

Definition glob_match (stem ext name : string) : bool :=
  match chop_prefix stem name with
  | Some rest => has_suffix ext rest
  | None => false
  end.

(** The first loop: the exact names, in the order of the extensions. *)
Fixpoint first_exact (data_dir : list string) (stem : string)
    (exts : list string) : option string :=
  match exts with
  | [] => None
  | ext :: exts' =>
      let candidate := stem ++ ext in
      if decide (candidate ∈ data_dir) then Some candidate
      else first_exact data_dir stem exts'
  end.

(** The second loop: for each extension the sorted matches. *)
Fixpoint first_glob (data_dir : list string) (stem : string)
    (exts : list string) : option string :=
  match exts with
  | [] => None
  | ext :: exts' =>
      let matches :=
        merge_sort String.le
          (filter (fun name => glob_match stem ext name = true) data_dir) in
      match matches with
      | m :: _ => Some m
      | [] => first_glob data_dir stem exts'
      end
  end.

Definition find_input_file (cfg : DatasetConfig) (data_dir : list string)
  : res string :=
  match first_exact data_dir (stem cfg) (expected_exts cfg) with
  | Some candidate => Ok candidate
  | None =>
      match first_glob data_dir (stem cfg) (expected_exts cfg) with
      | Some m => Ok m
      | None => Err FileNotFoundError
      end
  end.

(** A text without the pattern characters of [glob]. *)
Fixpoint plain_text (s : string) : bool :=
  match s with
  | EmptyString => true
  | String a s' =>
      negb (bool_decide (a ∈ ["*"; "?"; "["; "]"; "/"]%char))
      && plain_text s'
  end.

Definition plain_names (cfg : DatasetConfig) : Prop :=
  plain_text (stem cfg) = true
  /\ Forall (fun ext => plain_text ext = true) (expected_exts cfg).

(** ** ensure_col

    [ensure_col] of merge_filtered.py works on the table it is given:
    the assignment [df[col] = None] changes the caller's object, and the
    same object is returned. *)
Definition ensure_col (df : nat) (col : string) : InPlace.M nat :=
  InPlace.bind (InPlace.read df) (fun t =>
    if decide (col ∈ columns t) then InPlace.ret df
    else
      InPlace.bind
        (InPlace.setitem df col (replicate (length (rows t)) CNone))
        (fun _ => InPlace.ret df)).

(** ** Further example tables *)

Module MoreExamples.
Import Examples.

(** The first two entries of [DATASETS]. *)
Definition cg_co_cfg : DatasetConfig :=
  mkConfig "cg_co" "CG_Co" [".xlsx"; ".xls"] ["Stkcd"] [] None None.

Definition fs_combas_cfg : DatasetConfig :=
  mkConfig "fs_combas" "FS_Combas" [".xlsx"; ".xls"] ["Stkcd"] ["Accper"]
           (Some "Typrep") (Some [CStr "B"]).

(** A balance sheet with parent ("B") and consolidated ("A") rows and
    one row of another kind. *)
Definition statements : DataFrame :=
  mkDF ["Stkcd"; "Accper"; "Typrep"]
       [ row [("Stkcd", CInt 600000); ("Accper", CStr "2020-12-31");
              ("Typrep", CStr "A")];
         row [("Stkcd", CInt 600000); ("Accper", CStr "2020-12-31");
              ("Typrep", CStr "B")];
         row [("Stkcd", CInt 1); ("Accper", CStr "2020-12-31");
              ("Typrep", CStr "C")];
         row [("Stkcd", CInt 1); ("Accper", CStr "2020-12-31");
              ("Typrep", CStr "B")] ].

Definition statements_parent : DataFrame :=
  mkDF ["Stkcd"; "Accper"; "Typrep"]
       [ row [("Stkcd", CInt 600000); ("Accper", CStr "2020-12-31");
              ("Typrep", CStr "B")];
         row [("Stkcd", CInt 1); ("Accper", CStr "2020-12-31");
              ("Typrep", CStr "B")] ].

(** The years [normalize_year] reads from [panel]. *)
Definition panel_years : list (option Z) :=
  [Some 2018; Some 2019; Some 2020; Some 2018; Some 2018; None].

(** A company table without a company column, next to a balance
    sheet. *)
Definition names_only : DataFrame :=
  mkDF ["Conme"] [ row [("Conme", CStr "SPDB")] ].

Definition no_company_col (k : source) : option DataFrame :=
  match k with
  | cg_co => Some names_only
  | fs_combas => Some renamed_dates
  | _ => None
  end.

(** Two directories: one with a file under the exact name next to a
    dated copy, one with dated copies only. *)
Definition exact_and_dated : list string :=
  ["CG_Co_2019.xlsx"; "CG_Co.xls"; "notes.txt"].

Definition dated_only : list string :=
  ["CG_Co_2020.xls"; "CG_Co_2019.xls"; "FS_Combas.xlsx"].

End MoreExamples.

(** * Properties *)

(** ** Normalisation of company identifiers *)

Module TextFacts.
Import Text.

Lemma lstrip_head (s : list ascii) a tl :
  lstrip s = a :: tl -> isspace a = false.
Proof.
  induction s as [|b s IH]; simpl; [done|].
  destruct (isspace b) eqn:Hb; [exact IH|].
  intros [= -> _]. exact Hb.
Qed.

Lemma strip_last (s : list ascii) front a :
  strip s = (front ++ [a])%list -> isspace a = false.
Proof.
  unfold strip, rstrip. intros Hs.
  apply (f_equal (@rev ascii)) in Hs.
  rewrite rev_involutive, rev_app_distr in Hs. simpl in Hs.
  by apply lstrip_head in Hs.
Qed.

Lemma rev_case {A} (l : list A) :
  l = [] \/ exists front a, l = (front ++ [a])%list.
Proof. induction l using rev_ind; [by left|right; eauto]. Qed.

Lemma drop_dot0_suffix_snoc2 (front : list ascii) d z :
  drop_dot0_suffix (front ++ [d; z])
  = if bool_decide (z = "0"%char) && bool_decide (d = "."%char)
    then front else (front ++ [d; z])%list.
Proof.
  unfold drop_dot0_suffix. rewrite rev_app_distr. simpl.
  by rewrite rev_involutive.
Qed.

Lemma drop_dot0_suffix_cons a (u : list ascii) :
  (2 <= length u)%nat -> drop_dot0_suffix (a :: u) = a :: drop_dot0_suffix u.
Proof.
  intros Hu.
  destruct (rev_case u) as [->|[front [z ->]]]; [simpl in Hu; lia|].
  destruct (rev_case front) as [->|[front' [d ->]]].
  { simpl in Hu; lia. }
  rewrite <- !app_assoc. simpl.
  change (a :: (front' ++ [d; z])%list) with ((a :: front') ++ [d; z])%list.
  rewrite !drop_dot0_suffix_snoc2.
  by destruct (_ && _).
Qed.

(** A text that does not end in a line feed: [$] is the end of the text. *)
Lemma sub_dot0_suffix (s : list ascii) :
  (forall front, s ≠ (front ++ [newline])%list) ->
  sub_dot0 s = drop_dot0_suffix s.
Proof.
  induction s as [|a tl IH]; [done|].
  intros Hnl. destruct tl as [|b rest]; [done|].
  assert (Htl : forall front, b :: rest ≠ (front ++ [newline])%list).
  { intros front Hf. apply (Hnl (a :: front)). simpl. by rewrite Hf. }
  specialize (IH Htl).
  cbn [sub_dot0]. cbn [sub_dot0] in IH.
  destruct rest as [|c rest'].
  - simpl. change [a; b] with ([] ++ [a; b])%list.
    rewrite drop_dot0_suffix_snoc2. simpl.
    rewrite andb_true_r.
    rewrite (andb_comm (bool_decide (b = "0"%char))).
    by destruct (bool_decide (a = "."%char)), (bool_decide (b = "0"%char)).
  - assert (Hd : at_dollar (c :: rest') = false).
    { destruct rest' as [|? ?]; [|done]. simpl.
      apply bool_decide_eq_false. intros ->.
      by apply (Hnl [a; b]). }
    rewrite Hd, andb_false_r. rewrite IH.
    symmetry. apply drop_dot0_suffix_cons. simpl. lia.
Qed.

Lemma sub_dot0_strip (s : list ascii) :
  sub_dot0 (strip s) = drop_dot0_suffix (strip s).
Proof.
  apply sub_dot0_suffix. intros front Hf.
  by apply strip_last in Hf.
Qed.

End TextFacts.

(** C6.  [normalize_company_id] turns a raw identifier into its text,
    strips the white space around it and then removes one trailing ".0"
    when there is one; "600000", "600000.0" and " 600000 " all become
    "600000". *)
Theorem normalize_company_id_spec :
  (forall c : cell, normalize_company_id1 c = normalize_spec c)
  /\ (forall series : list cell,
        normalize_company_id series
        = (fun c => CStr (normalize_spec c)) <$> series)
  /\ normalize_company_id
       [CStr "600000"; CStr "600000.0"; CStr " 600000 ";
        CInt 600000; CFloat "600000.0"]
     = [CStr "600000"; CStr "600000"; CStr "600000";
        CStr "600000"; CStr "600000"]
  /\ normalize_company_id [CStr "600000.0.0"] = [CStr "600000.0"].
Proof.
  assert (H1 : forall c : cell, normalize_company_id1 c = normalize_spec c).
  { intros c. unfold normalize_company_id1, normalize_spec.
    by rewrite TextFacts.sub_dot0_strip. }
  split; [exact H1|]. split; [|split; reflexivity].
  intros series. unfold normalize_company_id.
  apply list_fmap_ext. intros _ c _. by rewrite H1.
Qed.

(** ** Tables: columns, masks *)

Section FrameFacts.

Lemma length_column df c : length (column df c) = length (rows df).
Proof. unfold column. by rewrite length_fmap. Qed.

Lemma length_normalize_company_id series :
  length (normalize_company_id series) = length series.
Proof. unfold normalize_company_id. by rewrite length_fmap. Qed.

Lemma getcol_Ok df c : c ∈ columns df -> getcol df c = Ok (column df c).
Proof. intros Hc. unfold getcol. by rewrite decide_True. Qed.

Lemma getcol_Err df c : c ∉ columns df -> getcol df c = Err KeyError.
Proof. intros Hc. unfold getcol. by rewrite decide_False. Qed.

Lemma columns_setcol_in df c series :
  c ∈ columns df -> columns (setcol df c series) = columns df.
Proof. intros Hc. simpl. by rewrite decide_True. Qed.

Lemma elem_of_columns_setcol df c c' series :
  c' ∈ columns df -> c' ∈ columns (setcol df c series).
Proof.
  intros Hc. simpl. case_decide; [done|]. apply elem_of_app. by left.
Qed.

Lemma elem_of_columns_setcol_eq df c series :
  c ∈ columns (setcol df c series).
Proof.
  simpl. case_decide; [done|]. apply elem_of_app. right.
  by apply list_elem_of_singleton.
Qed.

Lemma zip_with_insert_lookup (rs : list (gmap string cell)) c series :
  length series = length rs ->
  (fun r => cell_at r c) <$> zip_with (fun r v => <[c := v]> r) rs series
  = series.
Proof.
  revert series. induction rs as [|r rs IH]; intros [|v series] Hlen;
    simpl in *; try done.
  unfold cell_at at 1. rewrite lookup_insert_eq. simpl.
  f_equal. apply IH. lia.
Qed.

Lemma zip_with_insert_lookup_ne (rs : list (gmap string cell)) c c' series :
  c ≠ c' -> length series = length rs ->
  (fun r => cell_at r c') <$> zip_with (fun r v => <[c := v]> r) rs series
  = (fun r => cell_at r c') <$> rs.
Proof.
  intros Hne. revert series.
  induction rs as [|r rs IH]; intros [|v series] Hlen; simpl in *; try done.
  unfold cell_at at 1 3. rewrite lookup_insert_ne by done.
  f_equal. apply IH. lia.
Qed.

Lemma column_setcol_eq df c series :
  length series = length (rows df) -> column (setcol df c series) c = series.
Proof. intros Hlen. unfold column. simpl. by apply zip_with_insert_lookup. Qed.

Lemma column_setcol_ne df c c' series :
  c ≠ c' -> length series = length (rows df) ->
  column (setcol df c series) c' = column df c'.
Proof.
  intros Hne Hlen. unfold column. simpl.
  by apply zip_with_insert_lookup_ne.
Qed.

Lemma length_rows_setcol df c series :
  length series = length (rows df) ->
  length (rows (setcol df c series)) = length (rows df).
Proof. intros Hlen. simpl. rewrite length_zip_with. lia. Qed.

Lemma elem_of_loc_mask {A} (l : list A) (mask : list bool) (x : A) :
  x ∈ loc_mask l mask <-> exists i, l !! i = Some x /\ mask !! i = Some true.
Proof.
  revert mask. induction l as [|y l IH]; intros [|b mask]; simpl.
  - split; [by intros ?%elem_of_nil|by intros (i & ? & ?)].
  - split; [by intros ?%elem_of_nil|by intros (i & ? & ?)].
  - split; [by intros ?%elem_of_nil|by intros (i & ? & ?)].
  - destruct b.
    + rewrite elem_of_cons, IH. split.
      * intros [->|(i & ? & ?)]; [by exists 0%nat|by exists (S i)].
      * intros ([|i] & Hl & Hm); simpl in *; [left; congruence|right; eauto].
    + rewrite IH. split.
      * intros (i & ? & ?). by exists (S i).
      * intros ([|i] & Hl & Hm); simpl in *; [congruence|eauto].
Qed.

Lemma loc_mask_sublist {A} (l : list A) (mask : list bool) :
  sublist (loc_mask l mask) l.
Proof.
  revert mask. induction l as [|y l IH]; intros [|b mask]; simpl;
    try apply sublist_nil_l.
  destruct b; [by apply sublist_skip|by apply sublist_cons].
Qed.

End FrameFacts.

(** ** The filters and the coverage of clean_data.py *)

Section CleanDataFacts.
Context `{Pandas}.

Lemma length_flexible_dates raw : length (flexible_dates raw) = length raw.
Proof. unfold flexible_dates. by rewrite length_resize. Qed.

Lemma flexible_dates_lookup raw (i : nat) d :
  (i < length raw)%nat ->
  flexible_dates raw !! i = Some (Some d)
  <-> to_datetime raw !! i = Some (Some d).
Proof.
  intros Hi. unfold flexible_dates.
  destruct (decide (i < length (to_datetime raw))%nat) as [Hlt|Hge].
  - by rewrite lookup_resize.
  - rewrite lookup_resize_new by lia.
    rewrite (lookup_ge_None_2 (to_datetime raw)) by lia. done.
Qed.

Lemma normalize_year_Ok df c :
  c ∈ columns df ->
  exists years, normalize_year df c = Ok years
                /\ length years = length (rows df).
Proof.
  intros Hc. unfold normalize_year. rewrite getcol_Ok by done. simpl.
  eexists. split; [done|].
  rewrite length_fmap. case_match.
  - by rewrite length_flexible_dates, length_column.
  - by rewrite length_fmap, length_column.
Qed.

Lemma normalize_year_Err df c :
  c ∉ columns df -> normalize_year df c = Err KeyError.
Proof. intros Hc. unfold normalize_year. by rewrite getcol_Err. Qed.

(** C8.  On a table that has the declared date column, [filter_year_end]
    returns a table and raises nothing; the rows it returns are, in their
    order, exactly the rows whose date parses to a 31 December, so a row
    whose date does not parse is dropped. *)
Theorem filter_year_end_spec (df : DataFrame) (date_col : string) :
  date_col ≠ EmptyString ->
  date_col ∈ columns df ->
  exists out,
    filter_year_end df (Some date_col) = Ok out
    /\ columns out = columns df
    /\ sublist (rows out) (rows df)
    /\ forall r,
         r ∈ rows out
         <-> exists (i : nat) d,
               rows df !! i = Some r
               /\ to_datetime (column df date_col) !! i = Some (Some d)
               /\ month d = 12 /\ day d = 31.
Proof.
  intros Hne Hc. unfold filter_year_end. simpl.
  rewrite decide_False by done. rewrite getcol_Ok by done. simpl.
  eexists. split; [done|]. split; [done|]. split.
  { apply loc_mask_sublist. }
  intros r. simpl. rewrite elem_of_loc_mask. split.
  - intros (i & Hr & Hm). rewrite list_lookup_fmap in Hm.
    destruct (flexible_dates (column df date_col) !! i) as [[d|]|] eqn:Hd;
      simpl in Hm; try done.
    injection Hm as Hm. apply andb_true_iff in Hm as [Hmo Hda].
    apply bool_decide_eq_true in Hmo, Hda.
    exists i, d. split; [done|]. split; [|done].
    apply flexible_dates_lookup; [|done].
    rewrite length_column. by apply lookup_lt_Some in Hr.
  - intros (i & d & Hr & Hd & Hmo & Hda). exists i. split; [done|].
    apply flexible_dates_lookup in Hd;
      [|rewrite length_column; by apply lookup_lt_Some in Hr].
    rewrite list_lookup_fmap, Hd. simpl.
    by rewrite !bool_decide_eq_true_2.
Qed.

(** The company column after normalisation holds texts only. *)
Lemma filter_notna_normalized series :
  filter (fun c => isna c = false) (normalize_company_id series)
  = normalize_company_id series.
Proof.
  unfold normalize_company_id. induction series as [|c series IH]; [done|].
  rewrite fmap_cons, filter_cons_True by done. by rewrite IH.
Qed.

(** Without a year column the coverage is the set of the normalised
    values of the company column, whatever the years and the threshold. *)
Lemma companies_without_year_col df company_col target_years min_years :
  company_col ∈ columns df ->
  companies_with_full_years df company_col None target_years min_years
  = Ok (list_to_set (normalize_company_id (column df company_col))).
Proof.
  intros Hc. unfold companies_with_full_years.
  rewrite getcol_Ok by done. simpl.
  rewrite column_setcol_eq
    by (by rewrite length_normalize_company_id, length_column).
  by rewrite filter_notna_normalized.
Qed.

(** C7.  With the company and the year column present, the coverage is
    computed for every threshold, and a larger threshold gives a subset:
    raising [min_years] never adds a company. *)
Theorem coverage_antitone (df : DataFrame) (company_col year_col : string)
    (target_years : gset Z) (m1 m2 : Z) :
  m1 <= m2 ->
  company_col ∈ columns df ->
  year_col ∈ columns df ->
  exists s1 s2 : gset cell,
    companies_with_full_years df company_col (Some year_col)
                              target_years m1 = Ok s1
    /\ companies_with_full_years df company_col (Some year_col)
                                 target_years m2 = Ok s2
    /\ s2 ⊆ s1.
Proof.
  intros Hm Hc Hy. unfold companies_with_full_years.
  rewrite getcol_Ok by done. simpl.
  destruct (normalize_year_Ok
              (setcol df company_col
                      (normalize_company_id (column df company_col)))
              year_col) as (years & -> & _).
  { by apply elem_of_columns_setcol. }
  simpl. do 2 eexists. split; [done|]. split; [done|].
  intros c. rewrite !elem_of_dom.
  intros [ys Hys]. exists ys.
  apply map_lookup_filter_Some in Hys as [Hys Hsize].
  apply map_lookup_filter_Some. split; [done|]. simpl in *. lia.
Qed.

End CleanDataFacts.

(** ** Running the filter twice *)

Section RowWise.

Lemma zip_with_rowwise {A B C} (F : A -> B -> C) (g : A -> B) (l : list A) :
  zip_with F l (g <$> l) = (fun x => F x (g x)) <$> l.
Proof. induction l as [|x l IH]; simpl; [done|f_equal; exact IH]. Qed.

Lemma zip_with_rowwise2 {A B C D} (F : B -> C -> D) (h : A -> B) (g : A -> C)
    (l : list A) :
  zip_with F (h <$> l) (g <$> l) = (fun x => F (h x) (g x)) <$> l.
Proof. induction l as [|x l IH]; simpl; [done|f_equal; exact IH]. Qed.

Lemma loc_mask_rowwise {A B} (h : A -> B) (b : A -> bool) (l : list A) :
  loc_mask (h <$> l) (b <$> l)
  = omap (fun x => if b x then Some (h x) else None) l.
Proof.
  induction l as [|x l IH]; [done|].
  cbn [fmap list_fmap loc_mask omap list_omap].
  rewrite IH. by destruct (b x).
Qed.

Lemma omap_pointwise {A B} (f g : A -> option B) (l : list A) :
  (forall x, f x = g x) -> omap f l = omap g l.
Proof.
  intros Hfg. induction l as [|x l IH]; [done|].
  cbn [omap list_omap]. by rewrite Hfg, IH.
Qed.

Lemma omap_fixed {A} (f : A -> option A) (l : list A) :
  (forall x, x ∈ l -> f x = Some x) -> omap f l = l.
Proof.
  induction l as [|x l IH]; intros Hf; [done|].
  cbn [omap list_omap]. rewrite (Hf x) by apply list_elem_of_here.
  f_equal. apply IH. intros y Hy. apply Hf. by apply list_elem_of_further.
Qed.

Lemma filter_ne_setcol_year (cols : list string) :
  filter (fun x => x ≠ "__year")
         (if decide ("__year" ∈ cols) then cols
          else (cols ++ ["__year"])%list)
  = filter (fun x => x ≠ "__year") cols.
Proof.
  case_decide; [done|].
  rewrite filter_app. rewrite (filter_cons_False _ "__year") by (by intros ?).
  rewrite filter_nil. by rewrite app_nil_r.
Qed.

Lemma rows_setcol_normalized df company_col :
  rows (setcol df company_col (normalize_company_id (column df company_col)))
  = normalized_row company_col <$> rows df.
Proof.
  unfold setcol, normalize_company_id, column. cbn [rows].
  rewrite <- list_fmap_compose. by rewrite zip_with_rowwise.
Qed.

End RowWise.

Section FilterTwice.
Context `{Pandas}.
Variable p : cell -> option date.
Hypothesis to_datetime_each : forall raw, to_datetime raw = p <$> raw.

Lemma normalize_year_rowwise df c :
  c ∈ columns df ->
  normalize_year df c = Ok (year_by p (column df c) <$> column df c).
Proof.
  intros Hc. unfold normalize_year. rewrite getcol_Ok by done.
  cbn [res_bind]. f_equal. unfold year_by, flexible_dates.
  rewrite to_datetime_each.
  rewrite (resize_all_alt (p <$> column df c)) by (by rewrite length_fmap).
  destruct (forallb _ _); by rewrite <- list_fmap_compose.
Qed.

Lemma filter_rowwise_year df company_col year_col keep_companies
    target_years :
  year_col ≠ EmptyString ->
  company_col ∈ columns df ->
  year_col ∈ columns df ->
  filter_for_companies_and_years df company_col (Some year_col)
                                 keep_companies target_years
  = Ok (mkDF (filter (fun x => x ≠ "__year") (columns df))
             (omap (row_out company_col (Some year_col) keep_companies
                            target_years
                            (year_by p (year_values df company_col year_col)))
                   (rows df))).
Proof.
  intros Hne Hc Hy. unfold filter_for_companies_and_years.
  rewrite getcol_Ok by done. cbn [res_bind truthy].
  rewrite decide_False by done.
  set (out := setcol df company_col
                     (normalize_company_id (column df company_col))).
  assert (Hrows : rows out = normalized_row company_col <$> rows df)
    by apply rows_setcol_normalized.
  assert (Hcol : column out year_col = year_values df company_col year_col).
  { unfold column, year_values. rewrite Hrows.
    by rewrite <- list_fmap_compose. }
  rewrite normalize_year_rowwise by (by apply elem_of_columns_setcol).
  cbn [res_bind]. rewrite Hcol. f_equal.
  unfold loc, dropcol. cbn [columns rows setcol]. f_equal.
  - rewrite filter_ne_setcol_year. unfold out.
    by rewrite columns_setcol_in.
  - unfold column at 1. rewrite Hrows. unfold year_values.
    rewrite <- !list_fmap_compose.
    rewrite !zip_with_rowwise2.
    rewrite <- list_fmap_compose. rewrite loc_mask_rowwise.
    apply omap_pointwise. intros r.
    unfold row_out, compose. cbn beta.
    destruct (_ && _); [|done].
    by rewrite delete_insert_eq.
Qed.

Lemma filter_rowwise_no_year df company_col year_col keep_companies
    target_years :
  truthy year_col = None ->
  company_col ∈ columns df ->
  filter_for_companies_and_years df company_col year_col
                                 keep_companies target_years
  = Ok (mkDF (columns df)
             (omap (row_out company_col None keep_companies target_years
                            (fun _ => None))
                   (rows df))).
Proof.
  intros Hyc Hc. unfold filter_for_companies_and_years.
  rewrite getcol_Ok by done. cbn [res_bind]. rewrite Hyc. f_equal.
  unfold loc. rewrite columns_setcol_in by done. f_equal.
  unfold column. rewrite rows_setcol_normalized.
  rewrite <- !list_fmap_compose. rewrite loc_mask_rowwise.
  apply omap_pointwise. intros r. done.
Qed.

Lemma truthy_Some o y : truthy o = Some y -> o = Some y /\ y ≠ EmptyString.
Proof.
  destruct o as [s|]; simpl; [|done].
  case_decide; [done|]. by intros [= ->].
Qed.

Lemma filter_Ok_columns df company_col year_col keep_companies target_years
    out :
  filter_for_companies_and_years df company_col year_col keep_companies
                                 target_years = Ok out ->
  company_col ∈ columns df
  /\ forall y, truthy year_col = Some y -> y ∈ columns df.
Proof.
  unfold filter_for_companies_and_years. intros Hout.
  destruct (decide (company_col ∈ columns df)) as [Hc|Hc];
    [|by rewrite getcol_Err in Hout].
  split; [done|]. intros y Hy.
  rewrite getcol_Ok in Hout by done. cbn [res_bind] in Hout.
  rewrite Hy in Hout.
  destruct (decide (y ∈ columns df)) as [Hin|Hin]; [done|].
  rewrite normalize_year_Err in Hout; [done|].
  by rewrite columns_setcol_in.
Qed.

Lemma all_unread_spec (raw : list cell) :
  forallb (fun d : option date => bool_decide (d = None))
          (to_datetime_iso <$> raw) = true
  <-> forall v, v ∈ raw -> to_datetime_iso v = None.
Proof.
  induction raw as [|v raw IH]; simpl.
  - split; [by intros _ v ?%elem_of_nil|done].
  - rewrite andb_true_iff, bool_decide_eq_true, IH. split.
    + intros [Hv Hraw] w [->|Hw]%elem_of_cons; auto.
    + intros Hall. split; [apply Hall; left|intros w Hw; apply Hall; by right].
Qed.

(** On a part of the series that keeps a value with a year, the year of
    that value is read the same way. *)
Lemma year_by_part (raw1 raw2 : list cell) (v : cell) y :
  (forall w, w ∈ raw2 -> w ∈ raw1) ->
  v ∈ raw2 ->
  year_by p raw1 v = Some y ->
  year_by p raw2 v = Some y.
Proof.
  intros Hsub Hv. unfold year_by.
  destruct (forallb _ (to_datetime_iso <$> raw1)) eqn:H1.
  - assert (H2 : forallb (fun d : option date => bool_decide (d = None))
                         (to_datetime_iso <$> raw2) = true).
    { apply all_unread_spec. intros w Hw.
      apply (proj1 (all_unread_spec raw1) H1). by apply Hsub. }
    by rewrite H2.
  - intros Hy.
    destruct (forallb _ (to_datetime_iso <$> raw2)) eqn:H2; [|done].
    rewrite (proj1 (all_unread_spec raw2) H2 v Hv) in Hy. done.
Qed.

Section Again.
Variables (company_col : string) (keep_companies : gset cell).
Hypothesis keep_stable :
  forall s, CStr s ∈ keep_companies -> normalize_company_id1 (CStr s) = s.

Lemma cell_at_normalized_row (r : gmap string cell) :
  cell_at (normalized_row company_col r) company_col
  = CStr (normalize_company_id1 (cell_at r company_col)).
Proof. unfold cell_at at 1, normalized_row. by rewrite lookup_insert_eq. Qed.

Lemma normalized_row_again (r : gmap string cell) :
  cell_at (normalized_row company_col r) company_col ∈ keep_companies ->
  normalized_row company_col (normalized_row company_col r)
  = normalized_row company_col r.
Proof.
  rewrite cell_at_normalized_row. intros Hk.
  unfold normalized_row at 1. rewrite cell_at_normalized_row.
  rewrite (keep_stable _ Hk).
  apply insert_id. unfold normalized_row. by rewrite lookup_insert_eq.
Qed.

Lemma normalized_row_again_delete (r : gmap string cell) :
  company_col ≠ "__year" ->
  cell_at (normalized_row company_col r) company_col ∈ keep_companies ->
  normalized_row company_col (delete "__year" (normalized_row company_col r))
  = delete "__year" (normalized_row company_col r).
Proof.
  intros Hne. rewrite cell_at_normalized_row. intros Hk.
  unfold normalized_row at 1.
  assert (Hc : cell_at (delete "__year" (normalized_row company_col r))
                       company_col
               = CStr (normalize_company_id1 (cell_at r company_col))).
  { unfold cell_at at 1. rewrite lookup_delete_ne by done.
    apply cell_at_normalized_row. }
  rewrite Hc, (keep_stable _ Hk).
  apply insert_id. rewrite lookup_delete_ne by done.
  unfold normalized_row. by rewrite lookup_insert_eq.
Qed.

End Again.

(** C3, amended.  Applied to its own output with the same retained set
    and target years, [filter_for_companies_and_years] returns that
    output again, provided that every identifier of the retained set is
    left as it is by the normalisation, that the company column and a
    year column in use are not the working column "__year", and that the
    flexible parser reads each value by itself. *)
Theorem filter_twice (df : DataFrame) (company_col : string)
    (year_col : option string) (keep_companies : gset cell)
    (target_years : gset Z) (out : DataFrame) :
  (forall s, CStr s ∈ keep_companies -> normalize_company_id1 (CStr s) = s) ->
  (forall y, truthy year_col = Some y ->
             y ≠ "__year" /\ company_col ≠ "__year") ->
  filter_for_companies_and_years df company_col year_col keep_companies
                                 target_years = Ok out ->
  filter_for_companies_and_years out company_col year_col keep_companies
                                 target_years = Ok out.
Proof.
  intros Hstable Hwork Hout.
  destruct (filter_Ok_columns _ _ _ _ _ _ Hout) as [Hc Hyc].
  destruct (truthy year_col) as [y|] eqn:Hy.
  - destruct (truthy_Some _ _ Hy) as [-> Hne].
    destruct (Hwork y eq_refl) as [Hy_work Hc_work].
    specialize (Hyc y eq_refl).
    rewrite filter_rowwise_year in Hout by done.
    injection Hout as <-.
    set (yr1 := year_by p (year_values df company_col y)).
    set (rows1 := omap (row_out company_col (Some y) keep_companies
                                target_years yr1) (rows df)).
    set (out := mkDF (filter (fun x => x ≠ "__year") (columns df)) rows1).
    assert (Hin : forall c, c ≠ "__year" -> c ∈ columns df ->
                            c ∈ columns out).
    { intros c ? ?. by apply list_elem_of_filter. }
    rewrite filter_rowwise_year by auto. f_equal. unfold out at 3.
    cbn [columns rows]. f_equal.
    { unfold out. cbn [columns]. rewrite list_filter_filter.
      apply list_filter_iff. tauto. }
    assert (Hshape : forall r', r' ∈ rows1 -> exists r,
               r ∈ rows df
               /\ r' = delete "__year" (normalized_row company_col r)
               /\ cell_at (normalized_row company_col r) company_col
                  ∈ keep_companies
               /\ isin_years target_years
                    (yr1 (cell_at (normalized_row company_col r) y)) = true).
    { intros r' (r & Hr & Hrow)%list_elem_of_omap. exists r.
      split; [done|]. unfold row_out in Hrow. cbn zeta in Hrow.
      destruct (bool_decide _) eqn:Hk; [|done].
      destruct (isin_years _ _) eqn:Hyr; [|done].
      simpl in Hrow. injection Hrow as <-.
      by apply bool_decide_eq_true in Hk. }
    assert (Hvals : forall w, w ∈ year_values out company_col y ->
                              w ∈ year_values df company_col y).
    { unfold year_values. intros w (r' & -> & Hr')%list_elem_of_fmap.
      destruct (Hshape r' Hr') as (r & Hr & -> & Hk & _).
      rewrite (normalized_row_again_delete _ keep_companies Hstable) by done.
      apply list_elem_of_fmap. exists r. split; [|done].
      unfold cell_at. by rewrite lookup_delete_ne. }
    apply omap_fixed. intros r' Hr'.
    destruct (Hshape r' Hr') as (r & Hr & -> & Hk & Hyr).
    unfold row_out. cbn zeta.
    rewrite (normalized_row_again_delete _ keep_companies Hstable) by done.
    assert (Hcell : forall c, c ≠ "__year" ->
               cell_at (delete "__year" (normalized_row company_col r)) c
               = cell_at (normalized_row company_col r) c).
    { intros c ?. unfold cell_at. by rewrite lookup_delete_ne. }
    rewrite !Hcell by done.
    rewrite bool_decide_eq_true_2 by done.
    destruct (yr1 (cell_at (normalized_row company_col r) y)) as [yy|] eqn:E;
      [|done].
    rewrite (year_by_part (year_values df company_col y) _ _ yy Hvals).
    + simpl in Hyr. simpl. rewrite Hyr. simpl.
      f_equal. apply delete_id. apply lookup_delete_eq.
    + unfold year_values. apply list_elem_of_fmap.
      exists (delete "__year" (normalized_row company_col r)).
      split; [|done].
      rewrite (normalized_row_again_delete _ keep_companies Hstable) by done.
      by rewrite Hcell.
    + exact E.
  - rewrite (filter_rowwise_no_year df) in Hout by done.
    injection Hout as <-.
    rewrite filter_rowwise_no_year by done. f_equal. cbn [columns rows].
    f_equal. apply omap_fixed. intros r' (r & Hr & Hrow)%list_elem_of_omap.
    unfold row_out in Hrow. cbn zeta in Hrow.
    destruct (bool_decide _) eqn:Hk; [|done].
    injection Hrow as <-. apply bool_decide_eq_true in Hk.
    unfold row_out. cbn zeta.
    rewrite (normalized_row_again _ keep_companies Hstable) by done.
    by rewrite bool_decide_eq_true_2.
Qed.

End FilterTwice.


(** ** The caller's table is left as it was *)

Module InPlaceFacts.

Lemma fresh_ne (h : InPlace.heap) (l : InPlace.ref) (d : DataFrame) :
  h !! l = Some d -> l ≠ fresh (dom h).
Proof.
  intros Hl ->. apply (is_fresh (dom h)). apply elem_of_dom. by eexists.
Qed.

Lemma fresh_None (h : InPlace.heap) : h !! fresh (dom h) = None.
Proof. apply not_elem_of_dom. apply is_fresh. Qed.

Lemma preserved_refl h : InPlace.preserved h h.
Proof. by intros l d. Qed.

Lemma preserved_alloc h h' d :
  InPlace.preserved h h' -> InPlace.preserved h (<[fresh (dom h') := d]> h').
Proof.
  intros Hp l d' Hl. rewrite lookup_insert_ne; [by apply Hp|].
  intros <-. apply Hp in Hl. by rewrite fresh_None in Hl.
Qed.

Lemma preserved_fresh h h' :
  InPlace.preserved h h' -> h !! fresh (dom h') = None.
Proof.
  intros Hp. destruct (h !! fresh (dom h')) as [d|] eqn:Hd; [|done].
  apply Hp in Hd. by rewrite fresh_None in Hd.
Qed.

Lemma preserved_write h h' l d :
  h !! l = None -> InPlace.preserved h h' ->
  InPlace.preserved h (<[l := d]> h').
Proof.
  intros Hnone Hp l' d' Hl. rewrite lookup_insert_ne; [by apply Hp|].
  intros <-. by rewrite Hnone in Hl.
Qed.

Lemma bind_Ok {A B} (m : InPlace.M A) (k : A -> InPlace.M B) h h' a :
  m h = (h', Ok a) -> InPlace.bind m k h = k a h'.
Proof. intros Hm. unfold InPlace.bind. by rewrite Hm. Qed.

Lemma bind_Err {A B} (m : InPlace.M A) (k : A -> InPlace.M B) h h' e :
  m h = (h', Err e) -> InPlace.bind m k h = (h', Err e).
Proof. intros Hm. unfold InPlace.bind. by rewrite Hm. Qed.

Lemma read_run (h : InPlace.heap) l d :
  h !! l = Some d -> InPlace.read l h = (h, Ok d).
Proof. intros Hl. unfold InPlace.read. by rewrite Hl. Qed.

Lemma copy_run (h : InPlace.heap) l d :
  h !! l = Some d ->
  InPlace.copy l h = (<[fresh (dom h) := d]> h, Ok (fresh (dom h))).
Proof.
  intros Hl. unfold InPlace.copy.
  by rewrite (bind_Ok _ _ _ _ _ (read_run _ _ _ Hl)).
Qed.

Lemma getitem_run (h : InPlace.heap) l d c :
  h !! l = Some d -> InPlace.getitem l c h = (h, getcol d c).
Proof.
  intros Hl. unfold InPlace.getitem.
  by rewrite (bind_Ok _ _ _ _ _ (read_run _ _ _ Hl)).
Qed.

Lemma setitem_run (h : InPlace.heap) l d c series :
  h !! l = Some d ->
  InPlace.setitem l c series h = (<[l := setcol d c series]> h, Ok tt).
Proof.
  intros Hl. unfold InPlace.setitem.
  by rewrite (bind_Ok _ _ _ _ _ (read_run _ _ _ Hl)).
Qed.

Section Functions.
Context `{Pandas}.

Lemma normalize_year_run (h : InPlace.heap) l d c :
  h !! l = Some d -> InPlace.normalize_year l c h = (h, normalize_year d c).
Proof.
  intros Hl. unfold InPlace.normalize_year.
  by rewrite (bind_Ok _ _ _ _ _ (read_run _ _ _ Hl)).
Qed.

Lemma companies_with_full_years_run (h : InPlace.heap) (df : InPlace.ref)
    (t : DataFrame) company_col year_col target_years min_years :
  h !! df = Some t ->
  exists h',
    InPlace.companies_with_full_years df company_col year_col target_years
                                      min_years h
    = (h', companies_with_full_years t company_col year_col target_years
                                     min_years)
    /\ InPlace.preserved h h'.
Proof.
  intros Hdf.
  unfold InPlace.companies_with_full_years, companies_with_full_years.
  rewrite (bind_Ok _ _ _ _ _ (copy_run _ _ _ Hdf)).
  set (l1 := fresh (dom h)).
  assert (Hl1 : h !! l1 = None) by apply fresh_None.
  assert (Hp1 : InPlace.preserved h (<[l1 := t]> h))
    by apply preserved_alloc, preserved_refl.
  pose proof (getitem_run (<[l1 := t]> h) l1 t company_col
                          (lookup_insert_eq _ _ _)) as Hget.
  destruct (getcol t company_col) as [col|e] eqn:Hcol; cbn [res_bind].
  2:{ rewrite (bind_Err _ _ _ _ _ Hget). eauto. }
  rewrite (bind_Ok _ _ _ _ _ Hget).
  rewrite (bind_Ok _ _ _ _ _
             (setitem_run _ l1 t company_col _ (lookup_insert_eq _ _ _))).
  rewrite insert_insert_eq.
  set (t1 := setcol t company_col (normalize_company_id col)).
  assert (Hp2 : InPlace.preserved h (<[l1 := t1]> h))
    by (apply preserved_write; [done|apply preserved_refl]).
  destruct year_col as [yc|].
  - pose proof (normalize_year_run (<[l1 := t1]> h) l1 t1 yc
                                   (lookup_insert_eq _ _ _)) as Hyr.
    destruct (normalize_year t1 yc) as [years|e]; cbn [res_bind].
    2:{ rewrite (bind_Err _ _ _ _ _ Hyr). eauto. }
    rewrite (bind_Ok _ _ _ _ _ Hyr).
    rewrite (bind_Ok _ _ _ _ _
               (setitem_run _ l1 t1 "__year" _ (lookup_insert_eq _ _ _))).
    rewrite insert_insert_eq.
    rewrite (bind_Ok _ _ _ _ _ (read_run _ l1 _ (lookup_insert_eq _ _ _))).
    unfold InPlace.alloc at 1.
    erewrite bind_Ok by reflexivity.
    rewrite (bind_Ok _ _ _ _ _ (read_run _ _ _ (lookup_insert_eq _ _ _))).
    unfold InPlace.ret. eexists. split; [done|].
    apply preserved_alloc. apply preserved_write; [done|apply preserved_refl].
  - pose proof (getitem_run (<[l1 := t1]> h) l1 t1 company_col
                            (lookup_insert_eq _ _ _)) as Hget1.
    unfold getcol in Hcol. case_decide; [|done].
    rewrite getcol_Ok in Hget1 by (by apply elem_of_columns_setcol).
    rewrite (bind_Ok _ _ _ _ _ Hget1).
    unfold InPlace.ret. eauto.
Qed.

Lemma filter_for_companies_and_years_run (h : InPlace.heap)
    (df : InPlace.ref) (t : DataFrame) company_col year_col keep_companies
    target_years :
  h !! df = Some t ->
  exists h',
    InPlace.preserved h h'
    /\ match filter_for_companies_and_years t company_col year_col
               keep_companies target_years with
       | Ok out =>
           exists l,
             InPlace.filter_for_companies_and_years
               df company_col year_col keep_companies target_years h
             = (h', Ok l)
             /\ h !! l = None /\ h' !! l = Some out
       | Err e =>
           InPlace.filter_for_companies_and_years
             df company_col year_col keep_companies target_years h
           = (h', Err e)
       end.
Proof.
  intros Hdf.
  unfold InPlace.filter_for_companies_and_years,
    filter_for_companies_and_years.
  rewrite (bind_Ok _ _ _ _ _ (copy_run _ _ _ Hdf)).
  set (l1 := fresh (dom h)).
  assert (Hl1 : h !! l1 = None) by apply fresh_None.
  assert (Hp1 : InPlace.preserved h (<[l1 := t]> h))
    by apply preserved_alloc, preserved_refl.
  pose proof (getitem_run (<[l1 := t]> h) l1 t company_col
                          (lookup_insert_eq _ _ _)) as Hget.
  destruct (getcol t company_col) as [col|e] eqn:Hcol; cbn [res_bind].
  2:{ rewrite (bind_Err _ _ _ _ _ Hget). eauto. }
  rewrite (bind_Ok _ _ _ _ _ Hget).
  rewrite (bind_Ok _ _ _ _ _
             (setitem_run _ l1 t company_col _ (lookup_insert_eq _ _ _))).
  rewrite insert_insert_eq.
  set (t1 := setcol t company_col (normalize_company_id col)).
  assert (Hp2 : InPlace.preserved h (<[l1 := t1]> h))
    by (apply preserved_write; [done|apply preserved_refl]).
  pose proof (getitem_run (<[l1 := t1]> h) l1 t1 company_col
                          (lookup_insert_eq _ _ _)) as Hget1.
  unfold getcol in Hcol. case_decide; [|done].
  rewrite getcol_Ok in Hget1 by (by apply elem_of_columns_setcol).
  rewrite (bind_Ok _ _ _ _ _ Hget1).
  destruct (truthy year_col) as [yc|].
  - pose proof (normalize_year_run (<[l1 := t1]> h) l1 t1 yc
                                   (lookup_insert_eq _ _ _)) as Hyr.
    destruct (normalize_year t1 yc) as [years|e]; cbn [res_bind].
    2:{ rewrite (bind_Err _ _ _ _ _ Hyr). eauto. }
    rewrite (bind_Ok _ _ _ _ _ Hyr).
    rewrite (bind_Ok _ _ _ _ _
               (setitem_run _ l1 t1 "__year" _ (lookup_insert_eq _ _ _))).
    rewrite insert_insert_eq.
    rewrite (bind_Ok _ _ _ _ _ (read_run _ l1 _ (lookup_insert_eq _ _ _))).
    unfold InPlace.alloc at 1.
    erewrite bind_Ok by reflexivity.
    rewrite (bind_Ok _ _ _ _ _ (read_run _ _ _ (lookup_insert_eq _ _ _))).
    unfold InPlace.alloc.
    eexists. split; [|eexists; split; [done|split]].
    + do 2 apply preserved_alloc.
      apply preserved_write; [done|apply preserved_refl].
    + apply preserved_fresh. apply preserved_alloc.
      apply preserved_write; [done|apply preserved_refl].
    + by rewrite lookup_insert_eq.
  - rewrite (bind_Ok _ _ _ _ _ (read_run _ l1 _ (lookup_insert_eq _ _ _))).
    unfold InPlace.alloc.
    eexists. split; [|eexists; split; [done|split]].
    + by apply preserved_alloc.
    + by apply preserved_fresh.
    + by rewrite lookup_insert_eq.
Qed.

(** C10.  Both functions work on a copy.  Whatever they return or
    raise, the store holds the caller's table, and every other table it
    held, unchanged afterwards; the results are those of the functions
    read as pure functions of the table, and the filter returns a new
    object. *)
Theorem callers_table_unchanged (h : InPlace.heap) (df : InPlace.ref)
    (t : DataFrame) (company_col : string) (year_col : option string)
    (keep_companies : gset cell) (target_years : gset Z) (min_years : Z) :
  h !! df = Some t ->
  (let run := InPlace.companies_with_full_years
                df company_col year_col target_years min_years h in
   run.1 !! df = Some t
   /\ InPlace.preserved h run.1
   /\ run.2 = companies_with_full_years t company_col year_col target_years
                                        min_years)
  /\ (let run := InPlace.filter_for_companies_and_years
                   df company_col year_col keep_companies target_years h in
      run.1 !! df = Some t
      /\ InPlace.preserved h run.1
      /\ match run.2 with
         | Ok l =>
             l ≠ df
             /\ h !! l = None
             /\ Ok <$> run.1 !! l
                = Some (filter_for_companies_and_years
                          t company_col year_col keep_companies target_years)
         | Err e =>
             filter_for_companies_and_years
               t company_col year_col keep_companies target_years = Err e
         end).
Proof.
  intros Hdf. split.
  - destruct (companies_with_full_years_run h df t company_col year_col
                target_years min_years Hdf) as (h' & -> & Hp).
    cbn zeta. simpl. split; [by apply Hp|done].
  - destruct (filter_for_companies_and_years_run h df t company_col year_col
                keep_companies target_years Hdf) as (h' & Hp & Hrun).
    destruct (filter_for_companies_and_years t _ _ _ _) as [out|e].
    + destruct Hrun as (l & -> & Hnew & Hl). cbn zeta. simpl.
      split; [by apply Hp|]. split; [done|]. split; [|split; [done|]].
      * intros ->. by rewrite Hdf in Hnew.
      * by rewrite Hl.
    + rewrite Hrun. cbn zeta. simpl. split; [by apply Hp|done].
Qed.

End Functions.

End InPlaceFacts.

(** ** The run that retains no company *)

Section ProcessFacts.
Context `{Pandas}.
Variable read_input : DatasetConfig -> res (Path * DataFrame).
Variables (target_years : gset Z) (min_years : Z)
          (include_consolidated : bool).

Lemma dict_set_keys_new {V} (k : string) (v : V) (d : list (string * V)) :
  k ∉ d.*1 -> (dict_set k v d).*1 = (d.*1 ++ [k])%list.
Proof.
  induction d as [|[k' v'] d IH]; [done|].
  intros Hk. apply not_elem_of_cons in Hk as [Hne Hk].
  cbn [dict_set]. rewrite decide_False by done.
  cbn [fmap list_fmap fst app]. f_equal. by apply IH.
Qed.

Lemma dict_set_Forall2 {V W} (R : string * V -> string * W -> Prop)
    (k : string) (v : V) (w : W) (d : list (string * V))
    (e : list (string * W)) :
  (forall x y, R x y -> x.1 = y.1) ->
  R (k, v) (k, w) ->
  Forall2 R d e -> Forall2 R (dict_set k v d) (dict_set k w e).
Proof.
  intros Hkey Hnew. induction 1 as [|[k1 v1] [k2 w2] d e HR Hde IH].
  - by repeat constructor.
  - pose proof (Hkey _ _ HR) as Hk. simpl in Hk. subst k2.
    cbn [dict_set]. case_decide; by constructor.
Qed.

Lemma load_dataset_recorded cfg l m :
  load_dataset read_input cfg target_years min_years include_consolidated
  = Ok (l, m) ->
  recorded target_years min_years (key cfg, l) (key cfg, m).
Proof.
  unfold load_dataset. intros Hload.
  destruct (read_input cfg) as [found|]; [|done]. cbn [res_bind] in Hload.
  destruct (apply_row_filter _ _ _) as [df1|]; [|done].
  cbn [res_bind] in Hload.
  destruct (filter_year_end _ _) as [df|]; [|done]. cbn [res_bind] in Hload.
  destruct (pick_first_existing df (company_cols cfg)) as [cc|]; [|done].
  cbn [res_bind] in Hload.
  destruct (match date_cols cfg with [] => _ | _ => _ end) as [yc|]; [|done].
  cbn [res_bind] in Hload.
  destruct (companies_with_full_years _ _ _ _ _) as [cov|] eqn:Hcov; [|done].
  cbn [res_bind] in Hload.
  destruct (match truthy yc with Some _ => _ | None => _ end) as [yp|];
    [|done].
  cbn [res_bind] in Hload. injection Hload as <- <-.
  by repeat split.
Qed.

Lemma load_datasets_recorded cfgs loaded metadata loaded' metadata' :
  Forall2 (recorded target_years min_years) loaded metadata ->
  load_datasets read_input cfgs target_years min_years include_consolidated
                loaded metadata = Ok (loaded', metadata') ->
  Forall2 (recorded target_years min_years) loaded' metadata'.
Proof.
  revert loaded metadata. induction cfgs as [|cfg cfgs IH];
    intros loaded metadata Hrec Hload; cbn [load_datasets] in Hload.
  - by injection Hload as <- <-.
  - destruct (load_dataset _ _ _ _ _) as [[l m]|] eqn:Hone; [|done].
    cbn [res_bind] in Hload. apply IH in Hload; [done|].
    apply dict_set_Forall2; [by intros ? ? [? _]| |done].
    by apply load_dataset_recorded.
Qed.



End ProcessFacts.

(** ** The spine *)

Section KeepFirst.
Context {A K : Type} `{EqDecision K}.
Variable f : A -> K.

Lemma elem_of_keep_first seen l x :
  x ∈ keep_first f seen l -> x ∈ l /\ f x ∉ seen.
Proof.
  revert seen. induction l as [|y l IH]; intros seen; cbn [keep_first].
  - by intros ?%elem_of_nil.
  - case_decide as Hy.
    + intros [? ?]%IH. split; [by right|done].
    + intros [->|Hx]%elem_of_cons; [split; [left|done]|].
      apply IH in Hx as [? Hseen]. split; [by right|].
      intros ?. apply Hseen. by right.
Qed.

Lemma keep_first_covers seen l x :
  x ∈ l -> f x ∉ seen ->
  exists x', x' ∈ keep_first f seen l /\ f x' = f x.
Proof.
  revert seen. induction l as [|y l IH]; intros seen;
    [by intros ?%elem_of_nil|].
  cbn [keep_first]. intros [->|Hx]%elem_of_cons Hseen.
  - rewrite decide_False by done. exists y. split; [left|done].
  - case_decide as Hy; [by apply IH|].
    destruct (decide (f x = f y)) as [Heq|Hne].
    + exists y. split; [left|done].
    + destruct (IH (f y :: seen) Hx) as (x' & Hx' & Hfx').
      { by intros [?|?]%elem_of_cons. }
      exists x'. split; [by right|done].
Qed.

Lemma keep_first_NoDup seen l : NoDup (f <$> keep_first f seen l).
Proof.
  revert seen. induction l as [|y l IH]; intros seen; cbn [keep_first].
  - constructor.
  - case_decide as Hy; [apply IH|].
    cbn [fmap list_fmap]. constructor; [|apply IH].
    intros (x & Hfx & Hx)%list_elem_of_fmap.
    apply elem_of_keep_first in Hx as [_ Hseen].
    apply Hseen. rewrite <- Hfx. left.
Qed.

End KeepFirst.

Section Spine.

Lemma list_elem_of_concat {A} (x : A) (ls : list (list A)) :
  x ∈ concat ls <-> exists l, l ∈ ls /\ x ∈ l.
Proof.
  rewrite list_elem_of_In, in_concat. split.
  - intros (l & Hl & Hx). exists l. by rewrite !list_elem_of_In.
  - intros (l & Hl & Hx). exists l. by rewrite <- !list_elem_of_In.
Qed.


Lemma row_key_eq (cols : list string) (a b : gmap string cell) :
  row_key cols a = row_key cols b
  <-> forall c, c ∈ cols -> cell_at a c = cell_at b c.
Proof.
  unfold row_key. induction cols as [|c cols IH]; cbn [fmap list_fmap].
  - split; [by intros _ c ?%elem_of_nil|done].
  - split.
    + intros [= Hc Hcols] c' [->|Hin]%elem_of_cons; [done|].
      by apply IH.
    + intros Hall. f_equal; [apply Hall; left|].
      apply IH. intros c' Hc'. apply Hall. by right.
Qed.

Lemma cell_at_project_row (cols : list string) (r : gmap string cell) c :
  c ∈ cols ->
  cell_at (list_to_map ((fun c => (c, cell_at r c)) <$> cols)
             : gmap string cell) c
  = cell_at r c.
Proof.
  intros Hc. unfold cell_at at 1.
  induction cols as [|c' cols IH]; [by apply elem_of_nil in Hc|].
  cbn [fmap list_fmap list_to_map foldr].
  destruct (decide (c' = c)) as [->|Hne].
  - by rewrite lookup_insert_eq.
  - rewrite lookup_insert_ne by done. apply IH.
    by apply elem_of_cons in Hc as [->|?].
Qed.

Lemma row_key_project_row (cols : list string) (r : gmap string cell) :
  row_key cols (list_to_map ((fun c => (c, cell_at r c)) <$> cols))
  = row_key cols r.
Proof.
  apply row_key_eq. intros c Hc. by apply cell_at_project_row.
Qed.


Lemma build_spine_parts_Ok dfs key_cols :
  (forall df, df ∈ dfs -> forall c, c ∈ key_cols -> c ∈ columns df) ->
  build_spine_parts dfs key_cols
  = Ok ((fun df => drop_duplicates (project df key_cols)) <$> dfs).
Proof.
  induction dfs as [|df dfs IH]; intros Hcols; [done|].
  cbn [build_spine_parts]. rewrite decide_True.
  - rewrite IH; [done|]. intros df' Hdf'. apply Hcols. by right.
  - apply Forall_forall. intros c Hc. apply (Hcols df); [left|done].
Qed.

Lemma concat_columns_parts (parts : list DataFrame) key_cols c :
  parts ≠ [] ->
  (forall part, part ∈ parts -> columns part = key_cols) ->
  c ∈ keep_first id [] (concat (columns <$> parts)) <-> c ∈ key_cols.
Proof.
  intros Hne Hcols. split.
  - intros [Hc _]%elem_of_keep_first.
    apply list_elem_of_concat in Hc as (cs & Hcs & Hc).
    apply list_elem_of_fmap in Hcs as (part & -> & Hpart).
    by rewrite (Hcols part Hpart) in Hc.
  - intros Hc. destruct parts as [|part parts]; [done|].
    destruct (keep_first_covers id [] (concat (columns <$> part :: parts)) c)
      as (c' & Hc' & Heq).
    + cbn [fmap list_fmap concat]. apply elem_of_app. left.
      rewrite (Hcols part) by left. done.
    + by intros ?%elem_of_nil.
    + simpl in Heq. by subst c'.
Qed.


End Spine.

(** ** The row count of the merge *)

Section MergeCount.









End MergeCount.

(** ** The merge completes *)

Section Labels.

Lemma string_app_inj (p x y : string) : p ++ x = p ++ y -> x = y.
Proof. induction p as [|a p IH]; simpl; [done|]. intros [=]. auto. Qed.

Lemma key_label_not_prefixed (k : source) (x c : string) :
  c ∈ ["Symbol"; "Date"] -> c ≠ source_name k ++ "_" ++ x.
Proof.
  intros Hc Heq. subst c.
  apply elem_of_cons in Hc as [Hc|Hc];
    [|apply list_elem_of_singleton in Hc];
    destruct k; simpl in Hc; discriminate Hc.
Qed.

Lemma source_prefix_inj (k k' : source) (x y : string) :
  source_name k ++ "_" ++ x = source_name k' ++ "_" ++ y -> k = k'.
Proof.
  destruct k, k'; simpl; intros Heq; try done; exfalso;
    repeat (injection Heq as ? Heq; try discriminate); try discriminate.
Qed.

Lemma join_labels_key (k : source) c :
  c ∈ join_labels k -> c ∈ ["Symbol"; "Date"].
Proof.
  unfold join_labels. destruct (truthy (date_map k)); [done|].
  intros ->%list_elem_of_singleton. left.
Qed.

Lemma join_labels_cases (k : source) c :
  c ∈ join_labels k -> c = "Symbol" \/ c = "Date".
Proof.
  intros Hc%join_labels_key.
  apply elem_of_cons in Hc as [->|Hc]; [by left|].
  apply list_elem_of_singleton in Hc as ->. by right.
Qed.

Lemma Symbol_join_label (k : source) : "Symbol" ∈ join_labels k.
Proof. unfold join_labels. destruct (truthy (date_map k)); left. Qed.

Lemma prefix_label_inj (k : source) :
  Inj (=) (=) (prefix_label k (join_labels k)).
Proof.
  intros c1 c2. unfold prefix_label.
  destruct (decide (c1 ∈ join_labels k)) as [H1|H1],
           (decide (c2 ∈ join_labels k)) as [H2|H2]; try done.
  - intros ->. by apply join_labels_key, (key_label_not_prefixed k c2) in H1.
  - intros <-. by apply join_labels_key, (key_label_not_prefixed k c1) in H2.
  - intros Heq. apply string_app_inj in Heq. by apply string_app_inj in Heq.
Qed.

Lemma unique_label_NoDup (c : string) (cols : list string) :
  NoDup cols -> c ∈ cols -> unique_label c cols.
Proof.
  unfold unique_label. induction cols as [|c' cols IH];
    [by intros _ ?%elem_of_nil|].
  intros [Hc' Hnd]%NoDup_cons Hc.
  destruct (decide (c' = c)) as [->|Hne].
  - rewrite filter_cons_True by done. cbn [length]. f_equal.
    destruct (filter (fun x => x = c) cols) as [|y ys] eqn:Hf; [done|].
    assert (Hy : y ∈ filter (fun x => x = c) cols) by (rewrite Hf; left).
    apply list_elem_of_filter in Hy as [-> Hy]. done.
  - rewrite filter_cons_False by done. apply IH; [done|].
    by apply elem_of_cons in Hc as [->|?].
Qed.

End Labels.

Section MergeCompletes.

Lemma no_overlap merged ks k right c :
  merged_labels merged ks -> prepared_labels k right -> k ∉ ks ->
  c ∈ columns merged -> c ∈ columns right -> c ∈ join_labels k.
Proof.
  intros (_ & _ & _ & Hown) (_ & _ & Hright) Hk Hl Hr.
  destruct (Hright c Hr) as [?|[x ->]]; [done|]. exfalso.
  destruct (Hown _ Hl) as [Hc|[Hc|(k' & x' & Hk' & Hc)]].
  - apply (key_label_not_prefixed k x "Symbol"); [left|done].
  - apply (key_label_not_prefixed k x "Date"); [right; left|done].
  - apply source_prefix_inj in Hc. by subst k'.
Qed.

Lemma merge_left_step merged ks k right :
  merged_labels merged ks -> prepared_labels k right -> k ∉ ks ->
  exists merged',
    merge_left merged right (join_labels k) = Ok merged'
    /\ merged_labels merged' (k :: ks).
Proof.
  intros Hm Hp Hk.
  pose proof (no_overlap merged ks k right) as Hno.
  destruct Hm as (Hnd & Hsym & Hdate & Hown).
  destruct Hp as (Hndr & Hon & Hright).
  assert (Hmerged : merged_labels merged ks) by done.
  assert (Hprep : prepared_labels k right) by done.
  unfold merge_left.
  rewrite decide_True.
  2:{ apply Forall_forall. intros c Hc. split; [|by apply Hon].
      by destruct (join_labels_cases k c Hc) as [->| ->]. }
  rewrite decide_True.
  2:{ apply Forall_forall. intros c Hc.
      split; apply unique_label_NoDup; try done; [|by apply Hon].
      by destruct (join_labels_cases k c Hc) as [->| ->]. }
  assert (Hov : filter (fun c => c ∈ columns right ∧ c ∉ join_labels k)
                       (columns merged) = []).
  { destruct (filter _ (columns merged)) as [|c cs] eqn:Hf; [done|].
    assert (Hc : c ∈ filter
                       (fun c => c ∈ columns right ∧ c ∉ join_labels k)
                       (columns merged)) by (rewrite Hf; left).
    apply list_elem_of_filter in Hc as [[Hr Hnot] Hl].
    exfalso. apply Hnot. by apply (Hno c). }
  rewrite Hov.
  assert (Hid : forall sfx (l : list string),
             suffix_label [] sfx <$> l = l).
  { intros sfx l. rewrite <- (list_fmap_id l) at 2.
    apply list_fmap_ext. intros _ c _. unfold suffix_label.
    rewrite decide_False; [done|]. by intros ?%elem_of_nil. }
  cbn zeta. rewrite !Hid.
  set (rcols := filter (fun c => c ∉ join_labels k) (columns right)).
  assert (Hrc : forall c, c ∈ rcols ->
                          c ∈ columns right /\ c ∉ join_labels k).
  { intros c Hc. unfold rcols in Hc.
    apply list_elem_of_filter in Hc. tauto. }
  rewrite decide_True.
  2:{ apply NoDup_app. split; [done|]. split.
      - intros c Hl Hr. apply Hrc in Hr as [Hr Hnot].
        apply Hnot. by apply (Hno c).
      - by apply NoDup_filter. }
  eexists. split; [done|]. cbn [columns]. split; [|split; [|split]].
  - apply NoDup_app. split; [done|]. split.
    + intros c Hl Hr. apply Hrc in Hr as [Hr Hnot].
      apply Hnot. by apply (Hno c).
    + by apply NoDup_filter.
  - apply elem_of_app. by left.
  - apply elem_of_app. by left.
  - intros c [Hl|Hr]%elem_of_app.
    + destruct (Hown c Hl) as [?|[?|(k' & x & Hk' & ->)]];
        [by left|by right; left|].
      right; right. exists k', x. split; [by right|done].
    + apply Hrc in Hr as [Hr Hnot].
      destruct (Hright c Hr) as [?|[x ->]]; [done|].
      right; right. exists k, x. split; [left|done].
Qed.

Lemma join_sources_completes merged ks (dfs : list (source * DataFrame)) :
  merged_labels merged ks ->
  NoDup dfs.*1 ->
  (forall k, k ∈ dfs.*1 -> k ∉ ks) ->
  Forall (fun kd => prepared_labels kd.1 (prepare kd.1 kd.2)) dfs ->
  exists merged', join_sources merged dfs = Ok merged'.
Proof.
  revert merged ks. induction dfs as [|[k df] dfs IH];
    intros merged ks Hm Hnd Hnew Hprep; cbn [join_sources]; [eauto|].
  apply Forall_cons in Hprep as [Hp Hprep].
  cbn [fmap list_fmap fst] in Hnd. apply NoDup_cons in Hnd as [Hk Hnd].
  destruct (merge_left_step merged ks k (prepare k df) Hm Hp)
    as (m1 & -> & Hm1).
  { apply Hnew. left. }
  cbn [res_bind]. apply (IH m1 (k :: ks)); try done.
  intros k' Hk' [->|Hin]%elem_of_cons; [done|].
  apply (Hnew k'); [by right|done].
Qed.

End MergeCompletes.

Section Sources.

Lemma truthy_date_map (k : source) : truthy (date_map k) = date_map k.
Proof. by destruct k. Qed.

Lemma date_map_not_key (k : source) declared c :
  date_map k = Some declared -> c ∈ declared :: fallbacks ->
  c ≠ "Symbol" /\ c ≠ "Date".
Proof.
  intros Hk Hc.
  assert (Hall : c ∈ "Accper" :: "EndDate" :: fallbacks).
  { apply elem_of_cons in Hc as [->|Hc]; [|by do 2 right].
    destruct k; simplify_eq/=; set_solver. }
  clear Hk Hc. unfold fallbacks in Hall.
  repeat (apply elem_of_cons in Hall as [->|Hall]; [done|]).
  by apply elem_of_nil in Hall.
Qed.

Lemma first_fallback_spec df names current :
  (exists f, f ∈ names /\ f ∈ columns df) ->
  first_fallback df names current ∈ names
  /\ first_fallback df names current ∈ columns df.
Proof.
  induction names as [|n names IH]; intros (f & Hf & Hin);
    [by apply elem_of_nil in Hf|].
  cbn [first_fallback]. case_decide as Hn; [split; [left|done]|].
  destruct IH as [H1 H2].
  - exists f. split; [|done].
    by apply elem_of_cons in Hf as [->|?].
  - split; [by right|done].
Qed.

Lemma resolve_date_col_spec df declared :
  (declared ∈ columns df \/ exists f, f ∈ fallbacks /\ f ∈ columns df) ->
  resolve_date_col df declared ∈ declared :: fallbacks
  /\ resolve_date_col df declared ∈ columns df.
Proof.
  intros Hhas. unfold resolve_date_col. case_decide as Hd.
  - split; [left|done].
  - destruct Hhas as [?|Hf]; [done|].
    destruct (first_fallback_spec df fallbacks declared Hf) as [H1 H2].
    split; [by right|done].
Qed.

Lemma elem_of_columns_setcol_iff df c c' series :
  c' ∈ columns (setcol df c series) <-> c' ∈ columns df \/ c' = c.
Proof.
  cbn [columns setcol]. case_decide as Hc.
  - split; [by left|]. by intros [?| ->].
  - rewrite elem_of_app, list_elem_of_singleton. done.
Qed.

Lemma NoDup_columns_setcol df c series :
  NoDup (columns df) -> NoDup (columns (setcol df c series)).
Proof.
  intros Hnd. cbn [columns setcol]. case_decide as Hc; [done|].
  apply NoDup_app. split; [done|]. split; [|apply NoDup_singleton].
  intros x Hx Hs. apply list_elem_of_singleton in Hs. by subst x.
Qed.

Lemma columns_add_symbol df c :
  c ∈ columns (add_symbol df) <-> c ∈ columns df \/
    (c = "Symbol" /\ has_company_col df).
Proof.
  unfold add_symbol, has_company_col.
  destruct (decide ("Stkcd" ∈ columns df)) as [Hs|Hs];
    [|destruct (decide ("Symbol" ∈ columns df)) as [Hy|Hy]].
  - rewrite elem_of_columns_setcol_iff. split.
    + intros [?| ->]; [by left|right; split; [done|by left]].
    + intros [?|[-> _]]; [by left|by right].
  - rewrite elem_of_columns_setcol_iff. split.
    + intros [?| ->]; [by left|right; split; [done|by right]].
    + intros [?|[-> _]]; [by left|by right].
  - split; [by left|]. by intros [?|[_ [?|?]]].
Qed.

Lemma NoDup_columns_add_symbol df :
  NoDup (columns df) -> NoDup (columns (add_symbol df)).
Proof.
  intros Hnd. unfold add_symbol.
  repeat case_decide; try done; by apply NoDup_columns_setcol.
Qed.

Lemma add_symbol_ready kd :
  well_formed_source kd -> ready (prod_map id add_symbol kd).
Proof.
  destruct kd as [k df]. intros (Hnd & Hco & Hdate).
  unfold ready. cbn [prod_map fst snd id] in *.
  split; [by apply NoDup_columns_add_symbol|]. split.
  { apply columns_add_symbol. right. done. }
  unfold has_date_col in *. destruct (date_map k) as [declared|] eqn:Hk;
    [|done].
  destruct Hdate as [Hhas Hno]. split.
  - destruct Hhas as [Hd|(f & Hf & Hin)].
    + left. apply columns_add_symbol. by left.
    + right. exists f. split; [done|]. apply columns_add_symbol. by left.
  - intros [?|[? _]]%columns_add_symbol; done.
Qed.

Lemma rename_present df old new :
  old ∈ columns df ->
  rename df old new
  = mkDF (rename_label old new <$> columns df)
         ((fun r : gmap string cell =>
             match r !! old with
             | Some v => <[new := v]> (delete old r)
             | None => delete new r
             end) <$> rows df).
Proof. intros Hin. unfold rename. by rewrite decide_True. Qed.

Lemma rename_label_inj_on (cols : list string) old :
  "Date" ∉ cols ->
  forall x y, x ∈ cols -> y ∈ cols ->
    rename_label old "Date" x = rename_label old "Date" y -> x = y.
Proof.
  intros Hno x y Hx Hy. unfold rename_label.
  repeat case_decide; intros Heq; subst; done.
Qed.

Lemma prepare_labels kd : ready kd -> prepared_labels kd.1 (prepare kd.1 kd.2).
Proof.
  destruct kd as [k df]. intros (Hnd & Hsym & Hdate). cbn [fst snd] in *.
  unfold prepare, prepared_labels, has_date_col in *.
  rewrite truthy_date_map.
  destruct (date_map k) as [declared|] eqn:Hk.
  - destruct Hdate as [Hhas Hno].
    destruct (resolve_date_col_spec df declared Hhas) as [Hres Hin].
    destruct (date_map_not_key k declared _ Hk Hres) as [HnS HnD].
    set (actual := resolve_date_col df declared) in *.
    assert (Hon : join_labels k = ["Symbol"; "Date"]).
    { unfold join_labels. by rewrite truthy_date_map, Hk. }
    rewrite rename_present by done.
    cbn [columns relabel]. split; [|split].
    + apply (NoDup_fmap_2 _ (Inj0 := prefix_label_inj k)).
      apply NoDup_fmap_2_strong; [|done].
      by apply rename_label_inj_on.
    + intros c Hc. rewrite Hon in Hc.
      apply list_elem_of_fmap.
      apply elem_of_cons in Hc as [->|Hc].
      * exists "Symbol". split.
        { unfold prefix_label. rewrite decide_True; [done|].
          rewrite Hon. left. }
        apply list_elem_of_fmap. exists "Symbol". split; [|done].
        unfold rename_label. by rewrite decide_False.
      * apply list_elem_of_singleton in Hc as ->.
        exists "Date". split.
        { unfold prefix_label. rewrite decide_True; [done|].
          rewrite Hon. right; left. }
        apply list_elem_of_fmap. exists actual. split; [|done].
        unfold rename_label. by rewrite decide_True.
    + intros c (c0 & -> & _)%list_elem_of_fmap. unfold prefix_label.
      case_decide; [by left|right; by eexists].
  - assert (Hon : join_labels k = ["Symbol"]).
    { unfold join_labels. by rewrite truthy_date_map, Hk. }
    cbn [columns relabel]. split; [|split].
    + by apply (NoDup_fmap_2 _ (Inj0 := prefix_label_inj k)).
    + intros c Hc. rewrite Hon in Hc.
      apply list_elem_of_singleton in Hc as ->.
      apply list_elem_of_fmap. exists "Symbol". split; [|done].
      unfold prefix_label. rewrite decide_True; [done|]. rewrite Hon. left.
    + intros c (c0 & -> & _)%list_elem_of_fmap. unfold prefix_label.
      case_decide; [by left|right; by eexists].
Qed.

End Sources.

Section Completes.

Lemma spine_source_Ok k df declared :
  ready (k, df) -> date_map k = Some declared ->
  exists s, spine_source df declared = Ok s
            /\ columns s = ["Symbol"; "Date"].
Proof.
  intros (Hnd & Hsym & Hdate) Hk. unfold has_date_col in Hdate.
  cbn [fst snd] in *. rewrite Hk in Hdate. destruct Hdate as [Hhas Hno].
  destruct (resolve_date_col_spec df declared Hhas) as [Hres Hin].
  destruct (date_map_not_key k declared _ Hk Hres) as [HnS HnD].
  unfold spine_source. rewrite decide_True.
  2:{ by repeat constructor. }
  eexists. split; [done|].
  rewrite rename_present by (cbn [columns project]; right; left).
  cbn [columns project fmap list_fmap].
  unfold rename_label. rewrite decide_False by done.
  by rewrite decide_True.
Qed.

Lemma spine_sources_Ok (dfs : list (source * DataFrame)) ks :
  Forall ready dfs ->
  exists srcs, spine_sources dfs ks = Ok srcs
               /\ Forall (fun s => columns s = ["Symbol"; "Date"]) srcs.
Proof.
  intros Hready. induction ks as [|k ks (srcs & IH & Hcols)];
    cbn [spine_sources]; [by exists []|].
  destruct (date_map k) as [declared|] eqn:Hk; [|eauto].
  destruct (list_find (fun kd => kd.1 = k) dfs) as [[i [k' df]]|] eqn:Hfind;
    [|eauto].
  apply list_find_Some in Hfind as (Hi & Hk' & _). cbn [fst] in Hk'.
  subst k'. apply list_elem_of_lookup_2 in Hi.
  pose proof (proj1 (Forall_forall _ _) Hready _ Hi) as Hr.
  destruct (spine_source_Ok k df declared Hr Hk) as (s & -> & Hs).
  cbn [res_bind]. rewrite IH. cbn [res_bind].
  eexists. split; [done|]. by constructor.
Qed.

Lemma build_spine_labels (dfs : list DataFrame) (key_cols : list string) :
  dfs ≠ [] ->
  Forall (fun df => columns df = key_cols) dfs ->
  exists spine, build_spine dfs key_cols = Ok spine
                /\ NoDup (columns spine)
                /\ forall c, c ∈ columns spine <-> c ∈ key_cols.
Proof.
  intros Hne Hcols. unfold build_spine.
  rewrite build_spine_parts_Ok.
  2:{ intros df Hdf c Hc.
      by rewrite (proj1 (Forall_forall _ _) Hcols df Hdf). }
  cbn [res_bind].
  set (parts := (fun df => drop_duplicates (project df key_cols)) <$> dfs).
  assert (Hparts : parts ≠ []) by (by destruct dfs).
  unfold concat_frames. destruct parts as [|p0 ps] eqn:Hp; [done|].
  rewrite <- Hp. cbn [res_bind]. eexists. split; [done|].
  cbn [columns drop_duplicates]. split.
  - rewrite <- (list_fmap_id (keep_first id [] _)). apply keep_first_NoDup.
  - intros c. apply concat_columns_parts; [by rewrite Hp|].
    intros part (df & -> & _)%list_elem_of_fmap. done.
Qed.

Lemma spine_of_labels (dfs : list (source * DataFrame)) :
  Forall well_formed_source dfs ->
  exists spine, spine_of dfs = Ok spine /\ merged_labels spine [].
Proof.
  intros Hwf. unfold spine_of.
  assert (Hready : Forall ready (prod_map id add_symbol <$> dfs)).
  { apply Forall_fmap. eapply Forall_impl; [exact Hwf|].
    intros kd. apply add_symbol_ready. }
  destruct (spine_sources_Ok _ date_map_keys Hready) as (srcs & -> & Hcols).
  cbn [res_bind].
  assert (Hkeys : forall cols : list string,
             NoDup cols ->
             (forall c, c ∈ cols <-> c ∈ ["Symbol"; "Date"]) ->
             NoDup cols /\ "Symbol" ∈ cols /\ "Date" ∈ cols
             /\ forall c, c ∈ cols -> owned [] c).
  { intros cols Hnd Hiff. split; [done|].
    split; [apply Hiff; left|]. split; [apply Hiff; right; left|].
    intros c Hc%Hiff. apply elem_of_cons in Hc as [->|Hc]; [by left|].
    apply list_elem_of_singleton in Hc as ->. right; by left. }
  destruct srcs as [|s srcs].
  - exists empty_spine. split; [done|]. apply Hkeys; [|done].
    apply (bool_decide_unpack _). by vm_compute.
  - destruct (build_spine_labels (s :: srcs) ["Symbol"; "Date"])
      as (spine & -> & Hnd & Hiff); [done|done|].
    exists spine. split; [done|]. by apply Hkeys.
Qed.

Lemma merge_loaded_completes (dfs : list (source * DataFrame)) :
  dfs ≠ [] -> NoDup dfs.*1 -> Forall well_formed_source dfs ->
  exists merged, merge_loaded dfs = Ok merged.
Proof.
  intros Hne Hnd Hwf. unfold merge_loaded.
  destruct dfs as [|kd dfs']; [done|]. set (dfs := kd :: dfs') in *.
  destruct (spine_of_labels dfs Hwf) as (spine & -> & Hlabels).
  cbn [res_bind].
  apply (join_sources_completes spine []); [done| | |].
  - rewrite <- list_fmap_compose.
    assert (Hfst : fst ∘ prod_map id add_symbol <$> dfs = dfs.*1);
      [|by rewrite Hfst].
    apply list_fmap_ext. by intros ? [] ?.
  - intros k _ ?%elem_of_nil. done.
  - apply Forall_fmap. eapply Forall_impl; [exact Hwf|].
    intros kd0 Hkd. apply (prepare_labels (prod_map id add_symbol kd0)).
    by apply add_symbol_ready.
Qed.

Lemma elem_of_load_available avail k df :
  (k, df) ∈ load_available avail <-> avail k = Some df.
Proof.
  unfold load_available. rewrite list_elem_of_omap. split.
  - intros (k' & _ & Hk'). destruct (avail k') as [d|] eqn:Hd; [|done].
    by simplify_eq/=.
  - intros Hk. exists k. split; [|by rewrite Hk].
    destruct k; unfold files; set_solver.
Qed.

Lemma NoDup_load_available avail : NoDup (load_available avail).*1.
Proof.
  unfold load_available, files. cbn [omap list_omap].
  destruct (avail cg_co), (avail fs_combas), (avail fs_comins),
    (avail mc_degree), (avail mc_pro); cbn;
    apply (bool_decide_unpack _); by vm_compute.
Qed.

End Completes.

Section Fallback.

Lemma first_fallback_first df names current :
  (exists f, f ∈ names /\ f ∈ columns df) ->
  exists pre post,
    names = (pre ++ first_fallback df names current :: post)%list
    /\ forall f, f ∈ pre -> f ∉ columns df.
Proof.
  induction names as [|n names IH]; intros (f & Hf & Hin);
    [by apply elem_of_nil in Hf|].
  cbn [first_fallback]. case_decide as Hn.
  - exists [], names. split; [done|]. by intros ? ?%elem_of_nil.
  - destruct IH as (pre & post & Hsplit & Hpre).
    { exists f. split; [|done]. by apply elem_of_cons in Hf as [->|?]. }
    exists (n :: pre), post. split; [by rewrite Hsplit at 1|].
    intros g [->|Hg]%elem_of_cons; [done|by apply Hpre].
Qed.

Lemma column_add_symbol df c :
  c ≠ "Symbol" -> column (add_symbol df) c = column df c.
Proof.
  intros Hne. unfold add_symbol.
  repeat case_decide; try done;
    (apply column_setcol_ne; [done|]);
    by rewrite length_normalize_company_id, length_column.
Qed.

Lemma column_prepare_Date k df declared :
  date_map k = Some declared ->
  resolve_date_col df declared ∈ columns df ->
  column (prepare k df) "Date" = column df (resolve_date_col df declared).
Proof.
  intros Hk Hin. unfold prepare. rewrite truthy_date_map, Hk.
  rewrite rename_present by done.
  unfold column, relabel. cbn [rows].
  rewrite <- !list_fmap_compose. apply list_fmap_ext. intros _ r _.
  unfold compose. cbn beta.
  assert (Hd : prefix_label k (join_labels k) "Date" = "Date").
  { unfold prefix_label. rewrite decide_True; [done|].
    unfold join_labels. rewrite truthy_date_map, Hk. right; left. }
  unfold cell_at. rewrite <- Hd at 1.
  rewrite (lookup_kmap (prefix_label k (join_labels k))
             (Inj0 := prefix_label_inj k)).
  destruct (r !! resolve_date_col df declared) as [v|].
  - by rewrite lookup_insert_eq.
  - by rewrite lookup_delete_eq.
Qed.

End Fallback.

(** * The properties on the example tables *)

Module Checks.
Import Examples.

Lemma in_columns (c : string) (cols : list string) :
  bool_decide (c ∈ cols) = true -> c ∈ cols.
Proof. apply bool_decide_eq_true. Qed.

(** C8 on [panel]: the three year-end rows of the first company and the
    one of the second are kept. *)
Lemma filter_year_end_spec_witness :
  "Accper" ≠ EmptyString /\ "Accper" ∈ columns panel
  /\ exists out,
       filter_year_end (H := iso_pandas) panel (Some "Accper") = Ok out
       /\ columns out = columns panel
       /\ sublist (rows out) (rows panel)
       /\ forall r,
            r ∈ rows out
            <-> exists (i : nat) d,
                  rows panel !! i = Some r
                  /\ to_datetime (Pandas := iso_pandas)
                       (column panel "Accper") !! i = Some (Some d)
                  /\ month d = 12 /\ day d = 31.
Proof.
  assert (H1 : "Accper" ≠ EmptyString) by discriminate.
  assert (H2 : "Accper" ∈ columns panel) by (apply in_columns; reflexivity).
  exact (conj H1 (conj H2
           (filter_year_end_spec (H := iso_pandas) panel "Accper" H1 H2))).
Defined.

(** C7 on [panel], thresholds 1 and 3. *)
Lemma coverage_antitone_witness :
  1 <= 3 /\ "Stkcd" ∈ columns panel /\ "Accper" ∈ columns panel
  /\ exists s1 s2 : gset cell,
       companies_with_full_years (H := iso_pandas) panel "Stkcd"
                                 (Some "Accper") years 1 = Ok s1
       /\ companies_with_full_years (H := iso_pandas) panel "Stkcd"
                                    (Some "Accper") years 3 = Ok s2
       /\ s2 ⊆ s1.
Proof.
  assert (H1 : 1 <= 3) by lia.
  assert (H2 : "Stkcd" ∈ columns panel) by (apply in_columns; reflexivity).
  assert (H3 : "Accper" ∈ columns panel) by (apply in_columns; reflexivity).
  exact (conj H1 (conj H2 (conj H3
           (coverage_antitone (H := iso_pandas) panel "Stkcd" "Accper"
                              years 1 3 H1 H2 H3)))).
Defined.

(** The two coverage sets of the witness, computed. *)
Example coverage_of_panel :
  companies_with_full_years (H := iso_pandas) panel "Stkcd" (Some "Accper")
                            years 1
  = Ok {[CStr "600000"; CStr "000001"]}
  /\ companies_with_full_years (H := iso_pandas) panel "Stkcd"
                               (Some "Accper") years 3
     = Ok {[CStr "600000"]}.
Proof. split; vm_compute; reflexivity. Qed.

(** C4: a blank identifier cell is counted as the company "nan". *)
Theorem coverage_counts_blank_id :
  companies_with_full_years (H := iso_pandas) missing_id "Stkcd" None
                            years 3
  = Ok {[CStr "600000"; CStr "nan"]}.
Proof. vm_compute. reflexivity. Qed.

(** C3 as stated fails: the identifier "600000.0.0" is kept as
    "600000.0" by the first run and dropped by the second. *)
Lemma filter_twice_differs :
  filter_for_companies_and_years (H := iso_pandas) double_suffix "Stkcd"
                                 None {[CStr "600000.0"]} years
  = Ok double_suffix_once
  /\ filter_for_companies_and_years (H := iso_pandas) double_suffix_once
                                    "Stkcd" None {[CStr "600000.0"]} years
     = Ok double_suffix_twice
  /\ double_suffix_twice ≠ double_suffix_once.
Proof.
  split; [vm_compute; reflexivity|].
  split; [vm_compute; reflexivity|]. discriminate.
Qed.

(** The retained set of that example is the coverage of the table. *)
Example coverage_of_double_suffix :
  companies_with_full_years (H := iso_pandas) double_suffix "Stkcd" None
                            years 3
  = Ok {[CStr "600000.0"]}.
Proof. vm_compute. reflexivity. Qed.

(** C3, amended, on [panel]. *)
Lemma filter_twice_witness :
  (forall raw, to_datetime (Pandas := iso_pandas) raw = iso_date <$> raw)
  /\ (forall s, CStr s ∈ ({[CStr "600000"]} : gset cell) ->
                normalize_company_id1 (CStr s) = s)
  /\ (forall y, truthy (Some "Accper") = Some y ->
                y ≠ "__year" /\ "Stkcd" ≠ "__year")
  /\ filter_for_companies_and_years (H := iso_pandas) panel "Stkcd"
       (Some "Accper") {[CStr "600000"]} years = Ok panel_kept
  /\ filter_for_companies_and_years (H := iso_pandas) panel_kept "Stkcd"
       (Some "Accper") {[CStr "600000"]} years = Ok panel_kept.
Proof.
  assert (H1 : forall raw,
             to_datetime (Pandas := iso_pandas) raw = iso_date <$> raw)
    by reflexivity.
  assert (H2 : forall s, CStr s ∈ ({[CStr "600000"]} : gset cell) ->
                         normalize_company_id1 (CStr s) = s).
  { intros s Hs. apply elem_of_singleton in Hs. injection Hs as ->.
    reflexivity. }
  assert (H3 : forall y, truthy (Some "Accper") = Some y ->
                         y ≠ "__year" /\ "Stkcd" ≠ "__year").
  { intros y Hy. simpl in Hy. injection Hy as <-. split; discriminate. }
  assert (H4 : filter_for_companies_and_years (H := iso_pandas) panel
                 "Stkcd" (Some "Accper") {[CStr "600000"]} years
               = Ok panel_kept) by (vm_compute; reflexivity).
  exact (conj H1 (conj H2 (conj H3 (conj H4
           (filter_twice (H := iso_pandas) iso_date H1 panel "Stkcd"
              (Some "Accper") {[CStr "600000"]} years panel_kept
              H2 H3 H4))))).
Defined.

(** C10 on a store that holds [panel]. *)
Lemma callers_table_unchanged_witness :
  let h : gmap nat DataFrame := {[ 0%nat := panel ]} in
  h !! 0%nat = Some panel
  /\ (let run := InPlace.companies_with_full_years (H := iso_pandas)
                   0%nat "Stkcd" (Some "Accper") years 3 h in
      run.1 !! 0%nat = Some panel
      /\ InPlace.preserved h run.1
      /\ run.2 = companies_with_full_years (H := iso_pandas) panel "Stkcd"
                   (Some "Accper") years 3)
  /\ (let run := InPlace.filter_for_companies_and_years (H := iso_pandas)
                   0%nat "Stkcd" (Some "Accper") {[CStr "600000"]} years h in
      run.1 !! 0%nat = Some panel
      /\ InPlace.preserved h run.1
      /\ match run.2 with
         | Ok l =>
             l ≠ 0%nat
             /\ h !! l = None
             /\ Ok <$> run.1 !! l
                = Some (filter_for_companies_and_years (H := iso_pandas)
                          panel "Stkcd" (Some "Accper") {[CStr "600000"]}
                          years)
         | Err e =>
             filter_for_companies_and_years (H := iso_pandas) panel "Stkcd"
               (Some "Accper") {[CStr "600000"]} years = Err e
         end).
Proof.
  intros h.
  assert (H1 : h !! 0%nat = Some panel) by reflexivity.
  exact (conj H1
           (InPlaceFacts.callers_table_unchanged (H := iso_pandas) h 0%nat
              panel "Stkcd" (Some "Accper") {[CStr "600000"]} years 3 H1)).
Defined.


Example spine_of_keys :
  length <$> (rows <$> match build_spine [keys_a; keys_b] ["Symbol"; "Date"]
                       with Ok s => Some s | Err _ => None end)
  = Some 3%nat.
Proof. vm_compute. reflexivity. Qed.



(** The merged table of that example: the date column found under
    "Accper.1", two rows as in the spine, the company name where the
    company table has the identifier. *)
Example merged_renamed_and_companies :
  (fun m => (columns m,
             (fun r => (cell_at r "Symbol", cell_at r "Date",
                        cell_at r "cg_co_Conme")) <$> rows m))
    <$> match merge_filtered renamed_and_companies with
        | Ok m => Some m
        | Err _ => None
        end
  = Some (["Symbol"; "Date"; "cg_co_Stkcd"; "cg_co_Conme";
           "fs_combas_Stkcd"; "fs_combas_A001000000"],
          [(CStr "600000", CStr "2020-12-31", CStr "SPDB");
           (CStr "1", CStr "2020-12-31", CNaN)]).
Proof. vm_compute. reflexivity. Qed.

Example resolved_date_col :
  resolve_date_col (add_symbol renamed_dates) "Accper" = "Accper.1".
Proof. reflexivity. Qed.


(** What that run prints. *)
Example printed_on_empty_retention :
  process (H := iso_pandas) read_raw "filtered" years 3 false
  = ([ PrintCoverage 3 years 0;
       PrintDataset "cg_co" 1 1 1 None;
       PrintDataset "fs_combas" 1 1 0 (Some (Some 2020, Some 2020));
       PrintDataset "fs_comins" 1 1 0 (Some (Some 2020, Some 2020));
       PrintDataset "mc_diversified_degree" 1 1 0
                    (Some (Some 2020, Some 2020));
       PrintDataset "mc_diversified_product" 1 1 0
                    (Some (Some 2020, Some 2020)) ],
     Err RuntimeError).
Proof. vm_compute. reflexivity. Qed.

End Checks.

(** * Further properties of clean_data.py *)

Section ColumnChoice.

(** X1.  [pick_first_existing] returns the first candidate that is a
    column of the table, and raises [KeyError] exactly when no candidate
    is one. *)
Theorem pick_first_existing_spec (df : DataFrame) (cols : list string) :
  match pick_first_existing df cols with
  | Ok c =>
      c ∈ columns df
      /\ exists pre post,
           cols = (pre ++ c :: post)%list
           /\ forall x, x ∈ pre -> x ∉ columns df
  | Err e => e = KeyError /\ forall x, x ∈ cols -> x ∉ columns df
  end.
Proof.
  induction cols as [|col cols IH]; cbn [pick_first_existing].
  - split; [done|]. by intros x ?%elem_of_nil.
  - case_decide as Hcol.
    + split; [done|]. exists [], cols. split; [done|].
      by intros x ?%elem_of_nil.
    + destruct (pick_first_existing df cols) as [c|e].
      * destruct IH as (Hc & pre & post & -> & Hpre). split; [done|].
        exists (col :: pre), post. split; [done|].
        intros x [->|Hx]%elem_of_cons; [done|by apply Hpre].
      * destruct IH as [-> Hall]. split; [done|].
        intros x [->|Hx]%elem_of_cons; [done|by apply Hall].
Qed.

End ColumnChoice.

Section RowFilter.

Lemma loc_mask_mono {A} (l : list A) (m1 m2 : list bool) :
  Forall2 (fun a b => a = true -> b = true) m1 m2 ->
  sublist (loc_mask l m1) (loc_mask l m2).
Proof.
  intros Hm. revert l. induction Hm as [|a b m1 m2 Hab Hm IH]; intros l.
  - destruct l; apply sublist_nil_l.
  - destruct l as [|x l]; [apply sublist_nil_l|]. cbn [loc_mask].
    destruct a.
    + rewrite Hab by done. by apply sublist_skip.
    + destruct b; [by apply sublist_cons|apply IH].
Qed.

Lemma elem_of_loc_fmap {A} (g : A -> bool) (l : list A) (x : A) :
  x ∈ loc_mask l (g <$> l) <-> x ∈ l /\ g x = true.
Proof.
  rewrite elem_of_loc_mask. split.
  - intros (i & Hx & Hm). rewrite list_lookup_fmap, Hx in Hm.
    injection Hm as Hm. split; [|done]. by apply list_elem_of_lookup_2 in Hx.
  - intros [(i & Hx)%list_elem_of_lookup_1 Hg]. exists i. split; [done|].
    by rewrite list_lookup_fmap, Hx, <- Hg.
Qed.

Lemma apply_row_filter_present df cfg ic fc :
  truthy (filter_col cfg) = Some fc -> fc ∈ columns df ->
  apply_row_filter df cfg ic
  = Ok (loc df ((fun r => bool_decide
                            (astype_str (cell_at r fc) ∈ keep_values_of cfg ic))
                  <$> rows df)).
Proof.
  intros Hfc Hin. unfold apply_row_filter. rewrite Hfc.
  rewrite decide_True by done. unfold column.
  by rewrite <- list_fmap_compose.
Qed.

Lemma elem_of_keep_values_of cfg ic s :
  s ∈ keep_values_of cfg ic <-> kept_text cfg ic s.
Proof.
  unfold keep_values_of, kept_text.
  assert (Hbase : forall s,
             s ∈ (match filter_keep cfg with
                  | Some vs => list_to_set (astype_str <$> vs)
                  | None => ∅
                  end : gset string)
             <-> exists vs v, filter_keep cfg = Some vs /\ v ∈ vs
                              /\ s = astype_str v).
  { intros t. destruct (filter_keep cfg) as [vs|].
    - rewrite elem_of_list_to_set, list_elem_of_fmap. split.
      + intros (v & -> & Hv). by exists vs, v.
      + intros (vs' & v & [= <-] & Hv & ->). by exists v.
    - split; [by intros ?%not_elem_of_empty|by intros (? & ? & ? & _)]. }
  destruct ic.
  - destruct (startswith "mc_" (key cfg)) eqn:Hmc;
      destruct (decide (key cfg ∈ ["fs_combas"; "fs_comins"])) as [Hfs|Hfs];
      rewrite ?elem_of_union, ?elem_of_singleton, Hbase; split;
      try naive_solver.
  - rewrite Hbase. split; [by left|]. by intros [?|[? _]].
Qed.

(** X2.  With its filter column present, [apply_row_filter] returns a
    table with the same columns whose rows are, in their order, exactly
    the rows whose filter cell, as text, is the text of a value to keep:
    the integer 2 and the text "2" select the same rows. *)
Theorem apply_row_filter_spec (df : DataFrame) (cfg : DatasetConfig)
    (include_consolidated : bool) (fc : string) :
  truthy (filter_col cfg) = Some fc ->
  fc ∈ columns df ->
  exists out,
    apply_row_filter df cfg include_consolidated = Ok out
    /\ columns out = columns df
    /\ sublist (rows out) (rows df)
    /\ forall r,
         r ∈ rows out
         <-> r ∈ rows df
             /\ kept_text cfg include_consolidated
                          (astype_str (cell_at r fc)).
Proof.
  intros Hfc Hin. rewrite (apply_row_filter_present _ _ _ fc) by done.
  eexists. split; [done|]. split; [done|]. split.
  { apply loc_mask_sublist. }
  intros r. cbn [rows loc]. rewrite elem_of_loc_fmap.
  by rewrite bool_decide_eq_true, elem_of_keep_values_of.
Qed.

(** X3.  Asking for the consolidated statements as well only adds rows:
    what [apply_row_filter] keeps without the flag is kept, in the same
    order, with it. *)
Theorem apply_row_filter_widens (df : DataFrame) (cfg : DatasetConfig)
    (out : DataFrame) :
  apply_row_filter df cfg false = Ok out ->
  exists out',
    apply_row_filter df cfg true = Ok out'
    /\ columns out' = columns out
    /\ sublist (rows out) (rows out').
Proof.
  intros Hout. destruct (truthy (filter_col cfg)) as [fc|] eqn:Hfc.
  - destruct (decide (fc ∈ columns df)) as [Hin|Hin].
    + rewrite (apply_row_filter_present _ _ _ fc) in Hout by done.
      rewrite (apply_row_filter_present _ _ _ fc) by done.
      injection Hout as <-. eexists. split; [done|]. split; [done|].
      cbn [rows loc]. apply loc_mask_mono. apply Forall2_fmap.
      apply Forall_Forall2_diag, Forall_forall. intros r _.
      rewrite !bool_decide_eq_true. intros Hk.
      apply elem_of_keep_values_of.
      apply (proj1 (elem_of_keep_values_of cfg false _)) in Hk.
      destruct Hk as [?|[? _]]; [by left|done].
    + unfold apply_row_filter in Hout. rewrite Hfc in Hout.
      by rewrite decide_False in Hout.
  - unfold apply_row_filter in *. rewrite Hfc in *.
    injection Hout as <-. by exists df.
Qed.

End RowFilter.

(** ** Years and coverage *)

Section Years.
Context `{Pandas}.

Lemma strict_unread_false (raw : list cell) :
  (exists v, v ∈ raw /\ is_Some (to_datetime_iso v)) ->
  forallb (fun d : option date => bool_decide (d = None))
          (to_datetime_iso <$> raw) = false.
Proof.
  intros (v & Hv & [d Hd]).
  destruct (forallb _ _) eqn:Hall; [|done].
  rewrite (proj1 (all_unread_spec raw) Hall v Hv) in Hd. done.
Qed.

(** X4.  [normalize_year] tries the strict format first.  As soon as one
    value of the column is in that format every year comes from the
    strict reading, so a value in another format gets no year; the
    flexible parser is used only when no value is in the strict format.
    The result has one entry per row. *)
Theorem normalize_year_strict_first (df : DataFrame) (date_col : string) :
  date_col ∈ columns df ->
  exists years,
    normalize_year df date_col = Ok years
    /\ length years = length (rows df)
    /\ ((exists v, v ∈ column df date_col /\ is_Some (to_datetime_iso v)) ->
        years = (fun v => year <$> to_datetime_iso v) <$> column df date_col)
    /\ ((forall v, v ∈ column df date_col -> to_datetime_iso v = None) ->
        years = (fun d : option date => year <$> d)
                  <$> flexible_dates (column df date_col)).
Proof.
  intros Hc. destruct (normalize_year_Ok df date_col Hc) as (years & Hy & Hl).
  exists years. split; [done|]. split; [done|].
  unfold normalize_year in Hy. rewrite getcol_Ok in Hy by done.
  cbn [res_bind] in Hy. split.
  - intros Hsome. rewrite (strict_unread_false _ Hsome) in Hy.
    injection Hy as <-. by rewrite <- list_fmap_compose.
  - intros Hnone. apply all_unread_spec in Hnone. rewrite Hnone in Hy.
    by injection Hy as <-.
Qed.

End Years.

Section Grouping.

Lemma group_pairs_None l k : group_pairs l !! k = None <-> k ∉ l.*1.
Proof.
  induction l as [|[k' v] l IH]; cbn [group_pairs foldr fmap list_fmap fst].
  - rewrite lookup_empty. split; [by intros _ ?%elem_of_nil|done].
  - fold (group_pairs l). rewrite not_elem_of_cons.
    destruct (decide (k' = k)) as [->|Hne].
    + rewrite lookup_insert_eq. split; [done|by intros [? _]].
    + rewrite lookup_insert_ne by done. rewrite IH. split; [|by intros [_ ?]].
      intros ?. split; [congruence|done].
Qed.

Lemma group_pairs_Some l k s :
  group_pairs l !! k = Some s -> forall v, v ∈ s <-> (k, v) ∈ l.
Proof.
  revert s. induction l as [|[k' v'] l IH]; intros s;
    cbn [group_pairs foldr fst snd].
  - by rewrite lookup_empty.
  - fold (group_pairs l). destruct (decide (k' = k)) as [->|Hne].
    + rewrite lookup_insert_eq. intros [= <-] v.
      rewrite elem_of_union, elem_of_singleton, elem_of_cons.
      destruct (group_pairs l !! k) as [s'|] eqn:Hs; cbn [default].
      * rewrite (IH s' eq_refl v). split.
        { intros [->|?]; [by left|by right]. }
        intros [[= ->]|?]; [by left|by right].
      * apply group_pairs_None in Hs. split.
        { intros [->|?%not_elem_of_empty]; [by left|done]. }
        intros [[= ->]|Hin]; [by left|]. exfalso. apply Hs.
        apply list_elem_of_fmap. by exists (k, v).
    + rewrite lookup_insert_ne by done. intros Hs v.
      rewrite (IH s Hs v), elem_of_cons. split; [by right|].
      intros [[= ? ?]|?]; [congruence|done].
Qed.

Lemma year_sets_group temp company_col target_years :
  year_sets temp company_col target_years
  = (fun s : gset cell => s ∩ set_map CInt target_years)
      <$> group_pairs ((fun r => (cell_at r company_col, cell_at r "__year"))
                         <$> rows temp).
Proof.
  unfold year_sets, group_pairs. f_equal.
  induction (rows temp) as [|r rs IH]; [done|].
  cbn [foldr fmap list_fmap fst snd]. by rewrite IH.
Qed.

Lemma size_set_map_CInt (X : gset Z) :
  size (set_map CInt X : gset cell) = size X.
Proof.
  unfold set_map. rewrite size_list_to_set; [by rewrite length_fmap|].
  apply NoDup_fmap_2_strong; [|apply NoDup_elements].
  by intros x y _ _ [= ->].
Qed.

End Grouping.

Section Coverage.
Context `{Pandas}.

(** The rows of the working table of [companies_with_full_years], read
    as (identifier, year) pairs. *)
Lemma working_pairs (rs : list (gmap string cell)) company_col
    (ids ycs : list cell) :
  company_col ≠ "__year" ->
  length ids = length rs -> length ycs = length rs ->
  (fun r => (cell_at r company_col, cell_at r "__year"))
    <$> filter (fun r => Forall (fun c => isna (cell_at r c) = false)
                                [company_col; "__year"])
               (zip_with (fun r v => <["__year" := v]> r)
                         (zip_with (fun r v => <[company_col := v]> r) rs ids)
                         ycs)
  = filter (fun p : cell * cell => isna p.1 = false /\ isna p.2 = false)
           (zip ids ycs).
Proof.
  intros Hne. revert ids ycs.
  induction rs as [|r rs IH]; intros [|i ids] [|y ycs] Hi Hy;
    simplify_eq/=; try done.
  assert (Hc : cell_at (<["__year" := y]> (<[company_col := i]> r))
                       company_col = i).
  { unfold cell_at. rewrite lookup_insert_ne by done.
    by rewrite lookup_insert_eq. }
  assert (Hyr : cell_at (<["__year" := y]> (<[company_col := i]> r))
                        "__year" = y).
  { unfold cell_at. by rewrite lookup_insert_eq. }
  destruct (decide (isna i = false /\ isna y = false)) as [Hk|Hk].
  - rewrite filter_cons_True.
    2:{ destruct Hk. constructor; [by rewrite Hc|].
        constructor; [by rewrite Hyr|constructor]. }
    rewrite (filter_cons_True _ (i, y)) by done.
    cbn [fmap list_fmap]. rewrite Hc, Hyr. f_equal. by apply IH.
  - rewrite filter_cons_False.
    2:{ intros [H1 [H2 _]%Forall_cons]%Forall_cons. apply Hk.
        by rewrite Hc in H1; rewrite Hyr in H2. }
    rewrite (filter_cons_False _ (i, y)) by done. by apply IH.
Qed.

Lemma elem_of_zip_fmap_r {A B C} (g : B -> C) (l : list A) (k : list B)
    (a : A) (c : C) :
  (a, c) ∈ zip l (g <$> k) <-> exists b, c = g b /\ (a, b) ∈ zip l k.
Proof.
  revert k. induction l as [|x l IH]; intros [|b k]; cbn [zip zip_with fmap
    list_fmap]; try (split; [by intros ?%elem_of_nil|
                              by intros (? & _ & ?%elem_of_nil)]).
  rewrite elem_of_cons, IH. split.
  - intros [[= -> ->]|(b' & -> & Hin)]; [exists b|exists b'];
      (split; [done|]); [left|by right].
  - intros (b' & -> & [[= -> ->]|Hin]%elem_of_cons); [by left|].
    right. by exists b'.
Qed.

Lemma elem_of_observed_years ids years c y :
  y ∈ observed_years ids years c <-> (c, Some y) ∈ zip ids years.
Proof.
  unfold observed_years. rewrite elem_of_list_to_set, list_elem_of_omap.
  split.
  - intros ([c' y'] & Hin & Hp). cbn [fst snd] in Hp.
    case_decide; [|done]. by subst.
  - intros Hin. exists (c, Some y). split; [done|].
    cbn [fst snd]. by rewrite decide_True.
Qed.

Lemma coverage_members (df : DataFrame) (company_col year_col : string)
    (target_years : gset Z) (min_years : Z) (years : list (option Z)) :
  company_col ≠ "__year" ->
  year_col ≠ company_col ->
  company_col ∈ columns df ->
  normalize_year df year_col = Ok years ->
  exists s : gset cell,
    companies_with_full_years df company_col (Some year_col) target_years
                              min_years = Ok s
    /\ forall c,
         c ∈ s
         <-> observed_years (normalize_company_id (column df company_col))
                            years c ≠ ∅
             /\ min_years
                <= Z.of_nat
                     (size (observed_years
                              (normalize_company_id (column df company_col))
                              years c ∩ target_years)).
Proof.
  intros Hwork Hyc Hcc Hyears.
  set (ids := normalize_company_id (column df company_col)).
  assert (Hyin : year_col ∈ columns df).
  { destruct (decide (year_col ∈ columns df)); [done|].
    by rewrite normalize_year_Err in Hyears. }
  destruct (normalize_year_Ok df year_col Hyin) as (years' & Hy' & Hlen).
  assert (years' = years) by congruence. subst years'. clear Hy'.
  assert (Hlid : length ids = length (rows df)).
  { unfold ids. by rewrite length_normalize_company_id, length_column. }
  assert (Hsame : normalize_year (setcol df company_col ids) year_col
                  = Ok years).
  { unfold normalize_year in *.
    rewrite getcol_Ok in Hyears by done.
    rewrite getcol_Ok by (by apply elem_of_columns_setcol).
    by rewrite column_setcol_ne. }
  unfold companies_with_full_years. rewrite getcol_Ok by done.
  cbn [res_bind]. fold ids. rewrite Hsame. cbn [res_bind].
  eexists. split; [done|]. intros c.
  rewrite year_sets_group. unfold dropna, setcol. cbn [rows columns].
  rewrite working_pairs by (rewrite ?length_fmap; done).
  set (L := filter (fun p : cell * cell => isna p.1 = false /\ isna p.2 = false)
                   (zip ids (year_cell <$> years))).
  assert (HL : forall k v, (k, v) ∈ L
                 <-> exists y, v = CInt y /\ (k, Some y) ∈ zip ids years).
  { intros k v. unfold L. rewrite list_elem_of_filter. cbn [fst snd].
    rewrite elem_of_zip_fmap_r. split.
    - intros [[_ Hv] (y' & -> & Hin)].
      destruct y' as [y|]; [|done]. by exists y.
    - intros (y & -> & Hin). split.
      + split; [|done]. apply elem_of_zip_l in Hin. unfold ids in Hin.
        unfold normalize_company_id in Hin.
        by apply list_elem_of_fmap in Hin as (? & -> & _).
      + by exists (Some y). }
  rewrite elem_of_dom. split.
  - intros [s Hs]. apply map_lookup_filter_Some in Hs as [Hs Hsize].
    rewrite lookup_fmap in Hs.
    destruct (group_pairs L !! c) as [g|] eqn:Hg; [|done].
    injection Hs as <-. cbn [snd] in Hsize.
    pose proof (group_pairs_Some L c g Hg) as Hmem.
    assert (Hg' : g = set_map CInt (observed_years ids years c)).
    { apply set_eq. intros v. rewrite Hmem, HL, elem_of_map.
      split; intros (y & -> & Hy); exists y; split; try done;
        by apply elem_of_observed_years. }
    split.
    + destruct (decide (c ∈ L.*1)) as [Hin|Hin];
        [|by apply group_pairs_None in Hin; congruence].
      apply list_elem_of_fmap in Hin as ([k v] & -> & Hin).
      apply HL in Hin as (y & _ & Hin).
      apply elem_of_observed_years in Hin. set_solver.
    + assert (Heq : g ∩ set_map CInt target_years
                    = set_map CInt (observed_years ids years c
                                      ∩ target_years)).
      { rewrite Hg'. apply set_eq. intros v.
        rewrite elem_of_intersection, !elem_of_map. split.
        - intros [(y & -> & Hy) (y' & [= <-] & Hy')]. exists y.
          by rewrite elem_of_intersection.
        - intros (y & -> & [? ?]%elem_of_intersection).
          split; by exists y. }
      rewrite Heq, size_set_map_CInt in Hsize. done.
  - intros [Hobs Hsize].
    destruct (group_pairs L !! c) as [g|] eqn:Hg.
    + pose proof (group_pairs_Some L c g Hg) as Hmem.
      assert (Hg' : g = set_map CInt (observed_years ids years c)).
      { apply set_eq. intros v. rewrite Hmem, HL, elem_of_map.
        split; intros (y & -> & Hy); exists y; split; try done;
          by apply elem_of_observed_years. }
      exists (g ∩ set_map CInt target_years).
      apply map_lookup_filter_Some. rewrite lookup_fmap, Hg. split; [done|].
      cbn [snd].
      assert (Heq : g ∩ set_map CInt target_years
                    = set_map CInt (observed_years ids years c
                                      ∩ target_years)).
      { rewrite Hg'. apply set_eq. intros v.
        rewrite elem_of_intersection, !elem_of_map. split.
        - intros [(y & -> & Hy) (y' & [= <-] & Hy')]. exists y.
          by rewrite elem_of_intersection.
        - intros (y & -> & [? ?]%elem_of_intersection).
          split; by exists y. }
      by rewrite Heq, size_set_map_CInt.
    + exfalso. apply group_pairs_None in Hg. apply Hobs.
      apply set_eq. intros y. split; [|by intros ?%not_elem_of_empty].
      intros Hy%elem_of_observed_years. exfalso. apply Hg.
      apply list_elem_of_fmap. exists (c, CInt y). split; [done|].
      apply HL. by exists y.
Qed.

(** X5.  With distinct company and year columns,
    [companies_with_full_years] returns exactly the identifiers that have
    a row with a readable year and whose observed years include at least
    [min_years] of the target years; the years are those [normalize_year]
    reads from the table and the identifiers the normalised values of
    the company column. *)
Theorem coverage_spec (df : DataFrame) (company_col year_col : string)
    (target_years : gset Z) (min_years : Z) (years : list (option Z)) :
  company_col ≠ "__year" ->
  year_col ≠ company_col ->
  company_col ∈ columns df ->
  normalize_year df year_col = Ok years ->
  exists s : gset cell,
    companies_with_full_years df company_col (Some year_col) target_years
                              min_years = Ok s
    /\ forall c,
         c ∈ s
         <-> observed_years (normalize_company_id (column df company_col))
                            years c ≠ ∅
             /\ min_years
                <= Z.of_nat
                     (size (observed_years
                              (normalize_company_id (column df company_col))
                              years c ∩ target_years)).
Proof.
  intros. by apply coverage_members.
Qed.

End Coverage.

Section CoverageBounds.
Context `{Pandas}.

Lemma elem_of_coverage_dom (base : gmap cell (gset cell))
    (target_years : gset Z) (min_years : Z) (c : cell) :
  c ∈ dom (filter (fun kv : cell * gset cell =>
                     min_years <= Z.of_nat (size kv.2))
                  ((fun s : gset cell => s ∩ set_map CInt target_years)
                     <$> base))
  <-> exists g, base !! c = Some g
                /\ min_years
                   <= Z.of_nat (size (g ∩ set_map CInt target_years)).
Proof.
  rewrite elem_of_dom. split.
  - intros [s Hs]. apply map_lookup_filter_Some in Hs as [Hs Hsize].
    rewrite lookup_fmap in Hs. destruct (base !! c) as [g|]; [|done].
    injection Hs as <-. by exists g.
  - intros (g & Hg & Hsize). exists (g ∩ set_map CInt target_years).
    apply map_lookup_filter_Some. by rewrite lookup_fmap, Hg.
Qed.

(** X6.  A larger set of target years never removes a company from the
    coverage. *)
Theorem coverage_monotone_in_years (df : DataFrame) (company_col : string)
    (year_col : option string) (ty ty' : gset Z) (min_years : Z)
    (s : gset cell) :
  ty ⊆ ty' ->
  companies_with_full_years df company_col year_col ty min_years = Ok s ->
  exists s',
    companies_with_full_years df company_col year_col ty' min_years = Ok s'
    /\ s ⊆ s'.
Proof.
  intros Hty. unfold companies_with_full_years.
  destruct (getcol df company_col) as [col|]; [|done]. cbn [res_bind].
  destruct year_col as [yc|]; [|by intros [= <-]; eexists].
  destruct (normalize_year _ yc) as [years|]; [|done]. cbn [res_bind].
  intros [= <-]. eexists. split; [done|]. intros c.
  rewrite !year_sets_group, !elem_of_coverage_dom.
  intros (g & Hg & Hsize). exists g. split; [done|].
  assert (size (g ∩ set_map CInt ty) <= size (g ∩ set_map CInt ty'))%nat;
    [|lia].
  apply subseteq_size. set_solver.
Qed.

(** X7.  A threshold above the number of target years covers no
    company. *)
Theorem coverage_empty_above (df : DataFrame) (company_col year_col : string)
    (target_years : gset Z) (min_years : Z) (s : gset cell) :
  Z.of_nat (size target_years) < min_years ->
  companies_with_full_years df company_col (Some year_col) target_years
                            min_years = Ok s ->
  s = ∅.
Proof.
  intros Hmy. unfold companies_with_full_years.
  destruct (getcol df company_col) as [col|]; [|done]. cbn [res_bind].
  destruct (normalize_year _ year_col) as [years|]; [|done].
  cbn [res_bind]. intros [= <-]. apply set_eq. intros c.
  split; [|by intros ?%not_elem_of_empty].
  rewrite year_sets_group, elem_of_coverage_dom.
  intros (g & _ & Hsize). exfalso.
  assert (size (g ∩ set_map CInt target_years) <= size target_years)%nat;
    [|lia].
  rewrite <- size_set_map_CInt. apply subseteq_size. set_solver.
Qed.

End CoverageBounds.

Section FilterOutput.
Context `{Pandas}.

Lemma rows_drop_year (rs : list (gmap string cell)) (ycs : list cell) :
  length ycs = length rs ->
  delete "__year" <$> zip_with (fun r v => <["__year" := v]> r) rs ycs
  = delete "__year" <$> rs.
Proof.
  revert ycs. induction rs as [|r rs IH]; intros [|y ycs] Hlen;
    simplify_eq/=; [done|].
  rewrite delete_insert_eq. f_equal. by apply IH.
Qed.

Lemma filter_rows (df : DataFrame) (company_col : string)
    (year_col : option string) (keep_companies : gset cell)
    (target_years : gset Z) (out : DataFrame) :
  filter_for_companies_and_years df company_col year_col keep_companies
                                 target_years = Ok out ->
  columns out
  = match truthy year_col with
    | Some _ => filter (fun c => c ≠ "__year") (columns df)
    | None => columns df
    end
  /\ sublist (rows out) (kept_row company_col year_col <$> rows df)
  /\ forall r',
       r' ∈ rows out <->
       exists (i : nat) r,
         rows df !! i = Some r
         /\ r' = kept_row company_col year_col r
         /\ CStr (normalize_company_id1 (cell_at r company_col))
            ∈ keep_companies
         /\ forall yc years,
              truthy year_col = Some yc ->
              normalize_year
                (setcol df company_col
                        (normalize_company_id (column df company_col)))
                yc = Ok years ->
              exists y, years !! i = Some (Some y) /\ y ∈ target_years.
Proof.
  intros Hout.
  destruct (filter_Ok_columns _ _ _ _ _ _ Hout) as [Hc Hyc].
  unfold filter_for_companies_and_years in Hout.
  rewrite getcol_Ok in Hout by done. cbn [res_bind] in Hout.
  set (ids := normalize_company_id (column df company_col)) in *.
  assert (Hlid : length ids = length (rows df)).
  { unfold ids. by rewrite length_normalize_company_id, length_column. }
  assert (Hcol : column (setcol df company_col ids) company_col = ids)
    by (by apply column_setcol_eq).
  rewrite Hcol in Hout.
  assert (Hrows : rows (setcol df company_col ids)
                  = normalized_row company_col <$> rows df)
    by apply rows_setcol_normalized.
  assert (Hids : forall (i : nat) r, rows df !! i = Some r ->
             ids !! i = Some (CStr (normalize_company_id1
                                      (cell_at r company_col)))).
  { intros i r Hr. unfold ids, normalize_company_id, column.
    by rewrite !list_lookup_fmap, Hr. }
  unfold kept_row. destruct (truthy year_col) as [yc|] eqn:Hty.
  - destruct (normalize_year_Ok (setcol df company_col ids) yc)
      as (years & Hy & Hlen).
    { apply elem_of_columns_setcol. by apply Hyc. }
    rewrite Hy in Hout. cbn [res_bind] in Hout. injection Hout as <-.
    rewrite length_rows_setcol in Hlen by done.
    cbn [columns rows loc dropcol setcol].
    rewrite filter_ne_setcol_year.
    rewrite (decide_True (P := company_col ∈ columns df)) by done.
    cbn [rows setcol] in Hrows. rewrite Hrows.
    rewrite rows_drop_year by (by rewrite !length_fmap).
    rewrite <- list_fmap_compose.
    split; [done|]. split; [apply loc_mask_sublist|].
    intros r'. rewrite elem_of_loc_mask. split.
    + intros (i & Hr' & Hm). rewrite list_lookup_fmap in Hr'.
      destruct (rows df !! i) as [r|] eqn:Hr; [|done].
      injection Hr' as <-. exists i, r. split; [done|]. split; [done|].
      rewrite lookup_zip_with in Hm.
      rewrite !list_lookup_fmap, (Hids i r Hr) in Hm. cbn in Hm.
      destruct (years !! i) as [y|] eqn:Hyi; [|done]. cbn in Hm.
      injection Hm as Hm. apply andb_true_iff in Hm as [Hk Hyr].
      apply bool_decide_eq_true in Hk. split; [done|].
      intros yc' years' [= <-] Hy'. assert (years' = years) by congruence.
      subst years'. destruct y as [y|]; [|done].
      exists y. split; [done|]. by apply bool_decide_eq_true in Hyr.
    + intros (i & r & Hr & -> & Hk & Hyr).
      destruct (Hyr yc years eq_refl Hy) as (y & Hyi & Hin).
      exists i. rewrite list_lookup_fmap, Hr. split; [done|].
      rewrite lookup_zip_with, !list_lookup_fmap, (Hids i r Hr), Hyi.
      cbn. by rewrite !bool_decide_eq_true_2.
  - injection Hout as <-. cbn [columns rows loc setcol].
    rewrite (decide_True (P := company_col ∈ columns df)) by done.
    cbn [rows setcol] in Hrows. rewrite Hrows.
    split; [done|]. split; [apply loc_mask_sublist|].
    intros r'. rewrite elem_of_loc_mask. split.
    + intros (i & Hr' & Hm). rewrite list_lookup_fmap in Hr'.
      destruct (rows df !! i) as [r|] eqn:Hr; [|done].
      injection Hr' as <-. exists i, r. split; [done|]. split; [done|].
      rewrite list_lookup_fmap, (Hids i r Hr) in Hm. cbn in Hm.
      injection Hm as Hm. apply bool_decide_eq_true in Hm. split; [done|].
      by intros yc years [=].
    + intros (i & r & Hr & -> & Hk & _).
      exists i. rewrite list_lookup_fmap, Hr. split; [done|].
      rewrite list_lookup_fmap, (Hids i r Hr). cbn.
      by rewrite bool_decide_eq_true_2.
Qed.

(** X8.  When [filter_for_companies_and_years] returns, the result has
    the columns of the input (without a column "__year" when a year
    column is in use), its rows are input rows in their order with the
    company identifier normalised, and a row is kept exactly when its
    identifier is in the retained set and, with a year column, its year
    is a target year. *)
Theorem filter_output (df : DataFrame) (company_col : string)
    (year_col : option string) (keep_companies : gset cell)
    (target_years : gset Z) (out : DataFrame) :
  filter_for_companies_and_years df company_col year_col keep_companies
                                 target_years = Ok out ->
  columns out
  = match truthy year_col with
    | Some _ => filter (fun c => c ≠ "__year") (columns df)
    | None => columns df
    end
  /\ sublist (rows out) (kept_row company_col year_col <$> rows df)
  /\ forall r',
       r' ∈ rows out <->
       exists (i : nat) r,
         rows df !! i = Some r
         /\ r' = kept_row company_col year_col r
         /\ CStr (normalize_company_id1 (cell_at r company_col))
            ∈ keep_companies
         /\ forall yc years,
              truthy year_col = Some yc ->
              normalize_year
                (setcol df company_col
                        (normalize_company_id (column df company_col)))
                yc = Ok years ->
              exists y, years !! i = Some (Some y) /\ y ∈ target_years.
Proof.
  intros. by apply filter_rows.
Qed.

End FilterOutput.

(** ** The driver *)

Section ProcessRuns.
Context `{Pandas}.
Variable read_input : DatasetConfig -> res (Path * DataFrame).
Variables (target_years : gset Z) (min_years : Z)
          (include_consolidated : bool).

Lemma pick_first_existing_Ok df cols c :
  pick_first_existing df cols = Ok c -> c ∈ columns df /\ c ∈ cols.
Proof.
  induction cols as [|col cols IH]; cbn [pick_first_existing]; [done|].
  case_decide.
  - intros [= <-]. split; [done|left].
  - intros [? ?]%IH. split; [done|by right].
Qed.

Lemma load_dataset_usable cfg l m :
  load_dataset read_input cfg target_years min_years include_consolidated
  = Ok (l, m) ->
  l_cfg l = cfg /\ usable l.
Proof.
  unfold load_dataset. intros Hload.
  destruct (read_input cfg) as [found|]; [|done]. cbn [res_bind] in Hload.
  destruct (apply_row_filter _ _ _) as [df1|]; [|done].
  cbn [res_bind] in Hload.
  destruct (filter_year_end _ _) as [df|]; [|done]. cbn [res_bind] in Hload.
  destruct (pick_first_existing df (company_cols cfg)) as [cc|] eqn:Hcc;
    [|done].
  cbn [res_bind] in Hload.
  destruct (match date_cols cfg with [] => _ | _ => _ end) as [yc|] eqn:Hyc;
    [|done].
  cbn [res_bind] in Hload.
  destruct (companies_with_full_years _ _ _ _ _) as [cov|]; [|done].
  cbn [res_bind] in Hload.
  destruct (match truthy yc with Some _ => _ | None => _ end) as [yp|];
    [|done].
  cbn [res_bind] in Hload. injection Hload as <- <-.
  split; [done|]. unfold usable. cbn [l_company_col l_df l_cfg l_year_col].
  apply pick_first_existing_Ok in Hcc as [? ?]. split; [done|].
  split; [done|].
  destruct (date_cols cfg) as [|d ds] eqn:Hd.
  - by injection Hyc as <-.
  - destruct (pick_first_existing df (d :: ds)) as [y|] eqn:Hy; [|done].
    cbn [res_bind] in Hyc. injection Hyc as <-.
    by apply pick_first_existing_Ok in Hy.
Qed.

Lemma dict_set_Forall {V} (P : string * V -> Prop) (k : string) (v : V)
    (d : list (string * V)) :
  P (k, v) -> Forall P d -> Forall P (dict_set k v d).
Proof.
  intros Hnew. induction 1 as [|[k' v'] d HP Hd IH]; cbn [dict_set].
  - by constructor.
  - case_decide; by constructor.
Qed.

Lemma load_datasets_usable (all cfgs : list DatasetConfig) loaded metadata
    loaded' metadata' :
  cfgs ⊆ all ->
  Forall (fun kl : string * Loaded => usable kl.2 /\ l_cfg kl.2 ∈ all)
         loaded ->
  load_datasets read_input cfgs target_years min_years include_consolidated
                loaded metadata = Ok (loaded', metadata') ->
  Forall (fun kl : string * Loaded => usable kl.2 /\ l_cfg kl.2 ∈ all)
         loaded'.
Proof.
  revert loaded metadata. induction cfgs as [|cfg cfgs IH];
    intros loaded metadata Hsub Hall Hload; cbn [load_datasets] in Hload.
  - by injection Hload as <- <-.
  - destruct (load_dataset _ _ _ _ _) as [[l m]|] eqn:Hone; [|done].
    cbn [res_bind] in Hload. apply IH in Hload; [done| |].
    + intros c Hc. apply Hsub. by right.
    + apply dict_set_Forall; [|done]. cbn [fst snd].
      apply load_dataset_usable in Hone as [-> ?]. split; [done|].
      apply Hsub. left.
Qed.

Lemma load_datasets_loaded_keys cfgs loaded metadata loaded' metadata' :
  NoDup (loaded.*1 ++ (key <$> cfgs)) ->
  load_datasets read_input cfgs target_years min_years include_consolidated
                loaded metadata = Ok (loaded', metadata') ->
  loaded'.*1 = (loaded.*1 ++ (key <$> cfgs))%list.
Proof.
  revert loaded metadata. induction cfgs as [|cfg cfgs IH];
    intros loaded metadata Hnd Hload; cbn [load_datasets] in Hload.
  - injection Hload as <- <-. by rewrite app_nil_r.
  - destruct (load_dataset _ _ _ _ _) as [[l m]|] eqn:Hone; [|done].
    cbn [res_bind] in Hload.
    assert (Hnew : key cfg ∉ loaded.*1).
    { apply NoDup_app in Hnd as (_ & Hdis & _). intros Hin.
      apply (Hdis _ Hin). left. }
    apply IH in Hload.
    + rewrite Hload. rewrite dict_set_keys_new by done.
      by rewrite <- app_assoc.
    + rewrite dict_set_keys_new by done. by rewrite <- app_assoc.
Qed.

Lemma filter_Ok df company_col year_col keep_companies :
  company_col ∈ columns df ->
  (forall y, truthy year_col = Some y -> y ∈ columns df) ->
  exists out,
    filter_for_companies_and_years df company_col year_col keep_companies
                                   target_years = Ok out.
Proof.
  intros Hc Hy. unfold filter_for_companies_and_years.
  rewrite getcol_Ok by done. cbn [res_bind].
  destruct (truthy year_col) as [yc|]; [|by eexists].
  destruct (normalize_year_Ok
              (setcol df company_col
                      (normalize_company_id (column df company_col))) yc)
    as (years & -> & _).
  { apply elem_of_columns_setcol. by apply Hy. }
  cbn [res_bind]. by eexists.
Qed.

Lemma usable_filter_Ok l keep_companies :
  usable l ->
  exists out,
    filter_for_companies_and_years (l_df l) (l_company_col l) (l_year_col l)
                                   keep_companies target_years = Ok out.
Proof.
  intros (Hc & _ & Hy). apply filter_Ok; [done|].
  intros y Hty. destruct (l_year_col l) as [yc|]; [|done].
  cbn [truthy] in Hty. case_decide; [done|]. injection Hty as <-. tauto.
Qed.

Lemma save_all_usable output_dir common (loaded : list (string * Loaded)) :
  Forall (fun kl : string * Loaded => usable kl.2) loaded ->
  exists tables,
    save_all output_dir common target_years loaded
    = (concat (zip_with (saved_events output_dir) loaded tables), Ok tt)
    /\ Forall2 (fun (kl : string * Loaded) t =>
                  filter_for_companies_and_years
                    (l_df kl.2) (l_company_col kl.2) (l_year_col kl.2)
                    common target_years = Ok t)
               loaded tables.
Proof.
  induction 1 as [|[k l] loaded Hl Hrest (tables & Hrun & Hall)].
  - exists []. by split; [|constructor].
  - cbn [snd] in Hl.
    destruct (usable_filter_Ok l common Hl) as (t & Ht).
    exists (t :: tables). split; [|by constructor].
    cbn [save_all]. rewrite Ht, Hrun. done.
Qed.

Lemma saved_events_saves output_dir (loaded : list (string * Loaded))
    (tables : list DataFrame) :
  length loaded = length tables ->
  length (filter (fun e => is_save e = true)
                 (concat (zip_with (saved_events output_dir) loaded tables)))
  = length loaded.
Proof.
  revert tables. induction loaded as [|kl loaded IH]; intros [|t tables] Hlen;
    try done.
  cbn [zip_with concat saved_events app].
  rewrite filter_cons_True by done. rewrite filter_cons_False by done.
  cbn [length]. f_equal. apply IH. by injection Hlen.
Qed.

Lemma dataset_lines_no_save (metadata : list (string * Meta)) :
  filter (fun e => is_save e = true) (dataset_line <$> metadata) = [].
Proof.
  induction metadata as [|km metadata IH]; [done|].
  cbn [fmap list_fmap]. by rewrite filter_cons_False.
Qed.

Lemma set_intersection_Ok (sets : list (gset cell)) :
  sets ≠ [] -> exists s, set_intersection sets = Ok s.
Proof. destruct sets; [done|]. intros _. by eexists. Qed.

(** X9.  [process] saves all of its datasets or none: a run that ends in
    an error has saved no table, whatever the inputs, and a run that
    returns has saved one table per dataset of [DATASETS].  (A table that
    loaded can always be filtered, so the last loop cannot stop half
    way; a failure of the write itself is outside the model.) *)
Theorem process_all_or_nothing (output_dir : string) :
  match (process read_input output_dir target_years min_years
                 include_consolidated).2 with
  | Ok _ =>
      length (filter (fun e => is_save e = true)
                     (process read_input output_dir target_years min_years
                              include_consolidated).1)
      = length DATASETS
  | Err _ =>
      Forall (fun e => is_save e = false)
             (process read_input output_dir target_years min_years
                      include_consolidated).1
  end.
Proof.
  unfold process, process_with.
  destruct (load_datasets _ _ _ _ _ _ _) as [[loaded metadata]|] eqn:Hload;
    [|by constructor].
  assert (Hkeys : loaded.*1 = key <$> DATASETS).
  { apply (load_datasets_loaded_keys DATASETS [] [] loaded metadata);
      [|done].
    apply (bool_decide_unpack _). by vm_compute. }
  pose proof (load_datasets_usable DATASETS DATASETS [] [] loaded metadata
                ltac:(done) ltac:(constructor) Hload) as Hus.
  destruct (set_intersection _) as [common|]; [|by constructor].
  assert (Hprinted : Forall (fun e => is_save e = false)
            (PrintCoverage min_years target_years (size common)
               :: (dataset_line <$> metadata))).
  { constructor; [done|]. apply Forall_fmap. by apply Forall_true. }
  case_decide; [done|].
  destruct (save_all_usable output_dir common loaded) as (tables & -> & Hall).
  { eapply Forall_impl; [exact Hus|]. by intros ? [? _]. }
  cbn [fst snd]. rewrite filter_app, length_app.
  rewrite saved_events_saves by (by eapply Forall2_length).
  assert (Hnone : filter (fun e => is_save e = true)
            (PrintCoverage min_years target_years (size common)
               :: (dataset_line <$> metadata)) = []).
  { rewrite filter_cons_False by done. apply dataset_lines_no_save. }
  rewrite Hnone. cbn [length plus].
  by rewrite <- (length_fmap fst loaded), Hkeys, length_fmap.
Qed.

End ProcessRuns.

Section Retained.
Context `{Pandas}.

Lemma cell_at_kept_row company_col year_col r :
  (forall y, truthy year_col = Some y -> company_col ≠ "__year") ->
  cell_at (kept_row company_col year_col r) company_col
  = CStr (normalize_company_id1 (cell_at r company_col)).
Proof.
  intros Hne. unfold kept_row.
  destruct (truthy year_col) as [yc|]; [|apply cell_at_normalized_row].
  rewrite <- (cell_at_normalized_row company_col r).
  unfold cell_at. rewrite lookup_delete_ne; [done|].
  intros Heq. by apply (Hne yc).
Qed.

Lemma normalize_year_setcol_ne df c series date_col :
  date_col ≠ c -> c ∈ columns df -> length series = length (rows df) ->
  normalize_year (setcol df c series) date_col = normalize_year df date_col.
Proof.
  intros Hne Hc Hlen. unfold normalize_year.
  destruct (decide (date_col ∈ columns df)) as [Hd|Hd].
  - rewrite !getcol_Ok by (by try apply elem_of_columns_setcol).
    by rewrite column_setcol_ne.
  - rewrite !getcol_Err; [done|done|]. by rewrite columns_setcol_in.
Qed.

Lemma lookup_normalize_company_id df company_col (i : nat) c :
  normalize_company_id (column df company_col) !! i = Some c
  <-> exists r, rows df !! i = Some r
                /\ c = CStr (normalize_company_id1 (cell_at r company_col)).
Proof.
  unfold normalize_company_id, column. rewrite !list_lookup_fmap.
  destruct (rows df !! i) as [r|]; cbn.
  - split; [intros [= <-]; by exists r|]. by intros (r' & [= <-] & ->).
  - split; [done|]. by intros (r' & ? & _).
Qed.

(** The identifiers of the rows [filter_for_companies_and_years] returns
    are retained ones, and a retained identifier that the coverage of the
    same table holds has a row left, once the threshold is at least one
    year. *)
Lemma filter_retained df company_col year_col keep_companies target_years
    out :
  (forall y, truthy year_col = Some y -> company_col ≠ "__year") ->
  filter_for_companies_and_years df company_col year_col keep_companies
                                 target_years = Ok out ->
  forall r, r ∈ rows out -> cell_at r company_col ∈ keep_companies.
Proof.
  intros Hne Hout r Hr.
  destruct (filter_rows _ _ _ _ _ _ Hout) as (_ & _ & Hrows).
  apply Hrows in Hr as (i & r0 & _ & -> & Hk & _).
  by rewrite cell_at_kept_row.
Qed.

Lemma covered_rows_kept df company_col year_col keep_companies target_years
    min_years cov out c :
  1 <= min_years ->
  (forall y, year_col = Some y ->
             company_col ≠ "__year" /\ y ≠ company_col /\ y ≠ EmptyString) ->
  companies_with_full_years df company_col year_col target_years min_years
  = Ok cov ->
  filter_for_companies_and_years df company_col year_col keep_companies
                                 target_years = Ok out ->
  c ∈ cov -> c ∈ keep_companies ->
  exists r, r ∈ rows out /\ cell_at r company_col = c.
Proof.
  intros Hmin Hplain Hcov Hout Hc Hk.
  destruct (filter_Ok_columns _ _ _ _ _ _ Hout) as [Hcc Hyc].
  destruct (filter_rows _ _ _ _ _ _ Hout) as (_ & _ & Hrows).
  destruct year_col as [yc|].
  - destruct (Hplain yc eq_refl) as (Hwork & Hne & Hnonempty).
    assert (Hty : truthy (Some yc) = Some yc).
    { cbn [truthy]. by rewrite decide_False. }
    destruct (normalize_year_Ok df yc (Hyc yc Hty)) as (years & Hy & Hlen).
    destruct (coverage_members df company_col yc target_years min_years
                years Hwork Hne Hcc Hy) as (s & Hs & Hmem).
    assert (s = cov) by congruence. subst s.
    apply Hmem in Hc as [_ Hsize].
    destruct (set_choose_or_empty
                (observed_years
                   (normalize_company_id (column df company_col)) years c
                 ∩ target_years)) as [[y Hyin]|Hemp].
    2:{ rewrite Hemp, size_empty in Hsize. lia. }
    apply elem_of_intersection in Hyin as [Hobs Hin].
    apply elem_of_observed_years in Hobs.
    apply elem_of_lookup_zip_with in Hobs as (i & c' & y' & [= <- <-] & Hi
                                              & Hyi).
    apply lookup_normalize_company_id in Hi as (r & Hr & ->).
    exists (kept_row company_col (Some yc) r). split.
    + apply Hrows. exists i, r. split; [done|]. split; [done|].
      split; [done|]. intros yc' years' Hty' Hy'.
      rewrite Hty in Hty'. injection Hty' as <-.
      rewrite normalize_year_setcol_ne in Hy'; [|done|done|].
      2:{ by rewrite length_normalize_company_id, length_column. }
      assert (years' = years) by congruence. subst years'. by exists y.
    + apply cell_at_kept_row. by intros _ _.
  - rewrite companies_without_year_col in Hcov by done.
    injection Hcov as <-. apply elem_of_list_to_set in Hc.
    apply list_elem_of_lookup_1 in Hc as [i Hi].
    apply lookup_normalize_company_id in Hi as (r & Hr & ->).
    exists (kept_row company_col None r). split.
    + apply Hrows. exists i, r. split; [done|]. split; [done|].
      split; [done|]. by intros yc years [=].
    + by apply cell_at_kept_row.
Qed.

Lemma elem_of_set_intersection (sets : list (gset cell)) (s : gset cell) c :
  set_intersection sets = Ok s -> c ∈ s <-> forall t, t ∈ sets -> c ∈ t.
Proof.
  destruct sets as [|s0 sets]; [done|]. cbn [set_intersection].
  intros [= <-]. revert s0. induction sets as [|t sets IH]; intros s0.
  - cbn [foldl]. split.
    + by intros ? t ->%list_elem_of_singleton.
    + intros Hall. apply Hall. left.
  - cbn [foldl]. rewrite IH. split.
    + intros Hall u [->|[->|Hu]%elem_of_cons]%elem_of_cons.
      * specialize (Hall _ ltac:(left)). set_solver.
      * specialize (Hall _ ltac:(left)). set_solver.
      * apply Hall. by right.
    + intros Hall u [->|Hu]%elem_of_cons.
      * apply elem_of_intersection. split; apply Hall; [left|right; left].
      * apply Hall. right. by right.
Qed.

End Retained.

Section ProcessOutputs.
Context `{Pandas}.
Variable read_input : DatasetConfig -> res (Path * DataFrame).
Variables (target_years : gset Z) (min_years : Z)
          (include_consolidated : bool).

Lemma DATASETS_plain : Forall plain_columns DATASETS.
Proof. apply (bool_decide_unpack _). by vm_compute. Qed.

Lemma usable_plain (l : Loaded) :
  usable l -> plain_columns (l_cfg l) ->
  forall y, l_year_col l = Some y ->
    l_company_col l ≠ "__year" /\ y ≠ l_company_col l /\ y ≠ EmptyString.
Proof.
  intros (_ & Hcc & Hyc) Hplain y Hy. rewrite Hy in Hyc.
  destruct Hyc as [_ Hyc]. unfold plain_columns in Hplain.
  rewrite Forall_forall in Hplain.
  destruct (Hplain _ Hcc) as [Hwork Hdates].
  rewrite Forall_forall in Hdates. split; [done|]. by apply Hdates.
Qed.

(** X10.  When every dataset loads and the coverage sets share a
    company, [process] returns; it prints the coverage line and one line
    per dataset, then for each dataset, in the order of [DATASETS], saves
    the table [filter_for_companies_and_years] gives for the common
    companies under the name of the input file with "_filtered" before
    its suffix, and prints the number of rows saved. *)
Theorem process_success (output_dir : string)
    (loaded : list (string * Loaded)) (metadata : list (string * Meta))
    (common : gset cell) :
  load_datasets read_input DATASETS target_years min_years
                include_consolidated [] [] = Ok (loaded, metadata) ->
  set_intersection ((fun km => m_coverage km.2) <$> metadata) = Ok common ->
  common ≠ ∅ ->
  exists tables,
    process read_input output_dir target_years min_years include_consolidated
    = (((PrintCoverage min_years target_years (size common)
           :: (dataset_line <$> metadata))
          ++ concat (zip_with (saved_events output_dir) loaded tables))%list,
       Ok tt)
    /\ loaded.*1 = key <$> DATASETS
    /\ Forall2 (fun (kl : string * Loaded) t =>
                  filter_for_companies_and_years
                    (l_df kl.2) (l_company_col kl.2) (l_year_col kl.2)
                    common target_years = Ok t)
               loaded tables.
Proof.
  intros Hload Hcommon Hne.
  pose proof (load_datasets_usable read_input target_years min_years
                include_consolidated DATASETS DATASETS [] [] loaded metadata
                ltac:(done) ltac:(constructor) Hload) as Hus.
  destruct (save_all_usable target_years output_dir common loaded)
    as (tables & Hrun & Hall).
  { eapply Forall_impl; [exact Hus|]. by intros ? [? _]. }
  exists tables. split; [|split; [|done]].
  - unfold process, process_with. rewrite Hload, Hcommon.
    rewrite decide_False by done. by rewrite Hrun.
  - apply (load_datasets_loaded_keys read_input target_years min_years
             include_consolidated DATASETS [] [] loaded metadata); [|done].
    apply (bool_decide_unpack _). by vm_compute.
Qed.

(** X11.  With a threshold of at least one year, every table [process]
    saves holds exactly the common companies: the identifier of each of
    its rows is a common company, and each common company has a row in
    it. *)
Theorem saved_companies (loaded : list (string * Loaded))
    (metadata : list (string * Meta)) (common : gset cell) :
  1 <= min_years ->
  load_datasets read_input DATASETS target_years min_years
                include_consolidated [] [] = Ok (loaded, metadata) ->
  set_intersection ((fun km => m_coverage km.2) <$> metadata) = Ok common ->
  Forall (fun kl : string * Loaded =>
            exists t,
              filter_for_companies_and_years
                (l_df kl.2) (l_company_col kl.2) (l_year_col kl.2)
                common target_years = Ok t
              /\ forall c,
                   c ∈ common
                   <-> exists r, r ∈ rows t
                                 /\ cell_at r (l_company_col kl.2) = c)
         loaded.
Proof.
  intros Hmin Hload Hcommon.
  pose proof (load_datasets_usable read_input target_years min_years
                include_consolidated DATASETS DATASETS [] [] loaded metadata
                ltac:(done) ltac:(constructor) Hload) as Hus.
  pose proof (load_datasets_recorded read_input target_years min_years
                include_consolidated DATASETS [] [] loaded metadata
                ltac:(constructor) Hload) as Hrec.
  apply Forall_forall. intros kl Hkl.
  rewrite Forall_forall in Hus. destruct (Hus kl Hkl) as [Hu Hcfg].
  destruct (usable_filter_Ok target_years kl.2 common Hu) as (t & Ht).
  exists t. split; [done|].
  pose proof DATASETS_plain as Hplain. rewrite Forall_forall in Hplain.
  pose proof (usable_plain kl.2 Hu (Hplain _ Hcfg)) as Hcols.
  apply list_elem_of_lookup_1 in Hkl as [i Hi].
  destruct (Forall2_lookup_l _ _ _ _ _ Hrec Hi) as (km & Hkm & Hr).
  destruct Hr as (_ & _ & _ & Hcov).
  intros c. split.
  - intros Hc.
    apply (covered_rows_kept (l_df kl.2) (l_company_col kl.2)
             (l_year_col kl.2) common target_years min_years
             (m_coverage km.2) t c); try done.
    apply (proj1 (elem_of_set_intersection _ _ c Hcommon) Hc).
    apply list_elem_of_fmap. exists km. split; [done|].
    by eapply list_elem_of_lookup_2.
  - intros (r & Hr & <-).
    apply (filter_retained (l_df kl.2) (l_company_col kl.2)
             (l_year_col kl.2) common target_years t); [|done|done].
    intros y Hy. destruct (l_year_col kl.2) as [yc|]; [|done].
    by destruct (Hcols yc eq_refl).
Qed.

End ProcessOutputs.

(** * Further properties of merge_filtered.py *)

Section SpineContent.

Lemma build_spine_parts_Err dfs key_cols e :
  build_spine_parts dfs key_cols = Err e ->
  e = KeyError
  /\ exists df c, df ∈ dfs /\ c ∈ key_cols /\ c ∉ columns df.
Proof.
  induction dfs as [|df dfs IH]; cbn [build_spine_parts]; [done|].
  case_decide as Hcols.
  - destruct (build_spine_parts dfs key_cols) as [parts|e']; [done|].
    cbn [res_bind]. intros [= <-].
    destruct (IH eq_refl) as (-> & df' & c & Hdf & Hc & Hno).
    split; [done|]. exists df', c. split; [by right|done].
  - intros [= <-]. split; [done|].
    apply not_Forall_Exists in Hcols; [|apply _].
    apply Exists_exists in Hcols as (c & Hc & Hno).
    exists df, c. split; [left|done].
Qed.

Lemma build_spine_parts_inv dfs key_cols parts :
  build_spine_parts dfs key_cols = Ok parts ->
  (forall df, df ∈ dfs -> forall c, c ∈ key_cols -> c ∈ columns df)
  /\ parts = (fun df => drop_duplicates (project df key_cols)) <$> dfs.
Proof.
  intros Hparts.
  assert (Hcols : forall df, df ∈ dfs ->
                  forall c, c ∈ key_cols -> c ∈ columns df).
  { revert parts Hparts. induction dfs as [|df dfs IH]; intros parts;
      cbn [build_spine_parts]; [by intros _ ? ?%elem_of_nil|].
    case_decide as Hcols; [|done].
    destruct (build_spine_parts dfs key_cols) as [parts'|]; [|done].
    intros _ df' [->|Hdf']%elem_of_cons c Hc.
    - by apply (proj1 (Forall_forall _ _) Hcols).
    - by apply (IH parts' eq_refl). }
  split; [done|]. rewrite build_spine_parts_Ok in Hparts by done.
  by injection Hparts.
Qed.

(** X12.  [build_spine] returns exactly when it is given at least one
    source and every source carries every key column.  A source without
    a key column raises [KeyError]; an empty list of sources raises
    [ValueError], from [pd.concat]. *)
Theorem build_spine_outcome (dfs : list DataFrame) (key_cols : list string) :
  match build_spine dfs key_cols with
  | Ok spine =>
      dfs ≠ []
      /\ forall df, df ∈ dfs -> forall c, c ∈ key_cols -> c ∈ columns df
  | Err e =>
      (e = KeyError
       /\ exists df c, df ∈ dfs /\ c ∈ key_cols /\ c ∉ columns df)
      \/ (e = ValueError /\ dfs = [])
  end.
Proof.
  unfold build_spine.
  destruct (build_spine_parts dfs key_cols) as [parts|e] eqn:Hparts.
  - apply build_spine_parts_inv in Hparts as [Hcols ->]. cbn [res_bind].
    destruct dfs as [|df dfs]; cbn [fmap list_fmap concat_frames res_bind].
    + by right.
    + done.
  - cbn [res_bind]. left. by apply build_spine_parts_Err.
Qed.

Lemma build_spine_inv dfs key_cols spine :
  build_spine dfs key_cols = Ok spine ->
  dfs ≠ []
  /\ (forall df, df ∈ dfs -> forall c, c ∈ key_cols -> c ∈ columns df)
  /\ spine
     = drop_duplicates
         (mkDF (keep_first id []
                  (concat (columns
                             <$> ((fun df => drop_duplicates
                                               (project df key_cols))
                                    <$> dfs))))
               (concat (rows
                          <$> ((fun df => drop_duplicates
                                            (project df key_cols))
                                 <$> dfs)))).
Proof.
  unfold build_spine. intros Hspine.
  destruct (build_spine_parts dfs key_cols) as [parts|e] eqn:Hparts; [|done].
  apply build_spine_parts_inv in Hparts as [Hcols ->].
  cbn [res_bind] in Hspine. destruct dfs as [|df dfs]; [done|].
  split; [done|]. split; [done|].
  cbn [fmap list_fmap concat_frames res_bind] in Hspine.
  by injection Hspine as <-.
Qed.

(** X13.  The spine has the key columns and holds exactly the keys of
    its sources: every key of a spine row is the key of a row of some
    source, and every key of a source row is in the spine. *)
Theorem build_spine_keys (dfs : list DataFrame) (key_cols : list string)
    (spine : DataFrame) :
  build_spine dfs key_cols = Ok spine ->
  (forall c, c ∈ columns spine <-> c ∈ key_cols)
  /\ forall k,
       k ∈ row_key key_cols <$> rows spine
       <-> exists df, df ∈ dfs /\ k ∈ row_key key_cols <$> rows df.
Proof.
  intros (Hne & Hcols & ->)%build_spine_inv.
  set (parts := (fun df => drop_duplicates (project df key_cols)) <$> dfs).
  set (cols := keep_first id [] (concat (columns <$> parts))).
  set (all := concat (rows <$> parts)).
  assert (Hcolsiff : forall c, c ∈ cols <-> c ∈ key_cols).
  { intros c. apply concat_columns_parts; [by destruct dfs|].
    intros part (df & -> & _)%list_elem_of_fmap. done. }
  split; [exact Hcolsiff|].
  assert (Hsame : forall a b,
             row_key cols a = row_key cols b
             <-> row_key key_cols a = row_key key_cols b).
  { intros a b. rewrite !row_key_eq. split; intros Hab c Hc;
      apply Hab; by apply Hcolsiff. }
  assert (Hall : forall r, r ∈ all
            <-> exists df, df ∈ dfs
                  /\ r ∈ rows (drop_duplicates (project df key_cols))).
  { intros r. unfold all. rewrite list_elem_of_concat. split.
    - intros (l & Hl & Hr). apply list_elem_of_fmap in Hl as (p & -> & Hp).
      apply list_elem_of_fmap in Hp as (df & -> & Hdf). by exists df.
    - intros (df & Hdf & Hr). eexists. split; [|exact Hr].
      apply list_elem_of_fmap. eexists. split; [done|].
      apply list_elem_of_fmap. by exists df. }
  intros k. unfold drop_duplicates at 1. cbn [rows columns].
  rewrite list_elem_of_fmap. split.
  - intros (r & -> & Hr). apply elem_of_keep_first in Hr as [Hr _].
    apply Hall in Hr as (df & Hdf & Hr). exists df. split; [done|].
    unfold drop_duplicates in Hr. cbn [rows columns project] in Hr.
    apply elem_of_keep_first in Hr as [Hr _].
    apply list_elem_of_fmap in Hr as (r0 & -> & Hr0).
    rewrite row_key_project_row. apply list_elem_of_fmap. by exists r0.
  - intros (df & Hdf & (r0 & -> & Hr0)%list_elem_of_fmap).
    set (p := (list_to_map ((fun c => (c, cell_at r0 c)) <$> key_cols)
               : gmap string cell)).
    destruct (keep_first_covers (row_key key_cols) []
                (rows (project df key_cols)) p) as (r1 & Hr1 & Hk1).
    { cbn [rows project]. apply list_elem_of_fmap. by exists r0. }
    { by intros ?%elem_of_nil. }
    assert (Hin : r1 ∈ all).
    { apply Hall. exists df. split; [done|]. exact Hr1. }
    destruct (keep_first_covers (row_key cols) [] all r1 Hin)
      as (r2 & Hr2 & Hk2); [by intros ?%elem_of_nil|].
    exists r2. split; [|done].
    apply Hsame in Hk2. rewrite Hk2, Hk1. unfold p.
    by rewrite row_key_project_row.
Qed.

End SpineContent.

Section MergeErrors.

Lemma NoDup_fst_eq {A B} (l : list (A * B)) x y1 y2 :
  NoDup l.*1 -> (x, y1) ∈ l -> (x, y2) ∈ l -> y1 = y2.
Proof.
  induction l as [|[a b] l IH]; [by intros _ ?%elem_of_nil|].
  cbn [fmap list_fmap fst]. intros [Ha Hnd]%NoDup_cons.
  intros [[= -> ->]|H1]%elem_of_cons [[= ->]|H2]%elem_of_cons.
  - done.
  - exfalso. apply Ha. apply list_elem_of_fmap. by exists (a, y2).
  - subst. exfalso. apply Ha. apply list_elem_of_fmap. by exists (a, y1).
  - by apply IH.
Qed.

Lemma first_fallback_cases df names current :
  first_fallback df names current ∈ current :: names.
Proof.
  induction names as [|n names IH]; cbn [first_fallback]; [left|].
  case_decide; [right; left|].
  apply elem_of_cons in IH as [->|?]; [left|by do 2 right].
Qed.

Lemma resolve_date_col_cases df declared :
  resolve_date_col df declared ∈ declared :: fallbacks.
Proof.
  unfold resolve_date_col. case_decide; [left|apply first_fallback_cases].
Qed.

Lemma spine_source_inv k df declared s :
  date_map k = Some declared ->
  spine_source df declared = Ok s ->
  "Symbol" ∈ columns df /\ columns s = ["Symbol"; "Date"].
Proof.
  intros Hk. unfold spine_source. case_decide as Hcols; [|done].
  intros [= <-]. apply Forall_cons in Hcols as [Hsym Hcols].
  apply Forall_cons in Hcols as [Hact _]. split; [done|].
  destruct (date_map_not_key k declared _ Hk
              (resolve_date_col_cases df declared)) as [HnS HnD].
  rewrite rename_present by (cbn [columns project]; right; left).
  cbn [columns project fmap list_fmap].
  unfold rename_label. rewrite decide_False by done.
  by rewrite decide_True.
Qed.

Lemma spine_source_Err df declared e :
  spine_source df declared = Err e -> e = KeyError.
Proof. unfold spine_source. case_decide; [done|]. by intros [= <-]. Qed.

Lemma spine_sources_Err dfs ks e :
  spine_sources dfs ks = Err e -> e = KeyError.
Proof.
  induction ks as [|k ks IH]; cbn [spine_sources]; [done|].
  destruct (date_map k) as [declared|]; [|done].
  destruct (list_find _ dfs) as [[i [k' df]]|]; [|done].
  destruct (spine_source df declared) as [s|e'] eqn:Hs.
  - cbn [res_bind]. destruct (spine_sources dfs ks); [done|].
    cbn [res_bind]. intros [= <-]. by apply IH.
  - cbn [res_bind]. intros [= <-]. by apply spine_source_Err in Hs.
Qed.

Lemma spine_sources_inv (dfs : list (source * DataFrame)) ks srcs :
  NoDup dfs.*1 ->
  spine_sources dfs ks = Ok srcs ->
  Forall (fun s => columns s = ["Symbol"; "Date"]) srcs
  /\ forall k df, k ∈ ks -> is_Some (date_map k) -> (k, df) ∈ dfs ->
                  "Symbol" ∈ columns df.
Proof.
  intros Hnd. revert srcs. induction ks as [|k ks IH]; intros srcs;
    cbn [spine_sources].
  - intros [= <-]. split; [constructor|]. by intros k df ?%elem_of_nil.
  - destruct (date_map k) as [declared|] eqn:Hk.
    + destruct (list_find (fun kd => kd.1 = k) dfs) as [[i [k' df]]|]
        eqn:Hfind.
      * apply list_find_Some in Hfind as (Hi & Hk' & _). cbn [fst] in Hk'.
        subst k'. apply list_elem_of_lookup_2 in Hi.
        destruct (spine_source df declared) as [s|] eqn:Hs; [|done].
        cbn [res_bind].
        destruct (spine_sources dfs ks) as [rest|]; [|done].
        cbn [res_bind]. intros [= <-].
        destruct (IH rest eq_refl) as [Hcols Hsym].
        apply (spine_source_inv k) in Hs as [Hs1 Hs2]; [|done].
        split; [by constructor|].
        intros k' df' [->|Hin]%elem_of_cons Hsome Hdf'; [|by eapply Hsym].
        by rewrite (NoDup_fst_eq dfs k df' df Hnd Hdf' Hi).
      * apply list_find_None in Hfind. intros Hrest.
        destruct (IH srcs Hrest) as [Hcols Hsym]. split; [done|].
        intros k' df' [->|Hin]%elem_of_cons Hsome Hdf'; [|by eapply Hsym].
        exfalso. rewrite Forall_forall in Hfind. by apply (Hfind _ Hdf').
    + intros Hrest. destruct (IH srcs Hrest) as [Hcols Hsym].
      split; [done|].
      intros k' df' [->|Hin]%elem_of_cons Hsome Hdf'; [|by eapply Hsym].
      rewrite Hk in Hsome. by destruct Hsome.
Qed.

Lemma spine_sources_cols (dfs : list (source * DataFrame)) ks srcs :
  spine_sources dfs ks = Ok srcs ->
  Forall (fun s => columns s = ["Symbol"; "Date"]) srcs.
Proof.
  revert srcs. induction ks as [|k ks IH]; intros srcs;
    cbn [spine_sources]; [by intros [= <-]|].
  destruct (date_map k) as [declared|] eqn:Hk; [|apply IH].
  destruct (list_find _ _) as [[i [k' df]]|]; [|apply IH].
  destruct (spine_source df declared) as [s0|] eqn:Hs0; [|done].
  cbn [res_bind]. destruct (spine_sources _ ks) as [rest|]; [|done].
  cbn [res_bind]. intros [= <-]. constructor; [|by apply IH].
  by apply (spine_source_inv k) in Hs0 as [_ ?].
Qed.

Lemma spine_of_Err dfs e : spine_of dfs = Err e -> e = KeyError.
Proof.
  unfold spine_of.
  destruct (spine_sources _ _) as [srcs|e'] eqn:Hsrcs.
  - cbn [res_bind]. apply spine_sources_cols in Hsrcs.
    destruct srcs as [|s srcs]; [done|]. intros Herr. exfalso.
    destruct (build_spine_labels (s :: srcs) ["Symbol"; "Date"])
      as (sp & Hsp & _); [done|done|].
    by rewrite Hsp in Herr.
  - cbn [res_bind]. intros [= <-]. by apply spine_sources_Err in Hsrcs.
Qed.

Lemma merge_left_Err left right on e :
  merge_left left right on = Err e -> e = KeyError \/ e = ValueError.
Proof.
  unfold merge_left. repeat case_decide; try done; intros [= <-]; auto.
Qed.

Lemma join_sources_Err merged dfs e :
  join_sources merged dfs = Err e -> e = KeyError \/ e = ValueError.
Proof.
  revert merged. induction dfs as [|[k df] dfs IH]; intros merged;
    cbn [join_sources]; [done|].
  destruct (merge_left _ _ _) as [m|e'] eqn:Hm; cbn [res_bind].
  - apply IH.
  - intros [= <-]. by apply merge_left_Err in Hm.
Qed.

Lemma load_available_nil avail :
  load_available avail = [] <-> forall k, avail k = None.
Proof.
  split.
  - intros Hnil k. destruct (avail k) as [df|] eqn:Hk; [|done].
    apply elem_of_load_available in Hk. rewrite Hnil in Hk.
    by apply elem_of_nil in Hk.
  - intros Hnone. unfold load_available, files. cbn [omap list_omap].
    by rewrite !Hnone.
Qed.

(** X14.  [merge_filtered] raises [FileNotFoundError] exactly when none
    of the five files is there; every other failure is a [KeyError] or a
    [ValueError]. *)
Theorem merge_filtered_errors (avail : source -> option DataFrame) :
  (merge_filtered avail = Err FileNotFoundError
   <-> forall k, avail k = None)
  /\ forall e, merge_filtered avail = Err e ->
       e = FileNotFoundError \/ e = KeyError \/ e = ValueError.
Proof.
  assert (Hsome : forall e, load_available avail ≠ [] ->
            merge_filtered avail = Err e -> e = KeyError \/ e = ValueError).
  { intros e Hne. unfold merge_filtered, merge_loaded.
    destruct (load_available avail) as [|kd dfs]; [done|].
    destruct (spine_of _) as [spine|e'] eqn:Hsp; cbn [res_bind].
    - apply join_sources_Err.
    - intros [= <-]. left. by apply spine_of_Err in Hsp. }
  split.
  - split.
    + intros Herr. apply load_available_nil.
      destruct (load_available avail) as [|kd dfs] eqn:Hl; [done|].
      exfalso. destruct (Hsome FileNotFoundError) as [?|?]; done.
    + intros Hnone%load_available_nil. unfold merge_filtered.
      by rewrite Hnone.
  - intros e Herr.
    destruct (load_available avail) as [|kd dfs] eqn:Hl.
    + left. unfold merge_filtered in Herr. rewrite Hl in Herr.
      by injection Herr.
    + right. by apply Hsome.
Qed.

Lemma add_symbol_none df :
  "Stkcd" ∉ columns df -> "Symbol" ∉ columns df -> add_symbol df = df.
Proof. intros H1 H2. unfold add_symbol. by rewrite !decide_False. Qed.

Lemma prepare_no_symbol k df :
  "Symbol" ∉ columns df ->
  (forall declared, date_map k = Some declared ->
                    "Symbol" ∉ columns (rename df (resolve_date_col df declared)
                                               "Date")) ->
  "Symbol" ∉ columns (prepare k df).
Proof.
  intros Hno Hren. unfold prepare. rewrite truthy_date_map.
  set (temp := match date_map k with Some d => _ | None => df end).
  assert (Htemp : "Symbol" ∉ columns temp).
  { unfold temp. destruct (date_map k); [by apply Hren|done]. }
  cbn [columns relabel]. intros (c & Hc & Hin)%list_elem_of_fmap.
  unfold prefix_label in Hc. case_decide as Hkey.
  - by subst c.
  - by apply (key_label_not_prefixed k c "Symbol"); [left|].
Qed.

(** X15.  A file that has neither a "Stkcd" nor a "Symbol" column makes
    [merge_filtered] raise [KeyError], whatever the other files hold. *)
Theorem merge_needs_company_col (avail : source -> option DataFrame)
    (k : source) (df : DataFrame) :
  avail k = Some df ->
  "Stkcd" ∉ columns df -> "Symbol" ∉ columns df ->
  merge_filtered avail = Err KeyError.
Proof.
  intros Hk HnoS HnoY. unfold merge_filtered, merge_loaded.
  pose proof (proj2 (elem_of_load_available avail k df) Hk) as Hin.
  destruct (load_available avail) as [|kd0 dfs0] eqn:Hl;
    [by apply elem_of_nil in Hin|].
  rewrite <- Hl in *.
  set (dfs' := prod_map id add_symbol <$> load_available avail).
  assert (Hin' : (k, df) ∈ dfs').
  { unfold dfs'. apply list_elem_of_fmap. exists (k, df).
    split; [|done]. cbn [prod_map fst snd id]. by rewrite add_symbol_none. }
  assert (Hnd : NoDup dfs'.*1).
  { unfold dfs'. rewrite <- list_fmap_compose.
    assert (Hfst : fst ∘ prod_map id add_symbol <$> load_available avail
                   = (load_available avail).*1);
      [|rewrite Hfst; apply NoDup_load_available].
    apply list_fmap_ext. by intros ? [] ?. }
  destruct (spine_of (load_available avail)) as [spine|e] eqn:Hsp;
    cbn [res_bind]; [|by apply spine_of_Err in Hsp; subst e].
  unfold spine_of in Hsp. fold dfs' in Hsp.
  destruct (spine_sources dfs' date_map_keys) as [srcs|] eqn:Hsrcs; [|done].
  destruct (spine_sources_inv dfs' date_map_keys srcs Hnd Hsrcs)
    as [_ Hsym].
  destruct (date_map k) as [declared|] eqn:Hdate.
  { exfalso. apply HnoY. apply (Hsym k df); [|by rewrite Hdate|done].
    destruct k; try done; unfold date_map_keys; set_solver. }
  assert (k = cg_co) by (by destruct k). subst k.
  fold dfs'. unfold dfs', load_available, files.
  cbn [omap list_omap]. rewrite Hk. cbn [fmap option_fmap option_map].
  cbn [list_fmap prod_map fst snd id join_sources].
  rewrite add_symbol_none by done.
  unfold merge_left. rewrite decide_False; [done|].
  intros [[_ Hright] _]%Forall_cons. revert Hright.
  apply prepare_no_symbol; [done|]. by intros declared [=].
Qed.

End MergeErrors.

Section MergeContent.

Lemma suffix_label_nil sfx c : suffix_label [] sfx c = c.
Proof.
  unfold suffix_label. rewrite decide_False; [done|]. by intros ?%elem_of_nil.
Qed.

Lemma suffix_label_nil_inj sfx : Inj (=) (=) (suffix_label [] sfx).
Proof. intros a b. by rewrite !suffix_label_nil. Qed.

(** The join of a prepared source onto the running table: no label
    clashes, so no suffix is given. *)
Lemma merge_left_plain merged ks k right :
  merged_labels merged ks -> prepared_labels k right -> k ∉ ks ->
  merge_left merged right (join_labels k)
  = Ok (mkDF (columns merged
                ++ filter (fun c => c ∉ join_labels k) (columns right))%list
             (concat (merge_rows (join_labels k) (suffix_label [] "_x")
                        (suffix_label [] "_y")
                        (filter (fun c => c ∉ join_labels k)
                                (columns right))
                        (rows right)
                        <$> rows merged))).
Proof.
  intros Hm Hp Hk.
  pose proof (fun c => no_overlap merged ks k right c Hm Hp Hk) as Hno.
  destruct Hm as (Hnd & Hsym & Hdate & Hown).
  destruct Hp as (Hndr & Hon & Hright).
  unfold merge_left.
  rewrite decide_True.
  2:{ apply Forall_forall. intros c Hc. split; [|by apply Hon].
      by destruct (join_labels_cases k c Hc) as [->| ->]. }
  rewrite decide_True.
  2:{ apply Forall_forall. intros c Hc.
      split; apply unique_label_NoDup; try done; [|by apply Hon].
      by destruct (join_labels_cases k c Hc) as [->| ->]. }
  assert (Hov : filter (fun c => c ∈ columns right ∧ c ∉ join_labels k)
                       (columns merged) = []).
  { destruct (filter _ (columns merged)) as [|c cs] eqn:Hf; [done|].
    assert (Hc : c ∈ filter
                       (fun c => c ∈ columns right ∧ c ∉ join_labels k)
                       (columns merged)) by (rewrite Hf; left).
    apply list_elem_of_filter in Hc as [[Hr Hnot] Hl].
    exfalso. apply Hnot. by apply (Hno c). }
  rewrite Hov.
  assert (Hid : forall sfx (l : list string),
             suffix_label [] sfx <$> l = l).
  { intros sfx l. rewrite <- (list_fmap_id l) at 2.
    apply list_fmap_ext. intros _ c _. apply suffix_label_nil. }
  cbn zeta. rewrite !Hid.
  rewrite decide_True; [done|].
  apply NoDup_app. split; [done|]. split.
  - intros c Hl [Hnot Hr]%list_elem_of_filter. apply Hnot. by apply (Hno c).
  - by apply NoDup_filter.
Qed.

(** A row of the join agrees with the left row it comes from on every
    label that is not a new one. *)
Lemma merge_rows_left on rcols right_rows (l row : gmap string cell) c :
  c ∉ rcols ->
  row ∈ merge_rows on (suffix_label [] "_x") (suffix_label [] "_y") rcols
                   right_rows l ->
  cell_at row c = cell_at l c.
Proof.
  intros Hc Hrow.
  assert (Hkey : forall (vals : string -> cell),
            cell_at (kmap (M2 := gmap string) (suffix_label [] "_x") l
                     ∪ list_to_map ((fun c => (suffix_label [] "_y" c,
                                               vals c)) <$> rcols)) c
            = cell_at l c).
  { intros vals. unfold cell_at. rewrite lookup_union.
    rewrite <- (suffix_label_nil "_x" c) at 1.
    rewrite (lookup_kmap (suffix_label [] "_x")
               (Inj0 := suffix_label_nil_inj "_x")).
    assert (Hnone : (list_to_map ((fun c => (suffix_label [] "_y" c,
                                             vals c)) <$> rcols)
                     : gmap string cell) !! c = None).
    { apply not_elem_of_list_to_map_1. rewrite <- list_fmap_compose.
      intros (c' & Hc' & Hin)%list_elem_of_fmap. cbn in Hc'.
      rewrite suffix_label_nil in Hc'. by subst c'. }
    rewrite Hnone. by destruct (l !! c). }
  unfold merge_rows in Hrow.
  destruct (filter _ right_rows) as [|p ps].
  - apply list_elem_of_singleton in Hrow as ->. apply Hkey.
  - apply list_elem_of_fmap in Hrow as (r & -> & _).
    apply (Hkey (fun c => cell_at r c)).
Qed.

Lemma merge_rows_nonempty on lf rf rcols right_rows l :
  merge_rows on lf rf rcols right_rows l ≠ [].
Proof.
  unfold merge_rows. by destruct (filter _ right_rows) as [|p ps].
Qed.

(** One join keeps, under every list of labels of the running table,
    the set of value tuples. *)
Lemma merge_left_keeps merged ks k right merged' (cols : list string) :
  merged_labels merged ks -> prepared_labels k right -> k ∉ ks ->
  (forall c, c ∈ cols -> c ∈ columns merged) ->
  merge_left merged right (join_labels k) = Ok merged' ->
  forall key, key ∈ row_key cols <$> rows merged'
              <-> key ∈ row_key cols <$> rows merged.
Proof.
  intros Hm Hp Hk Hcols Hmerge.
  pose proof (fun c => no_overlap merged ks k right c Hm Hp Hk) as Hno.
  rewrite (merge_left_plain merged ks k right Hm Hp Hk) in Hmerge.
  injection Hmerge as <-. cbn [rows].
  set (rcols := filter (fun c => c ∉ join_labels k) (columns right)).
  assert (Hsame : forall l row,
            row ∈ merge_rows (join_labels k) (suffix_label [] "_x")
                             (suffix_label [] "_y") rcols (rows right) l ->
            row_key cols row = row_key cols l).
  { intros l row Hrow. apply row_key_eq. intros c Hc.
    apply (merge_rows_left (join_labels k) rcols (rows right) l row c);
      [|done].
    intros [Hnot Hr]%list_elem_of_filter. apply Hnot.
    apply (Hno c); [by apply Hcols|done]. }
  intros key. rewrite !list_elem_of_fmap. split.
  - intros (row & -> & Hrow). apply list_elem_of_concat in Hrow
      as (rs & Hrs & Hrow).
    apply list_elem_of_fmap in Hrs as (l & -> & Hl).
    exists l. split; [by apply Hsame|done].
  - intros (l & -> & Hl).
    destruct (merge_rows (join_labels k) (suffix_label [] "_x")
                (suffix_label [] "_y") rcols (rows right) l)
      as [|row rs] eqn:Hrows; [by apply merge_rows_nonempty in Hrows|].
    exists row. split.
    + symmetry. apply Hsame. rewrite Hrows. left.
    + apply list_elem_of_concat. exists (row :: rs). split; [|left].
      apply list_elem_of_fmap. by exists l.
Qed.

Lemma join_sources_content merged ks (dfs : list (source * DataFrame))
    merged' :
  merged_labels merged ks ->
  NoDup dfs.*1 ->
  (forall k, k ∈ dfs.*1 -> k ∉ ks) ->
  Forall (fun kd => prepared_labels kd.1 (prepare kd.1 kd.2)) dfs ->
  join_sources merged dfs = Ok merged' ->
  columns merged'
  = (columns merged
       ++ concat ((fun kd => filter (fun c => c ∉ join_labels kd.1)
                                    (columns (prepare kd.1 kd.2)))
                    <$> dfs))%list
  /\ forall key,
       key ∈ row_key ["Symbol"; "Date"] <$> rows merged'
       <-> key ∈ row_key ["Symbol"; "Date"] <$> rows merged.
Proof.
  revert merged ks. induction dfs as [|[k df] dfs IH];
    intros merged ks Hm Hnd Hnew Hprep; cbn [join_sources].
  - intros [= <-]. cbn [fmap list_fmap concat]. by rewrite app_nil_r.
  - apply Forall_cons in Hprep as [Hp Hprep]. cbn [fst snd] in Hp.
    cbn [fmap list_fmap fst] in Hnd. apply NoDup_cons in Hnd as [Hk Hnd].
    assert (Hkks : k ∉ ks) by (apply Hnew; left).
    destruct (merge_left_step merged ks k (prepare k df) Hm Hp Hkks)
      as (m1 & Hm1 & Hlabels).
    rewrite Hm1. cbn [res_bind]. intros Hrest.
    destruct (IH m1 (k :: ks) Hlabels Hnd) as [Hcols Hkeys]; [|done|done|].
    { intros k' Hk' [->|Hin]%elem_of_cons; [done|].
      apply (Hnew k'); [by right|done]. }
    split.
    + rewrite Hcols. pose proof Hm1 as Hm1'.
      rewrite (merge_left_plain merged ks k _ Hm Hp Hkks) in Hm1'.
      injection Hm1' as <-. cbn [columns fmap list_fmap concat fst snd].
      by rewrite <- app_assoc.
    + intros key. rewrite Hkeys.
      apply (merge_left_keeps merged ks k (prepare k df) m1); try done.
      destruct Hm as (_ & Hsym & Hdate & _).
      intros c [->|Hc]%elem_of_cons; [done|].
      by apply list_elem_of_singleton in Hc as ->.
Qed.

End MergeContent.

Section KeepFirstMore.
Context {A K : Type} `{EqDecision K}.
Variable f : A -> K.

Lemma keep_first_seen_ext seen seen' l :
  (forall k, k ∈ seen <-> k ∈ seen') ->
  keep_first f seen l = keep_first f seen' l.
Proof.
  revert seen seen'. induction l as [|x l IH]; intros seen seen' Hext;
    cbn [keep_first]; [done|].
  destruct (decide (f x ∈ seen)) as [Hin|Hin].
  - rewrite decide_True by (by apply Hext). by apply IH.
  - rewrite decide_False by (by rewrite <- Hext). f_equal. apply IH.
    intros k. rewrite !elem_of_cons. by rewrite Hext.
Qed.

Lemma keep_first_seen_all seen l :
  (forall x, x ∈ l -> f x ∈ seen) -> keep_first f seen l = [].
Proof.
  induction l as [|x l IH]; intros Hall; cbn [keep_first]; [done|].
  rewrite decide_True by (apply Hall; left).
  apply IH. intros y Hy. apply Hall. by right.
Qed.

Lemma keep_first_fresh seen l :
  NoDup (f <$> l) -> (forall x, x ∈ l -> f x ∉ seen) ->
  keep_first f seen l = l.
Proof.
  revert seen. induction l as [|x l IH]; intros seen Hnd Hfresh;
    cbn [keep_first]; [done|].
  cbn [fmap list_fmap] in Hnd. apply NoDup_cons in Hnd as [Hx Hnd].
  rewrite decide_False by (apply Hfresh; left). f_equal.
  apply IH; [done|]. intros y Hy [Heq|Hin]%elem_of_cons.
  - apply Hx. rewrite <- Heq. apply list_elem_of_fmap. by exists y.
  - apply (Hfresh y); [by right|done].
Qed.

Lemma keep_first_app seen l1 l2 :
  keep_first f seen (l1 ++ l2)
  = (keep_first f seen l1 ++ keep_first f ((f <$> l1) ++ seen) l2)%list.
Proof.
  revert seen. induction l1 as [|x l1 IH]; intros seen;
    cbn [keep_first app fmap list_fmap]; [done|].
  destruct (decide (f x ∈ seen)) as [Hin|Hin].
  - rewrite IH. f_equal. apply keep_first_seen_ext. intros k.
    rewrite !elem_of_app, !elem_of_cons, !elem_of_app.
    split; [tauto|]. intros [->|[?|?]]; tauto.
  - cbn [app]. f_equal. rewrite IH. f_equal.
    apply keep_first_seen_ext. intros k.
    rewrite !elem_of_app, !elem_of_cons, !elem_of_app. tauto.
Qed.

End KeepFirstMore.

Section SpineAgain.

Lemma concat_columns_exact (parts : list DataFrame) key_cols :
  parts ≠ [] -> NoDup key_cols ->
  (forall part, part ∈ parts -> columns part = key_cols) ->
  keep_first id [] (concat (columns <$> parts)) = key_cols.
Proof.
  intros Hne Hnd Hcols. destruct parts as [|p parts]; [done|].
  cbn [fmap list_fmap concat]. rewrite keep_first_app.
  rewrite (Hcols p) by left.
  rewrite keep_first_fresh;
    [|by rewrite list_fmap_id|by intros ? _ ?%elem_of_nil].
  rewrite keep_first_seen_all; [by rewrite app_nil_r|].
  intros c Hc. apply list_elem_of_concat in Hc as (cs & Hcs & Hc).
  apply list_elem_of_fmap in Hcs as (part & -> & Hpart).
  rewrite (Hcols part) in Hc by (by right).
  rewrite list_fmap_id. apply elem_of_app. by left.
Qed.

Lemma build_spine_columns dfs key_cols spine :
  NoDup key_cols -> build_spine dfs key_cols = Ok spine ->
  columns spine = key_cols.
Proof.
  intros Hnd (Hne & Hcols & ->)%build_spine_inv.
  unfold drop_duplicates. cbn [columns].
  apply concat_columns_exact; [by destruct dfs|done|].
  intros part (df & -> & _)%list_elem_of_fmap. done.
Qed.

Lemma project_again (cols : list string) (r : gmap string cell) :
  (list_to_map ((fun c => (c, cell_at (list_to_map
                                         ((fun c => (c, cell_at r c))
                                            <$> cols)
                                       : gmap string cell) c))
                  <$> cols) : gmap string cell)
  = list_to_map ((fun c => (c, cell_at r c)) <$> cols).
Proof.
  f_equal. apply list_fmap_ext. intros _ c Hc%list_elem_of_lookup_2.
  f_equal. by apply cell_at_project_row.
Qed.

(** X16.  [build_spine] leaves a spine it built unchanged: built again
    from the spine alone, with the same key columns, the result is the
    same table. *)
Theorem build_spine_idempotent (dfs : list DataFrame)
    (key_cols : list string) (spine : DataFrame) :
  NoDup key_cols ->
  build_spine dfs key_cols = Ok spine ->
  build_spine [spine] key_cols = Ok spine.
Proof.
  intros Hnd Hspine.
  pose proof (build_spine_columns dfs key_cols spine Hnd Hspine) as Hcols.
  apply build_spine_inv in Hspine as (Hne & Hin & Hdef).
  set (parts := (fun df => drop_duplicates (project df key_cols)) <$> dfs)
    in *.
  set (all := concat (rows <$> parts)) in *.
  assert (Hrows : rows spine = keep_first (row_key key_cols) [] all).
  { rewrite Hdef. unfold drop_duplicates at 1. cbn [rows columns].
    rewrite Hdef in Hcols. unfold drop_duplicates in Hcols at 1.
    cbn [columns] in Hcols. by rewrite Hcols. }
  assert (Hproj : forall r, r ∈ rows spine ->
            (list_to_map ((fun c => (c, cell_at r c)) <$> key_cols)
             : gmap string cell) = r).
  { intros r Hr. rewrite Hrows in Hr.
    apply elem_of_keep_first in Hr as [Hr _]. unfold all in Hr.
    apply list_elem_of_concat in Hr as (rs & Hrs & Hr).
    apply list_elem_of_fmap in Hrs as (p & -> & Hp).
    apply list_elem_of_fmap in Hp as (df & -> & Hdf).
    unfold drop_duplicates in Hr. cbn [rows columns project] in Hr.
    apply elem_of_keep_first in Hr as [Hr _].
    apply list_elem_of_fmap in Hr as (r0 & -> & _). apply project_again. }
  assert (Hsub : drop_duplicates (project spine key_cols) = spine).
  { unfold drop_duplicates, project. cbn [columns rows].
    assert (Hsame : (fun r : gmap string cell =>
                       (list_to_map ((fun c => (c, cell_at r c)) <$> key_cols)
                        : gmap string cell)) <$> rows spine = rows spine).
    { rewrite <- (list_fmap_id (rows spine)) at 2.
      apply list_fmap_ext. intros _ r Hr%list_elem_of_lookup_2.
      by apply Hproj. }
    rewrite Hsame. rewrite keep_first_fresh.
    - destruct spine as [cs rs]. cbn [columns rows] in *. by subst cs.
    - rewrite Hrows. apply keep_first_NoDup.
    - by intros ? _ ?%elem_of_nil. }
  unfold build_spine. cbn [build_spine_parts].
  rewrite decide_True.
  2:{ apply Forall_forall. intros c Hc. by rewrite Hcols. }
  cbn [res_bind]. rewrite Hsub.
  cbn [concat_frames res_bind fmap list_fmap concat].
  rewrite !app_nil_r. rewrite Hcols.
  rewrite keep_first_fresh;
    [|by rewrite list_fmap_id|by intros ? _ ?%elem_of_nil].
  unfold drop_duplicates. cbn [columns rows].
  rewrite keep_first_fresh.
  - destruct spine as [cs rs]. cbn [columns rows] in *. by subst cs.
  - rewrite Hrows. apply keep_first_NoDup.
  - by intros ? _ ?%elem_of_nil.
Qed.

End SpineAgain.

Section MergedTable.

Lemma spine_of_columns (dfs : list (source * DataFrame)) spine :
  spine_of dfs = Ok spine -> columns spine = ["Symbol"; "Date"].
Proof.
  unfold spine_of.
  destruct (spine_sources _ _) as [srcs|] eqn:Hsrcs; [|done].
  cbn [res_bind]. destruct srcs as [|s srcs]; [by intros [= <-]|].
  apply build_spine_columns. apply (bool_decide_unpack _). by vm_compute.
Qed.

Lemma merge_loaded_content (dfs : list (source * DataFrame)) merged spine :
  NoDup dfs.*1 -> Forall well_formed_source dfs ->
  merge_loaded dfs = Ok merged ->
  spine_of dfs = Ok spine ->
  columns merged = "Symbol" :: "Date" :: concat (brought <$> dfs)
  /\ forall key,
       key ∈ row_key ["Symbol"; "Date"] <$> rows merged
       <-> key ∈ row_key ["Symbol"; "Date"] <$> rows spine.
Proof.
  intros Hnd Hwf Hmerged Hspine. unfold merge_loaded in Hmerged.
  destruct dfs as [|kd dfs']; [done|]. set (dfs := kd :: dfs') in *.
  destruct (spine_of_labels dfs Hwf) as (spine' & Hsp & Hlabels).
  assert (spine' = spine) by congruence. subst spine'.
  rewrite Hspine in Hmerged. cbn [res_bind] in Hmerged.
  destruct (join_sources_content spine [] (prod_map id add_symbol <$> dfs)
              merged Hlabels) as [Hcols Hkeys]; try done.
  - rewrite <- list_fmap_compose.
    assert (Hfst : fst ∘ prod_map id add_symbol <$> dfs = dfs.*1);
      [|by rewrite Hfst].
    apply list_fmap_ext. by intros ? [] ?.
  - intros k _ ?%elem_of_nil. done.
  - apply Forall_fmap. eapply Forall_impl; [exact Hwf|].
    intros kd0 Hkd. apply (prepare_labels (prod_map id add_symbol kd0)).
    by apply add_symbol_ready.
  - split; [|done]. rewrite Hcols, (spine_of_columns dfs spine Hspine).
    rewrite <- list_fmap_compose.
    rewrite (list_fmap_ext _ brought dfs); [done|]. by intros ? [] ?.
Qed.

Lemma brought_prefixed kd c :
  well_formed_source kd -> c ∈ brought kd ->
  exists x, c = source_name kd.1 ++ "_" ++ x.
Proof.
  intros Hwf [Hnot Hc]%list_elem_of_filter.
  pose proof (prepare_labels (prod_map id add_symbol kd)
                (add_symbol_ready kd Hwf)) as (_ & _ & Hright).
  destruct kd as [k df]. cbn [prod_map fst snd id] in *.
  by destruct (Hright c Hc).
Qed.

(** X17.  The columns of the merged table, for well-formed files:
    "Symbol" and "Date", then, file by file in the order of [files], the
    columns the file brings in, each under the prefix of its file. *)
Theorem merged_columns (avail : source -> option DataFrame)
    (merged : DataFrame) :
  (forall k df, avail k = Some df -> well_formed_source (k, df)) ->
  merge_filtered avail = Ok merged ->
  columns merged
  = "Symbol" :: "Date" :: concat (brought <$> load_available avail)
  /\ forall kd c, kd ∈ load_available avail -> c ∈ brought kd ->
       exists x, c = source_name kd.1 ++ "_" ++ x.
Proof.
  intros Hwf Hmerged.
  assert (Hall : Forall well_formed_source (load_available avail)).
  { apply Forall_forall. intros [k df] Hin.
    apply elem_of_load_available in Hin. by apply Hwf. }
  split.
  - unfold merge_filtered in Hmerged.
    destruct (spine_of_labels _ Hall) as (spine & Hsp & _).
    by apply (merge_loaded_content _ merged spine
                (NoDup_load_available avail) Hall Hmerged Hsp).
  - intros kd c Hkd. apply brought_prefixed.
    by apply (proj1 (Forall_forall _ _) Hall).
Qed.

(** X18.  The merged table has exactly the keys of the spine: the joins
    neither drop a (Symbol, Date) pair of the spine nor add one. *)
Theorem merged_keys (avail : source -> option DataFrame)
    (merged spine : DataFrame) :
  (forall k df, avail k = Some df -> well_formed_source (k, df)) ->
  merge_filtered avail = Ok merged ->
  spine_of (load_available avail) = Ok spine ->
  forall key,
    key ∈ row_key ["Symbol"; "Date"] <$> rows merged
    <-> key ∈ row_key ["Symbol"; "Date"] <$> rows spine.
Proof.
  intros Hwf Hmerged Hspine.
  assert (Hall : Forall well_formed_source (load_available avail)).
  { apply Forall_forall. intros [k df] Hin.
    apply elem_of_load_available in Hin. by apply Hwf. }
  by apply (merge_loaded_content _ merged spine
              (NoDup_load_available avail) Hall Hmerged Hspine).
Qed.

End MergedTable.

(** ** A source read through a fallback date column *)

Section FallbackMerge.

(** Every key of a source is a key of the spine built from it. *)
Lemma build_spine_covers (dfs : list DataFrame) (key_cols : list string)
    (spine df : DataFrame) (r : gmap string cell) :
  build_spine dfs key_cols = Ok spine -> df ∈ dfs -> r ∈ rows df ->
  row_key key_cols r ∈ row_key key_cols <$> rows spine.
Proof.
  intros (Hne & Hcols & ->)%build_spine_inv Hdf Hr.
  set (parts := (fun df => drop_duplicates (project df key_cols)) <$> dfs).
  set (cols := keep_first id [] (concat (columns <$> parts))).
  set (all := concat (rows <$> parts)).
  assert (Hcolsiff : forall c, c ∈ cols <-> c ∈ key_cols).
  { intros c. apply concat_columns_parts; [by destruct dfs|].
    intros part (df' & -> & _)%list_elem_of_fmap. done. }
  assert (Hsame : forall a b,
             row_key cols a = row_key cols b
             <-> row_key key_cols a = row_key key_cols b).
  { intros a b. rewrite !row_key_eq. split; intros Hab c Hc;
      apply Hab; by apply Hcolsiff. }
  set (p := (list_to_map ((fun c => (c, cell_at r c)) <$> key_cols)
             : gmap string cell)).
  destruct (keep_first_covers (row_key key_cols) []
              (rows (project df key_cols)) p) as (r1 & Hr1 & Hk1).
  { cbn [rows project]. apply list_elem_of_fmap. by exists r. }
  { by intros ?%elem_of_nil. }
  assert (Hin : r1 ∈ all).
  { unfold all. apply list_elem_of_concat.
    exists (rows (drop_duplicates (project df key_cols))).
    split; [|exact Hr1]. apply list_elem_of_fmap. eexists. split; [done|].
    apply list_elem_of_fmap. by exists df. }
  destruct (keep_first_covers (row_key cols) [] all r1 Hin)
    as (r2 & Hr2 & Hk2); [by intros ?%elem_of_nil|].
  unfold drop_duplicates at 1. cbn [rows columns].
  apply list_elem_of_fmap. exists r2. split; [|done].
  apply Hsame in Hk2. rewrite Hk2, Hk1. unfold p.
  by rewrite row_key_project_row.
Qed.

(** The spine sources hold the key table of every dated source. *)
Lemma spine_sources_member (dfs : list (source * DataFrame)) ks srcs k df
    declared :
  NoDup dfs.*1 ->
  spine_sources dfs ks = Ok srcs ->
  k ∈ ks -> date_map k = Some declared -> (k, df) ∈ dfs ->
  exists s, spine_source df declared = Ok s /\ s ∈ srcs.
Proof.
  intros Hnd. revert srcs. induction ks as [|k' ks IH]; intros srcs;
    cbn [spine_sources]; [by intros _ ?%elem_of_nil|].
  intros Hsrcs Hk Hdecl Hdf.
  destruct (date_map k') as [declared'|] eqn:Hk'.
  - destruct (list_find (fun kd => kd.1 = k') dfs) as [[i [k0 df0]]|]
      eqn:Hfind.
    + apply list_find_Some in Hfind as (Hi & Hk0 & _). cbn [fst] in Hk0.
      subst k0. apply list_elem_of_lookup_2 in Hi.
      destruct (spine_source df0 declared') as [s0|] eqn:Hs0; [|done].
      cbn [res_bind] in Hsrcs.
      destruct (spine_sources dfs ks) as [rest|]; [|done].
      cbn [res_bind] in Hsrcs. injection Hsrcs as <-.
      apply elem_of_cons in Hk as [->|Hk].
      * assert (declared' = declared) by congruence. subst declared'.
        rewrite (NoDup_fst_eq dfs k' df df0 Hnd Hdf Hi).
        exists s0. split; [done|left].
      * destruct (IH rest eq_refl Hk Hdecl Hdf) as (s & Hs & Hin).
        exists s. split; [done|by right].
    + apply elem_of_cons in Hk as [->|Hk]; [|by apply IH].
      exfalso. apply list_find_None in Hfind.
      rewrite Forall_forall in Hfind. by apply (Hfind _ Hdf).
  - apply elem_of_cons in Hk as [->|Hk]; [congruence|by apply IH].
Qed.

(** The keys of a dated source, as the spine and as the join read them:
    the "Symbol" cell and the cell of the resolved date column. *)
Lemma row_key_spine_source k df declared s :
  date_map k = Some declared ->
  spine_source df declared = Ok s ->
  row_key ["Symbol"; "Date"] <$> rows s
  = (fun r => [cell_at r "Symbol";
               cell_at r (resolve_date_col df declared)]) <$> rows df.
Proof.
  intros Hk. unfold spine_source. case_decide as Hcols; [|done].
  intros [= <-].
  destruct (date_map_not_key k declared _ Hk
              (resolve_date_col_cases df declared)) as [HnS HnD].
  set (actual := resolve_date_col df declared) in *.
  rewrite rename_present by (cbn [columns project]; right; left).
  cbn [rows project]. rewrite <- !list_fmap_compose.
  apply list_fmap_ext. intros _ r _. unfold compose, row_key.
  cbn [fmap list_fmap list_to_map foldr fst snd].
  rewrite lookup_insert_ne by done. rewrite lookup_insert_eq.
  unfold cell_at.
  rewrite lookup_insert_ne by done.
  rewrite lookup_delete_ne by done. rewrite lookup_insert_eq.
  by rewrite lookup_insert_eq.
Qed.

Lemma row_key_prepare k df declared :
  date_map k = Some declared ->
  resolve_date_col df declared ∈ columns df ->
  row_key ["Symbol"; "Date"] <$> rows (prepare k df)
  = (fun r => [cell_at r "Symbol";
               cell_at r (resolve_date_col df declared)]) <$> rows df.
Proof.
  intros Hk Hin.
  destruct (date_map_not_key k declared _ Hk
              (resolve_date_col_cases df declared)) as [HnS HnD].
  set (actual := resolve_date_col df declared) in *.
  unfold prepare. rewrite truthy_date_map, Hk. fold actual.
  rewrite rename_present by done.
  unfold relabel. cbn [rows]. rewrite <- !list_fmap_compose.
  apply list_fmap_ext. intros _ r _. unfold compose, row_key.
  cbn [fmap list_fmap].
  assert (Hjl : join_labels k = ["Symbol"; "Date"]).
  { unfold join_labels. by rewrite truthy_date_map, Hk. }
  assert (HS : prefix_label k (join_labels k) "Symbol" = "Symbol").
  { unfold prefix_label. rewrite decide_True; [done|]. rewrite Hjl. left. }
  assert (HD : prefix_label k (join_labels k) "Date" = "Date").
  { unfold prefix_label. rewrite decide_True; [done|].
    rewrite Hjl. right; left. }
  unfold cell_at. rewrite <- HS at 1. rewrite <- HD at 1.
  rewrite !(lookup_kmap (prefix_label k (join_labels k))
              (Inj0 := prefix_label_inj k)).
  destruct (r !! actual) as [v|] eqn:Hv.
  - rewrite lookup_insert_ne by done. rewrite lookup_delete_ne by done.
    by rewrite lookup_insert_eq.
  - rewrite lookup_delete_ne by done. by rewrite lookup_delete_eq.
Qed.

(** The spine holds every key of every dated source. *)
Lemma spine_of_covers (dfs : list (source * DataFrame)) spine k df declared :
  NoDup dfs.*1 ->
  spine_of dfs = Ok spine ->
  (k, df) ∈ dfs -> date_map k = Some declared ->
  resolve_date_col (add_symbol df) declared ∈ columns (add_symbol df) ->
  forall key,
    key ∈ row_key ["Symbol"; "Date"] <$> rows (prepare k (add_symbol df)) ->
    key ∈ row_key ["Symbol"; "Date"] <$> rows spine.
Proof.
  intros Hnd Hspine Hdf Hk Hin key Hkey. unfold spine_of in Hspine.
  set (dfs' := prod_map id add_symbol <$> dfs) in *.
  assert (Hnd' : NoDup dfs'.*1).
  { unfold dfs'. rewrite <- list_fmap_compose.
    assert (Hfst : fst ∘ prod_map id add_symbol <$> dfs = dfs.*1);
      [|by rewrite Hfst].
    apply list_fmap_ext. by intros ? [] ?. }
  assert (Hdf' : (k, add_symbol df) ∈ dfs').
  { unfold dfs'. apply list_elem_of_fmap. by exists (k, df). }
  destruct (spine_sources dfs' date_map_keys) as [srcs|] eqn:Hsrcs; [|done].
  cbn [res_bind] in Hspine.
  destruct (spine_sources_member dfs' date_map_keys srcs k (add_symbol df)
              declared Hnd' Hsrcs) as (s & Hs & Hsin); try done.
  { destruct k; try done; unfold date_map_keys; set_solver. }
  destruct srcs as [|s0 srcs0] eqn:Hsrcs0; [by apply elem_of_nil in Hsin|].
  rewrite <- Hsrcs0 in *.
  rewrite (row_key_prepare k _ declared Hk Hin) in Hkey.
  rewrite <- (row_key_spine_source k _ declared s Hk Hs) in Hkey.
  apply list_elem_of_fmap in Hkey as (r & -> & Hr).
  by apply (build_spine_covers srcs ["Symbol"; "Date"] spine s r).
Qed.

(** A column of a source other than its keys is brought into the merged
    table under the prefix of the source. *)
Lemma brought_label k df declared c :
  date_map k = Some declared ->
  resolve_date_col df declared ∈ columns df ->
  c ∈ columns df -> c ≠ resolve_date_col df declared ->
  c ≠ "Symbol" -> c ≠ "Date" ->
  source_name k ++ "_" ++ c
  ∈ filter (fun x => x ∉ join_labels k) (columns (prepare k df)).
Proof.
  intros Hk Hin Hc Hact HnS HnD.
  assert (Hjl : join_labels k = ["Symbol"; "Date"]).
  { unfold join_labels. by rewrite truthy_date_map, Hk. }
  apply list_elem_of_filter. split.
  - intros Hkey%join_labels_key.
    by apply (key_label_not_prefixed k c) in Hkey.
  - unfold prepare. rewrite truthy_date_map, Hk.
    rewrite rename_present by done. cbn [columns relabel].
    apply list_elem_of_fmap. exists c. split.
    + unfold prefix_label. rewrite decide_False; [done|].
      rewrite Hjl. intros [->|Hd]%elem_of_cons; [done|].
      by apply list_elem_of_singleton in Hd.
    + apply list_elem_of_fmap. exists c. split; [|done].
      unfold rename_label. by rewrite decide_False.
Qed.

(** C5.  With every source well formed, [merge_filtered] raises no
    missing-column error.  For a source whose declared date column is
    absent, the column the merge takes is the first fallback name the
    table has, and after the renaming that column is the key column
    "Date", with the same values.  The merged table, when the merge
    returns it, holds that source: it has the key column "Date", every
    other column of the source under the prefix of the source, and every
    key of the source, read with the fallback column as its date. *)
Theorem fallback_merge_completes (avail : source -> option DataFrame) :
  (forall k df, avail k = Some df -> well_formed_source (k, df)) ->
  merge_filtered avail ≠ Err KeyError
  /\ forall k df declared,
       avail k = Some df -> date_map k = Some declared ->
       declared ∉ columns df ->
       let actual := resolve_date_col (add_symbol df) declared in
       actual ∈ columns df
       /\ (exists pre post,
             fallbacks = (pre ++ actual :: post)%list
             /\ forall f, f ∈ pre -> f ∉ columns df)
       /\ "Date" ∈ columns (prepare k (add_symbol df))
       /\ column (prepare k (add_symbol df)) "Date" = column df actual
       /\ forall merged,
            merge_filtered avail = Ok merged ->
            "Date" ∈ columns merged
            /\ (forall c, c ∈ columns df -> c ≠ actual -> c ≠ "Symbol" ->
                          source_name k ++ "_" ++ c ∈ columns merged)
            /\ forall key,
                 key ∈ row_key ["Symbol"; "Date"]
                         <$> rows (prepare k (add_symbol df)) ->
                 key ∈ row_key ["Symbol"; "Date"] <$> rows merged.
Proof.
  intros Hwf.
  assert (Hall : Forall well_formed_source (load_available avail)).
  { apply Forall_forall. intros [k df] Hin.
    apply elem_of_load_available in Hin. by apply Hwf. }
  split.
  - unfold merge_filtered.
    destruct (load_available avail) as [|kd dfs] eqn:Hl; [done|].
    rewrite <- Hl in *.
    destruct (merge_loaded_completes (load_available avail)) as (m & ->);
      [by rewrite Hl|apply NoDup_load_available|done|done].
  - intros k df declared Hk Hdecl Habsent actual.
    pose proof (add_symbol_ready (k, df) (Hwf k df Hk)) as Hready.
    cbn [prod_map fst snd id] in Hready.
    pose proof Hready as (Hnd & Hsym & Hdate).
    unfold has_date_col in Hdate. cbn [fst snd] in Hdate.
    rewrite Hdecl in Hdate. destruct Hdate as [Hhas Hno].
    assert (Habsent' : declared ∉ columns (add_symbol df)).
    { intros [?|[-> _]]%columns_add_symbol; [done|].
      by destruct (date_map_not_key k "Symbol" "Symbol" Hdecl); [left|]. }
    destruct Hhas as [?|Hfb]; [done|].
    assert (Hact : actual = first_fallback (add_symbol df) fallbacks declared).
    { unfold actual, resolve_date_col. by rewrite decide_False. }
    destruct (first_fallback_spec _ fallbacks declared Hfb) as [Hin1 Hin2].
    destruct (first_fallback_first _ fallbacks declared Hfb)
      as (pre & post & Hsplit & Hpre).
    rewrite <- Hact in Hin1, Hin2, Hsplit.
    destruct (date_map_not_key k declared actual Hdecl) as [HnS HnD];
      [by right|].
    split; [|split; [|split; [|split]]].
    + by apply columns_add_symbol in Hin2 as [?|[? _]].
    + exists pre, post. split; [done|]. intros f Hf Hcol.
      apply (Hpre f Hf). apply columns_add_symbol. by left.
    + destruct (prepare_labels (k, add_symbol df) Hready) as (_ & Hon & _).
      apply Hon. cbn [fst]. unfold join_labels.
      rewrite truthy_date_map, Hdecl. right; left.
    + rewrite (column_prepare_Date k _ declared Hdecl) by done.
      fold actual. by apply column_add_symbol.
    + intros merged Hmerged. unfold merge_filtered in Hmerged.
      destruct (spine_of_labels _ Hall) as (spine & Hsp & _).
      destruct (merge_loaded_content _ merged spine
                  (NoDup_load_available avail) Hall Hmerged Hsp)
        as [Hcols Hkeys].
      assert (Hkd : (k, df) ∈ load_available avail)
        by (by apply elem_of_load_available).
      split; [|split].
      * rewrite Hcols. right; left.
      * intros c Hc Hca HcS. rewrite Hcols. do 2 right.
        apply list_elem_of_concat. exists (brought (k, df)).
        split; [apply list_elem_of_fmap; by exists (k, df)|].
        unfold brought. cbn [fst snd].
        apply (brought_label k (add_symbol df) declared c); try done.
        -- apply columns_add_symbol. by left.
        -- intros ->. apply Hno. apply columns_add_symbol. by left.
      * intros key Hkey. apply Hkeys.
        by apply (spine_of_covers (load_available avail) spine k df
                    declared (NoDup_load_available avail) Hsp Hkd Hdecl).
Qed.

End FallbackMerge.

(** ** Finding the input files *)

Section FindInput.

Lemma chop_prefix_spec p s rest :
  chop_prefix p s = Some rest <-> s = p ++ rest.
Proof.
  revert s. induction p as [|a p IH]; intros s; cbn [chop_prefix].
  - split; [by intros [= ->]|by intros ->].
  - destruct s as [|b s]; [done|]. case_decide as Hab.
    + subst b. rewrite IH. split; [by intros ->|by intros [= ->]].
    + split; [done|]. by intros [= ? _].
Qed.

Lemma has_suffix_spec ext s :
  has_suffix ext s = true <-> exists mid, s = mid ++ ext.
Proof.
  induction s as [|b s IH]; cbn [has_suffix].
  - rewrite orb_false_r, bool_decide_eq_true. split.
    + intros <-. by exists EmptyString.
    + intros ([|? ?] & Hmid); [done|discriminate Hmid].
  - rewrite orb_true_iff, bool_decide_eq_true, IH. split.
    + intros [<-|(mid & ->)]; [by exists EmptyString|].
      by exists (String b mid).
    + intros ([|a mid] & Hmid); [by left|]. right.
      injection Hmid as -> ->. by exists mid.
Qed.

Lemma glob_match_spec stem ext name :
  glob_match stem ext name = true <-> exists mid, name = stem ++ mid ++ ext.
Proof.
  unfold glob_match. split.
  - destruct (chop_prefix stem name) as [rest|] eqn:Hrest; [|done].
    apply chop_prefix_spec in Hrest as ->.
    intros (mid & ->)%has_suffix_spec. by exists mid.
  - intros (mid & ->).
    rewrite (proj2 (chop_prefix_spec stem _ (mid ++ ext)) eq_refl).
    apply has_suffix_spec. by exists mid.
Qed.

Lemma glob_match_exact stem ext : glob_match stem ext (stem ++ ext) = true.
Proof. apply glob_match_spec. by exists EmptyString. Qed.

Lemma first_exact_Some data_dir stem exts candidate :
  first_exact data_dir stem exts = Some candidate ->
  exists pre ext post,
    exts = (pre ++ ext :: post)%list
    /\ candidate = stem ++ ext
    /\ candidate ∈ data_dir
    /\ forall e, e ∈ pre -> stem ++ e ∉ data_dir.
Proof.
  induction exts as [|ext exts IH]; cbn [first_exact]; [done|].
  case_decide as Hin.
  - intros [= <-]. exists [], ext, exts. split; [done|]. split; [done|].
    split; [done|]. by intros e ?%elem_of_nil.
  - intros (pre & ext' & post & -> & -> & Hc & Hpre)%IH.
    exists (ext :: pre), ext', post. split; [done|]. split; [done|].
    split; [done|]. by intros e [->|?]%elem_of_cons; [|apply Hpre].
Qed.

Lemma first_exact_None data_dir stem exts :
  first_exact data_dir stem exts = None
  <-> forall ext, ext ∈ exts -> stem ++ ext ∉ data_dir.
Proof.
  induction exts as [|ext exts IH]; cbn [first_exact].
  - split; [by intros _ ? ?%elem_of_nil|done].
  - case_decide as Hin.
    + split; [done|]. intros Hall. exfalso. by apply (Hall ext); [left|].
    + rewrite IH. split.
      * intros Hall e [->|?]%elem_of_cons; [done|by apply Hall].
      * intros Hall e He. apply Hall. by right.
Qed.

Lemma sorted_head_least (l : list string) m rest :
  merge_sort String.le l = m :: rest ->
  m ∈ l /\ forall n, n ∈ l -> String.le m n.
Proof.
  intros Hsort.
  pose proof (merge_sort_Permutation String.le l) as Hperm.
  pose proof (StronglySorted_merge_sort String.le l) as Hss.
  rewrite Hsort in Hperm, Hss. split.
  - rewrite <- Hperm. left.
  - intros n Hn. rewrite <- Hperm in Hn.
    apply elem_of_cons in Hn as [->|Hn]; [done|].
    apply StronglySorted_inv in Hss as [_ Hall].
    by apply (proj1 (Forall_forall _ _) Hall).
Qed.

Lemma sorted_nil (l : list string) : merge_sort String.le l = [] -> l = [].
Proof.
  intros Hsort. apply Permutation_nil_r.
  rewrite <- Hsort. symmetry. apply merge_sort_Permutation.
Qed.

Lemma first_glob_Some data_dir stem exts m :
  first_glob data_dir stem exts = Some m ->
  exists pre ext post,
    exts = (pre ++ ext :: post)%list
    /\ (forall e n, e ∈ pre -> n ∈ data_dir -> glob_match stem e n = false)
    /\ m ∈ data_dir
    /\ glob_match stem ext m = true
    /\ forall n, n ∈ data_dir -> glob_match stem ext n = true ->
                 String.le m n.
Proof.
  induction exts as [|ext exts IH]; cbn [first_glob]; [done|].
  destruct (merge_sort String.le _) as [|m' rest] eqn:Hsort.
  - apply sorted_nil in Hsort.
    intros (pre & ext' & post & -> & Hpre & Hrest)%IH.
    exists (ext :: pre), ext', post. split; [done|]. split; [|done].
    intros e n [->|He]%elem_of_cons Hn; [|by apply Hpre].
    destruct (glob_match stem ext n) eqn:Hmatch; [|done].
    assert (Hin : n ∈ filter (fun name => glob_match stem ext name = true)
                             data_dir) by (by apply list_elem_of_filter).
    rewrite Hsort in Hin. by apply elem_of_nil in Hin.
  - intros [= <-]. apply sorted_head_least in Hsort as [Hin Hleast].
    apply list_elem_of_filter in Hin as [Hmatch Hin].
    exists [], ext, exts. split; [done|].
    split; [by intros e n ?%elem_of_nil|].
    split; [done|]. split; [done|].
    intros n Hn Hnm. apply Hleast. by apply list_elem_of_filter.
Qed.

Lemma first_glob_None data_dir stem exts :
  first_glob data_dir stem exts = None
  <-> forall ext n, ext ∈ exts -> n ∈ data_dir ->
                    glob_match stem ext n = false.
Proof.
  induction exts as [|ext exts IH]; cbn [first_glob].
  - split; [by intros _ ? ? ?%elem_of_nil|done].
  - destruct (merge_sort String.le _) as [|m' rest] eqn:Hsort.
    + apply sorted_nil in Hsort. rewrite IH. split.
      * intros Hall e n [->|He]%elem_of_cons Hn; [|by apply Hall].
        destruct (glob_match stem ext n) eqn:Hmatch; [|done].
        assert (Hin : n ∈ filter
                          (fun name => glob_match stem ext name = true)
                          data_dir) by (by apply list_elem_of_filter).
        rewrite Hsort in Hin. by apply elem_of_nil in Hin.
      * intros Hall e n He. apply Hall. by right.
    + split; [done|]. intros Hall. exfalso.
      apply sorted_head_least in Hsort as [Hin _].
      apply list_elem_of_filter in Hin as [Hmatch Hin].
      rewrite (Hall ext m') in Hmatch; [done|left|done].
Qed.

(** X19.  A file under the exact name of a dataset is chosen before any
    other: when the directory holds the stem followed by one of the
    expected extensions, [find_input_file] returns that name for the
    first such extension, whatever other names the directory holds. *)
Theorem find_input_file_exact (cfg : DatasetConfig)
    (data_dir : list string) :
  plain_names cfg ->
  (exists ext, ext ∈ expected_exts cfg /\ stem cfg ++ ext ∈ data_dir) ->
  exists pre ext post,
    expected_exts cfg = (pre ++ ext :: post)%list
    /\ (forall e, e ∈ pre -> stem cfg ++ e ∉ data_dir)
    /\ stem cfg ++ ext ∈ data_dir
    /\ find_input_file cfg data_dir = Ok (stem cfg ++ ext).
Proof.
  intros _ (ext & Hext & Hin). unfold find_input_file.
  destruct (first_exact data_dir (stem cfg) (expected_exts cfg))
    as [candidate|] eqn:Hfirst.
  - apply first_exact_Some in Hfirst
      as (pre & ext' & post & Hsplit & -> & Hc & Hpre).
    by exists pre, ext', post.
  - exfalso. by apply (proj1 (first_exact_None _ _ _) Hfirst ext).
Qed.

(** X20.  Without a file under an exact name, [find_input_file] takes
    the first extension for which some name starts with the stem and
    ends with the extension, and returns the least such name in the
    order of texts. *)
Theorem find_input_file_glob (cfg : DatasetConfig) (data_dir : list string)
    (name : string) :
  plain_names cfg ->
  (forall ext, ext ∈ expected_exts cfg -> stem cfg ++ ext ∉ data_dir) ->
  find_input_file cfg data_dir = Ok name ->
  exists pre ext post,
    expected_exts cfg = (pre ++ ext :: post)%list
    /\ (forall e n mid, e ∈ pre -> n ∈ data_dir ->
                        n ≠ stem cfg ++ mid ++ e)
    /\ name ∈ data_dir
    /\ (exists mid, name = stem cfg ++ mid ++ ext)
    /\ forall n mid, n ∈ data_dir -> n = stem cfg ++ mid ++ ext ->
                     String.le name n.
Proof.
  intros _ Hnone%first_exact_None. unfold find_input_file.
  rewrite Hnone.
  destruct (first_glob data_dir (stem cfg) (expected_exts cfg))
    as [m|] eqn:Hglob; [|done].
  intros [= <-].
  apply first_glob_Some in Hglob
    as (pre & ext & post & Hsplit & Hpre & Hin & Hmatch & Hleast).
  exists pre, ext, post. split; [done|]. split; [|split; [done|split]].
  - intros e n mid He Hn ->.
    assert (Hm : glob_match (stem cfg) e (stem cfg ++ mid ++ e) = true)
      by (apply glob_match_spec; by exists mid).
    by rewrite (Hpre e _ He Hn) in Hm.
  - by apply glob_match_spec.
  - intros n mid Hn ->. apply Hleast; [done|].
    apply glob_match_spec. by exists mid.
Qed.

(** X21.  [find_input_file] raises [FileNotFoundError] exactly when no
    name of the directory starts with the stem and ends with an expected
    extension; a name it returns is a name of the directory. *)
Theorem find_input_file_not_found (cfg : DatasetConfig)
    (data_dir : list string) :
  plain_names cfg ->
  (find_input_file cfg data_dir = Err FileNotFoundError
   <-> forall ext n mid, ext ∈ expected_exts cfg -> n ∈ data_dir ->
                         n ≠ stem cfg ++ mid ++ ext)
  /\ (forall e, find_input_file cfg data_dir = Err e ->
                e = FileNotFoundError)
  /\ forall name, find_input_file cfg data_dir = Ok name ->
                  name ∈ data_dir.
Proof.
  intros _. unfold find_input_file.
  destruct (first_exact data_dir (stem cfg) (expected_exts cfg))
    as [candidate|] eqn:Hfirst.
  - apply first_exact_Some in Hfirst
      as (pre & ext & post & Hsplit & -> & Hc & Hpre).
    split; [|split; [done|by intros name [= <-]]].
    split; [done|]. intros Hall. exfalso.
    apply (Hall ext (stem cfg ++ ext) EmptyString); [|done|done].
    rewrite Hsplit. apply elem_of_app. right. left.
  - destruct (first_glob data_dir (stem cfg) (expected_exts cfg))
      as [m|] eqn:Hglob.
    + apply first_glob_Some in Hglob
        as (pre & ext & post & Hsplit & Hpre & Hin & Hmatch & Hleast).
      split; [|split; [done|by intros name [= <-]]].
      split; [done|]. intros Hall. exfalso.
      apply glob_match_spec in Hmatch as (mid & Hm).
      apply (Hall ext m mid); [|done|done].
      rewrite Hsplit. apply elem_of_app. right. left.
    + split; [|split; [by intros e [= <-]|done]].
      split; [|done]. intros _ ext n mid Hext Hn ->.
      assert (Hm : glob_match (stem cfg) ext (stem cfg ++ mid ++ ext) = true)
        by (apply glob_match_spec; by exists mid).
      by rewrite (proj1 (first_glob_None _ _ _) Hglob ext _ Hext Hn) in Hm.
Qed.

End FindInput.

(** ** The row filter, again *)

Section RowFilterAgain.

Lemma loc_mask_all {A} (g : A -> bool) (l : list A) :
  (forall x, x ∈ l -> g x = true) -> loc_mask l (g <$> l) = l.
Proof.
  induction l as [|x l IH]; intros Hall; [done|].
  cbn [fmap list_fmap loc_mask]. rewrite (Hall x) by left.
  f_equal. apply IH. intros y Hy. apply Hall. by right.
Qed.

(** X22.  [apply_row_filter] is idempotent: applied to a table it
    returned, with the same configuration and flag, it returns that
    table. *)
Theorem apply_row_filter_idempotent (df : DataFrame) (cfg : DatasetConfig)
    (include_consolidated : bool) (out : DataFrame) :
  apply_row_filter df cfg include_consolidated = Ok out ->
  apply_row_filter out cfg include_consolidated = Ok out.
Proof.
  intros Hout. destruct (truthy (filter_col cfg)) as [fc|] eqn:Hfc.
  - destruct (decide (fc ∈ columns df)) as [Hin|Hin].
    + rewrite (apply_row_filter_present _ _ _ fc) in Hout by done.
      injection Hout as <-.
      rewrite (apply_row_filter_present _ _ _ fc) by done.
      f_equal. unfold loc. cbn [columns rows]. f_equal.
      apply loc_mask_all. by intros r [_ Hr]%elem_of_loc_fmap.
    + unfold apply_row_filter in Hout. rewrite Hfc in Hout.
      by rewrite decide_False in Hout.
  - unfold apply_row_filter in *. rewrite Hfc in *. by injection Hout as <-.
Qed.

End RowFilterAgain.

(** ** ensure_col *)

Section EnsureCol.

(** X23.  [ensure_col] works in place.  It returns the reference it was
    given; afterwards the caller's table has the column.  A table that
    had the column is left as it was; otherwise the column is appended
    with [None] in every row, and the other columns keep their values.
    No other object of the store changes, and a second call changes
    nothing. *)
Theorem ensure_col_in_place (h : gmap nat DataFrame) (l : nat)
    (col : string) (t : DataFrame) :
  h !! l = Some t ->
  exists t',
    ensure_col l col h = (<[l := t']> h, Ok l)
    /\ col ∈ columns t'
    /\ (col ∈ columns t -> t' = t)
    /\ (col ∉ columns t ->
        columns t' = (columns t ++ [col])%list
        /\ column t' col = replicate (length (rows t)) CNone
        /\ forall c, c ≠ col -> column t' c = column t c)
    /\ ensure_col l col (<[l := t']> h) = (<[l := t']> h, Ok l).
Proof.
  intros Hl. unfold ensure_col.
  rewrite (InPlaceFacts.bind_Ok _ _ _ _ _ (InPlaceFacts.read_run _ _ _ Hl)).
  destruct (decide (col ∈ columns t)) as [Hin|Hin].
  - exists t. rewrite insert_id by done. split; [done|]. split; [done|].
    split; [done|]. split; [done|].
    rewrite (InPlaceFacts.bind_Ok _ _ _ _ _
               (InPlaceFacts.read_run _ _ _ Hl)).
    by rewrite decide_True.
  - set (series := replicate (length (rows t)) CNone).
    assert (Hlen : length series = length (rows t))
      by apply length_replicate.
    exists (setcol t col series).
    rewrite (InPlaceFacts.bind_Ok _ _ _ _ _
               (InPlaceFacts.setitem_run _ _ _ col series Hl)).
    assert (Hcol : col ∈ columns (setcol t col series))
      by apply elem_of_columns_setcol_eq.
    split; [done|]. split; [done|]. split; [done|]. split.
    + intros _. split; [|split].
      * cbn [columns setcol]. by rewrite decide_False.
      * by apply column_setcol_eq.
      * intros c Hc. by apply column_setcol_ne.
    + assert (Hl' : (<[l := setcol t col series]> h) !! l
                    = Some (setcol t col series))
        by apply lookup_insert_eq.
      rewrite (InPlaceFacts.bind_Ok _ _ _ _ _
                 (InPlaceFacts.read_run _ _ _ Hl')).
      by rewrite decide_True.
Qed.

End EnsureCol.

(** ** The further properties on the example tables *)

Module MoreChecks.
Import Examples MoreExamples.

Lemma in_list (c : string) (cols : list string) :
  bool_decide (c ∈ cols) = true -> c ∈ cols.
Proof. apply bool_decide_eq_true. Qed.

(** X2 on [statements], with the consolidated rows asked for. *)
Lemma apply_row_filter_spec_witness :
  truthy (filter_col fs_combas_cfg) = Some "Typrep"
  /\ "Typrep" ∈ columns statements
  /\ exists out,
       apply_row_filter statements fs_combas_cfg true = Ok out
       /\ columns out = columns statements
       /\ sublist (rows out) (rows statements)
       /\ forall r,
            r ∈ rows out
            <-> r ∈ rows statements
                /\ kept_text fs_combas_cfg true
                             (astype_str (cell_at r "Typrep")).
Proof.
  assert (H1 : truthy (filter_col fs_combas_cfg) = Some "Typrep")
    by reflexivity.
  assert (H2 : "Typrep" ∈ columns statements)
    by (apply in_list; reflexivity).
  exact (conj H1 (conj H2
           (apply_row_filter_spec statements fs_combas_cfg true "Typrep"
                                  H1 H2))).
Defined.

(** X3 on [statements]. *)
Lemma apply_row_filter_widens_witness :
  apply_row_filter statements fs_combas_cfg false = Ok statements_parent
  /\ exists out',
       apply_row_filter statements fs_combas_cfg true = Ok out'
       /\ columns out' = columns statements_parent
       /\ sublist (rows statements_parent) (rows out').
Proof.
  assert (H1 : apply_row_filter statements fs_combas_cfg false
               = Ok statements_parent) by (vm_compute; reflexivity).
  exact (conj H1
           (apply_row_filter_widens statements fs_combas_cfg
                                    statements_parent H1)).
Defined.

(** X4 on [panel]: its dates are in the strict format. *)
Lemma normalize_year_strict_first_witness :
  "Accper" ∈ columns panel
  /\ exists years,
       normalize_year (H := iso_pandas) panel "Accper" = Ok years
       /\ length years = length (rows panel)
       /\ ((exists v, v ∈ column panel "Accper"
                      /\ is_Some (to_datetime_iso (Pandas := iso_pandas) v))
           -> years
              = (fun v => year <$> to_datetime_iso (Pandas := iso_pandas) v)
                  <$> column panel "Accper")
       /\ ((forall v, v ∈ column panel "Accper" ->
                      to_datetime_iso (Pandas := iso_pandas) v = None)
           -> years
              = (fun d : option date => year <$> d)
                  <$> flexible_dates (H := iso_pandas)
                        (column panel "Accper")).
Proof.
  assert (H1 : "Accper" ∈ columns panel) by (apply in_list; reflexivity).
  exact (conj H1
           (normalize_year_strict_first (H := iso_pandas) panel "Accper" H1)).
Defined.

(** X5 on [panel], threshold 1. *)
Lemma coverage_spec_witness :
  "Stkcd" ≠ "__year" /\ "Accper" ≠ "Stkcd" /\ "Stkcd" ∈ columns panel
  /\ normalize_year (H := iso_pandas) panel "Accper" = Ok panel_years
  /\ exists s : gset cell,
       companies_with_full_years (H := iso_pandas) panel "Stkcd"
                                 (Some "Accper") years 1 = Ok s
       /\ forall c,
            c ∈ s
            <-> observed_years
                  (normalize_company_id (column panel "Stkcd"))
                  panel_years c ≠ ∅
                /\ 1 <= Z.of_nat
                          (size (observed_years
                                   (normalize_company_id
                                      (column panel "Stkcd"))
                                   panel_years c ∩ years)).
Proof.
  assert (H1 : "Stkcd" ≠ "__year") by discriminate.
  assert (H2 : "Accper" ≠ "Stkcd") by discriminate.
  assert (H3 : "Stkcd" ∈ columns panel) by (apply in_list; reflexivity).
  assert (H4 : normalize_year (H := iso_pandas) panel "Accper"
               = Ok panel_years) by (vm_compute; reflexivity).
  exact (conj H1 (conj H2 (conj H3 (conj H4
           (coverage_spec (H := iso_pandas) panel "Stkcd" "Accper" years 1
                          panel_years H1 H2 H3 H4))))).
Defined.

(** X6 on [panel]: from the year 2018 alone to the three years. *)
Lemma coverage_monotone_in_years_witness :
  ({[2018]} : gset Z) ⊆ years
  /\ companies_with_full_years (H := iso_pandas) panel "Stkcd"
       (Some "Accper") {[2018]} 1 = Ok {[CStr "600000"; CStr "000001"]}
  /\ exists s',
       companies_with_full_years (H := iso_pandas) panel "Stkcd"
                                 (Some "Accper") years 1 = Ok s'
       /\ ({[CStr "600000"; CStr "000001"]} : gset cell) ⊆ s'.
Proof.
  assert (H1 : ({[2018]} : gset Z) ⊆ years)
    by (apply (bool_decide_unpack _); vm_compute; exact I).
  assert (H2 : companies_with_full_years (H := iso_pandas) panel "Stkcd"
                 (Some "Accper") {[2018]} 1
               = Ok {[CStr "600000"; CStr "000001"]})
    by (vm_compute; reflexivity).
  exact (conj H1 (conj H2
           (coverage_monotone_in_years (H := iso_pandas) panel "Stkcd"
              (Some "Accper") {[2018]} years 1
              {[CStr "600000"; CStr "000001"]} H1 H2))).
Defined.

(** X7 on [panel]: four years asked of three. *)
Lemma coverage_empty_above_witness :
  Z.of_nat (size years) < 4
  /\ companies_with_full_years (H := iso_pandas) panel "Stkcd"
       (Some "Accper") years 4 = Ok ∅
  /\ (∅ : gset cell) = ∅.
Proof.
  assert (H1 : Z.of_nat (size years) < 4) by (vm_compute; reflexivity).
  assert (H2 : companies_with_full_years (H := iso_pandas) panel "Stkcd"
                 (Some "Accper") years 4 = Ok ∅)
    by (vm_compute; reflexivity).
  exact (conj H1 (conj H2
           (coverage_empty_above (H := iso_pandas) panel "Stkcd" "Accper"
                                 years 4 ∅ H1 H2))).
Defined.

(** X8 on [panel], for the company "600000". *)
Lemma filter_output_witness :
  filter_for_companies_and_years (H := iso_pandas) panel "Stkcd"
    (Some "Accper") {[CStr "600000"]} years = Ok panel_kept
  /\ columns panel_kept
     = match truthy (Some "Accper") with
       | Some _ => filter (fun c => c ≠ "__year") (columns panel)
       | None => columns panel
       end
  /\ sublist (rows panel_kept)
             (kept_row "Stkcd" (Some "Accper") <$> rows panel)
  /\ forall r',
       r' ∈ rows panel_kept <->
       exists (i : nat) r,
         rows panel !! i = Some r
         /\ r' = kept_row "Stkcd" (Some "Accper") r
         /\ CStr (normalize_company_id1 (cell_at r "Stkcd"))
            ∈ ({[CStr "600000"]} : gset cell)
         /\ forall yc ys,
              truthy (Some "Accper") = Some yc ->
              normalize_year (H := iso_pandas)
                (setcol panel "Stkcd"
                        (normalize_company_id (column panel "Stkcd")))
                yc = Ok ys ->
              exists y, ys !! i = Some (Some y) /\ y ∈ years.
Proof.
  assert (H1 : filter_for_companies_and_years (H := iso_pandas) panel
                 "Stkcd" (Some "Accper") {[CStr "600000"]} years
               = Ok panel_kept) by (vm_compute; reflexivity).
  exact (conj H1
           (filter_output (H := iso_pandas) panel "Stkcd" (Some "Accper")
                          {[CStr "600000"]} years panel_kept H1)).
Defined.

(** X10 on the run over [read_raw] with a threshold of one year: the
    five tables are saved. *)
Lemma process_success_witness :
  exists loaded metadata,
    load_datasets (H := iso_pandas) read_raw DATASETS years 1 false [] []
    = Ok (loaded, metadata)
    /\ set_intersection ((fun km => m_coverage km.2) <$> metadata)
       = Ok {[CStr "600000"]}
    /\ ({[CStr "600000"]} : gset cell) ≠ ∅
    /\ exists tables,
         process (H := iso_pandas) read_raw "filtered" years 1 false
         = (((PrintCoverage 1 years (size ({[CStr "600000"]} : gset cell))
                :: (dataset_line <$> metadata))
               ++ concat (zip_with (saved_events "filtered") loaded tables)
            )%list, Ok tt)
         /\ loaded.*1 = key <$> DATASETS
         /\ Forall2 (fun (kl : string * Loaded) t =>
                       filter_for_companies_and_years (H := iso_pandas)
                         (l_df kl.2) (l_company_col kl.2) (l_year_col kl.2)
                         {[CStr "600000"]} years = Ok t)
                    loaded tables.
Proof.
  destruct (load_datasets (H := iso_pandas) read_raw DATASETS years 1 false
              [] []) as [[loaded metadata]|e] eqn:Hload.
  - exists loaded, metadata. split; [reflexivity|].
    assert (Hcommon : set_intersection
                        ((fun km => m_coverage km.2) <$> metadata)
                      = Ok {[CStr "600000"]}).
    { vm_compute in Hload. injection Hload as <- <-.
      vm_compute. reflexivity. }
    assert (Hne : ({[CStr "600000"]} : gset cell) ≠ ∅)
      by (apply (bool_decide_unpack _); vm_compute; exact I).
    split; [exact Hcommon|]. split; [exact Hne|].
    exact (process_success (H := iso_pandas) read_raw years 1 false
             "filtered" loaded metadata {[CStr "600000"]} Hload Hcommon
             Hne).
  - vm_compute in Hload. discriminate Hload.
Defined.

(** What that run saves and prints. *)
Example saved_on_success :
  omap (fun e => match e with
                 | PrintSaved k out n => Some (k, out, n)
                 | _ => None
                 end)
       (process (H := iso_pandas) read_raw "filtered" years 1 false).1
  = [ ("cg_co", "filtered/CG_Co_filtered.csv", 1%nat);
      ("fs_combas", "filtered/FS_Combas_filtered.csv", 1%nat);
      ("fs_comins", "filtered/FS_Comins_filtered.csv", 1%nat);
      ("mc_diversified_degree",
       "filtered/MC_DiverOperationsDegree_filtered.csv", 1%nat);
      ("mc_diversified_product",
       "filtered/MC_DiverOperationsPro_filtered.csv", 1%nat) ].
Proof. vm_compute. reflexivity. Qed.

(** X11 on the same run. *)
Lemma saved_companies_witness :
  1 <= 1
  /\ exists loaded metadata,
       load_datasets (H := iso_pandas) read_raw DATASETS years 1 false [] []
       = Ok (loaded, metadata)
       /\ set_intersection ((fun km => m_coverage km.2) <$> metadata)
          = Ok {[CStr "600000"]}
       /\ Forall (fun kl : string * Loaded =>
                    exists t,
                      filter_for_companies_and_years (H := iso_pandas)
                        (l_df kl.2) (l_company_col kl.2) (l_year_col kl.2)
                        {[CStr "600000"]} years = Ok t
                      /\ forall c,
                           c ∈ ({[CStr "600000"]} : gset cell)
                           <-> exists r,
                                 r ∈ rows t
                                 /\ cell_at r (l_company_col kl.2) = c)
                 loaded.
Proof.
  assert (H1 : 1 <= 1) by lia. split; [exact H1|].
  destruct (load_datasets (H := iso_pandas) read_raw DATASETS years 1 false
              [] []) as [[loaded metadata]|e] eqn:Hload.
  - exists loaded, metadata. split; [reflexivity|].
    assert (Hcommon : set_intersection
                        ((fun km => m_coverage km.2) <$> metadata)
                      = Ok {[CStr "600000"]}).
    { vm_compute in Hload. injection Hload as <- <-.
      vm_compute. reflexivity. }
    split; [exact Hcommon|].
    exact (saved_companies (H := iso_pandas) read_raw years 1 false
             loaded metadata {[CStr "600000"]} H1 Hload Hcommon).
  - vm_compute in Hload. discriminate Hload.
Defined.

(** X13 on the two key tables. *)
Lemma build_spine_keys_witness :
  exists spine,
    build_spine [keys_a; keys_b] ["Symbol"; "Date"] = Ok spine
    /\ (forall c, c ∈ columns spine <-> c ∈ ["Symbol"; "Date"])
    /\ forall k,
         k ∈ row_key ["Symbol"; "Date"] <$> rows spine
         <-> exists df, df ∈ [keys_a; keys_b]
                        /\ k ∈ row_key ["Symbol"; "Date"] <$> rows df.
Proof.
  destruct (build_spine [keys_a; keys_b] ["Symbol"; "Date"])
    as [spine|e] eqn:Hspine.
  - exists spine. split; [reflexivity|].
    exact (build_spine_keys [keys_a; keys_b] ["Symbol"; "Date"] spine
                            Hspine).
  - vm_compute in Hspine. discriminate Hspine.
Defined.

(** X16 on the two key tables. *)
Lemma build_spine_idempotent_witness :
  NoDup ["Symbol"; "Date"]
  /\ exists spine,
       build_spine [keys_a; keys_b] ["Symbol"; "Date"] = Ok spine
       /\ build_spine [spine] ["Symbol"; "Date"] = Ok spine.
Proof.
  assert (H1 : NoDup ["Symbol"; "Date"])
    by (apply (bool_decide_unpack _); vm_compute; exact I).
  split; [exact H1|].
  destruct (build_spine [keys_a; keys_b] ["Symbol"; "Date"])
    as [spine|e] eqn:Hspine.
  - exists spine. split; [reflexivity|].
    exact (build_spine_idempotent [keys_a; keys_b] ["Symbol"; "Date"] spine
                                  H1 Hspine).
  - vm_compute in Hspine. discriminate Hspine.
Defined.

(** X15: a company table without a company column. *)
Lemma merge_needs_company_col_witness :
  no_company_col cg_co = Some names_only
  /\ "Stkcd" ∉ columns names_only /\ "Symbol" ∉ columns names_only
  /\ merge_filtered no_company_col = Err KeyError.
Proof.
  assert (H1 : no_company_col cg_co = Some names_only) by reflexivity.
  assert (H2 : "Stkcd" ∉ columns names_only)
    by (apply (bool_decide_unpack _); vm_compute; exact I).
  assert (H3 : "Symbol" ∉ columns names_only)
    by (apply (bool_decide_unpack _); vm_compute; exact I).
  exact (conj H1 (conj H2 (conj H3
           (merge_needs_company_col no_company_col cg_co
              names_only H1 H2 H3)))).
Defined.

Lemma renamed_and_companies_well_formed :
  forall k df, renamed_and_companies k = Some df ->
               well_formed_source (k, df).
Proof.
  intros k df Hk. destruct k; simpl in Hk; try discriminate Hk;
    injection Hk as <-; unfold well_formed_source, has_company_col,
      has_date_col; simpl.
  - split; [apply (bool_decide_unpack _); vm_compute; exact I|].
    split; [left; apply in_list; reflexivity|exact I].
  - split; [apply (bool_decide_unpack _); vm_compute; exact I|].
    split; [left; apply in_list; reflexivity|].
    split; [|apply (bool_decide_unpack _); vm_compute; exact I].
    right. exists "Accper.1".
    split; apply in_list; reflexivity.
Defined.

(** C5 on the company table and the balance sheet whose date column is
    "Accper.1". *)
Lemma fallback_merge_completes_witness :
  (forall k df, renamed_and_companies k = Some df ->
                well_formed_source (k, df))
  /\ renamed_and_companies fs_combas = Some renamed_dates
  /\ date_map fs_combas = Some "Accper"
  /\ "Accper" ∉ columns renamed_dates
  /\ merge_filtered renamed_and_companies ≠ Err KeyError
  /\ exists merged,
       merge_filtered renamed_and_companies = Ok merged
       /\ resolve_date_col (add_symbol renamed_dates) "Accper"
            ∈ columns renamed_dates
       /\ (exists pre post,
             fallbacks
             = (pre ++ resolve_date_col (add_symbol renamed_dates) "Accper"
                    :: post)%list
             /\ forall f, f ∈ pre -> f ∉ columns renamed_dates)
       /\ "Date" ∈ columns (prepare fs_combas (add_symbol renamed_dates))
       /\ column (prepare fs_combas (add_symbol renamed_dates)) "Date"
          = column renamed_dates
              (resolve_date_col (add_symbol renamed_dates) "Accper")
       /\ "Date" ∈ columns merged
       /\ (forall c,
             c ∈ columns renamed_dates ->
             c ≠ resolve_date_col (add_symbol renamed_dates) "Accper" ->
             c ≠ "Symbol" ->
             source_name fs_combas ++ "_" ++ c ∈ columns merged)
       /\ forall key,
            key ∈ row_key ["Symbol"; "Date"]
                    <$> rows (prepare fs_combas (add_symbol renamed_dates)) ->
            key ∈ row_key ["Symbol"; "Date"] <$> rows merged.
Proof.
  assert (H1 : renamed_and_companies fs_combas = Some renamed_dates)
    by reflexivity.
  assert (H2 : date_map fs_combas = Some "Accper") by reflexivity.
  assert (H3 : "Accper" ∉ columns renamed_dates)
    by (apply (bool_decide_unpack _); vm_compute; exact I).
  split; [exact renamed_and_companies_well_formed|].
  split; [exact H1|]. split; [exact H2|]. split; [exact H3|].
  split.
  { exact (proj1 (fallback_merge_completes renamed_and_companies
                    renamed_and_companies_well_formed)). }
  destruct (merge_filtered renamed_and_companies) as [merged|e] eqn:Hmerged.
  - exists merged. split; [reflexivity|].
    destruct (proj2 (fallback_merge_completes renamed_and_companies
                       renamed_and_companies_well_formed)
                fs_combas renamed_dates "Accper" H1 H2 H3)
      as (Ha & Hb & Hc & Hd & He).
    exact (conj Ha (conj Hb (conj Hc (conj Hd (He merged Hmerged))))).
  - vm_compute in Hmerged. discriminate Hmerged.
Defined.

(** The keys of that balance sheet, read with "Accper.1" as the date, and
    its other columns in the merged table. *)
Example fallback_source_in_merged :
  row_key ["Symbol"; "Date"]
    <$> rows (prepare fs_combas (add_symbol renamed_dates))
  = [[CStr "600000"; CStr "2020-12-31"]; [CStr "1"; CStr "2020-12-31"]]
  /\ (fun m => (row_key ["Symbol"; "Date"] <$> rows m,
                (fun r => cell_at r "fs_combas_A001000000") <$> rows m))
       <$> match merge_filtered renamed_and_companies with
           | Ok m => Some m
           | Err _ => None
           end
     = Some ([[CStr "600000"; CStr "2020-12-31"];
              [CStr "1"; CStr "2020-12-31"]],
             [CInt 100; CInt 7]).
Proof. split; vm_compute; reflexivity. Qed.

(** X17 on a company table and a balance sheet. *)
Lemma merged_columns_witness :
  (forall k df, renamed_and_companies k = Some df ->
                well_formed_source (k, df))
  /\ exists merged,
       merge_filtered renamed_and_companies = Ok merged
       /\ columns merged
          = "Symbol" :: "Date"
              :: concat (brought <$> load_available renamed_and_companies)
       /\ forall kd c,
            kd ∈ load_available renamed_and_companies -> c ∈ brought kd ->
            exists x, c = source_name kd.1 ++ "_" ++ x.
Proof.
  split; [exact renamed_and_companies_well_formed|].
  destruct (merge_filtered renamed_and_companies) as [merged|e] eqn:Hmerged.
  - exists merged. split; [reflexivity|].
    exact (merged_columns renamed_and_companies merged
             renamed_and_companies_well_formed Hmerged).
  - vm_compute in Hmerged. discriminate Hmerged.
Defined.

(** The columns of that merged table. *)
Example merged_columns_of_example :
  "Symbol" :: "Date"
    :: concat (brought <$> load_available renamed_and_companies)
  = ["Symbol"; "Date"; "cg_co_Stkcd"; "cg_co_Conme"; "fs_combas_Stkcd";
     "fs_combas_A001000000"].
Proof. vm_compute. reflexivity. Qed.

(** X18 on the same files. *)
Lemma merged_keys_witness :
  (forall k df, renamed_and_companies k = Some df ->
                well_formed_source (k, df))
  /\ exists merged spine,
       merge_filtered renamed_and_companies = Ok merged
       /\ spine_of (load_available renamed_and_companies) = Ok spine
       /\ forall key,
            key ∈ row_key ["Symbol"; "Date"] <$> rows merged
            <-> key ∈ row_key ["Symbol"; "Date"] <$> rows spine.
Proof.
  split; [exact renamed_and_companies_well_formed|].
  destruct (merge_filtered renamed_and_companies) as [merged|e] eqn:Hmerged.
  - destruct (spine_of (load_available renamed_and_companies))
      as [spine|e] eqn:Hspine.
    + exists merged, spine. split; [reflexivity|]. split; [reflexivity|].
      exact (merged_keys renamed_and_companies merged spine
               renamed_and_companies_well_formed Hmerged Hspine).
    + vm_compute in Hspine. discriminate Hspine.
  - vm_compute in Hmerged. discriminate Hmerged.
Defined.

Lemma cg_co_cfg_plain : plain_names cg_co_cfg.
Proof.
  split; [reflexivity|].
  apply (bool_decide_unpack _). vm_compute. exact I.
Defined.

(** X19: the exact name wins over the dated copy, though ".xlsx" is
    asked for first. *)
Lemma find_input_file_exact_witness :
  plain_names cg_co_cfg
  /\ (exists ext, ext ∈ expected_exts cg_co_cfg
                  /\ stem cg_co_cfg ++ ext ∈ exact_and_dated)
  /\ exists pre ext post,
       expected_exts cg_co_cfg = (pre ++ ext :: post)%list
       /\ (forall e, e ∈ pre -> stem cg_co_cfg ++ e ∉ exact_and_dated)
       /\ stem cg_co_cfg ++ ext ∈ exact_and_dated
       /\ find_input_file cg_co_cfg exact_and_dated
          = Ok (stem cg_co_cfg ++ ext).
Proof.
  assert (H2 : exists ext, ext ∈ expected_exts cg_co_cfg
                           /\ stem cg_co_cfg ++ ext ∈ exact_and_dated).
  { exists ".xls". split; apply in_list; reflexivity. }
  exact (conj cg_co_cfg_plain (conj H2
           (find_input_file_exact cg_co_cfg exact_and_dated
                                  cg_co_cfg_plain H2))).
Defined.

Example exact_name_found :
  find_input_file cg_co_cfg exact_and_dated = Ok "CG_Co.xls".
Proof. vm_compute. reflexivity. Qed.

(** X20: of two dated copies the earlier name is taken. *)
Lemma find_input_file_glob_witness :
  plain_names cg_co_cfg
  /\ (forall ext, ext ∈ expected_exts cg_co_cfg ->
                  stem cg_co_cfg ++ ext ∉ dated_only)
  /\ find_input_file cg_co_cfg dated_only = Ok "CG_Co_2019.xls"
  /\ exists pre ext post,
       expected_exts cg_co_cfg = (pre ++ ext :: post)%list
       /\ (forall e n mid, e ∈ pre -> n ∈ dated_only ->
                           n ≠ stem cg_co_cfg ++ mid ++ e)
       /\ "CG_Co_2019.xls" ∈ dated_only
       /\ (exists mid, "CG_Co_2019.xls" = stem cg_co_cfg ++ mid ++ ext)
       /\ forall n mid, n ∈ dated_only ->
                        n = stem cg_co_cfg ++ mid ++ ext ->
                        String.le "CG_Co_2019.xls" n.
Proof.
  assert (H2 : forall ext, ext ∈ expected_exts cg_co_cfg ->
                           stem cg_co_cfg ++ ext ∉ dated_only).
  { apply (proj1 (Forall_forall _ _)).
    apply (bool_decide_unpack _). vm_compute. exact I. }
  assert (H3 : find_input_file cg_co_cfg dated_only = Ok "CG_Co_2019.xls")
    by (vm_compute; reflexivity).
  exact (conj cg_co_cfg_plain (conj H2 (conj H3
           (find_input_file_glob cg_co_cfg dated_only "CG_Co_2019.xls"
                                 cg_co_cfg_plain H2 H3)))).
Defined.

(** X21 on a directory without a file of the dataset. *)
Lemma find_input_file_not_found_witness :
  plain_names cg_co_cfg
  /\ (find_input_file cg_co_cfg ["notes.txt"] = Err FileNotFoundError
      <-> forall ext n mid, ext ∈ expected_exts cg_co_cfg ->
                            n ∈ ["notes.txt"] ->
                            n ≠ stem cg_co_cfg ++ mid ++ ext)
  /\ (forall e, find_input_file cg_co_cfg ["notes.txt"] = Err e ->
                e = FileNotFoundError)
  /\ forall name, find_input_file cg_co_cfg ["notes.txt"] = Ok name ->
                  name ∈ ["notes.txt"].
Proof.
  exact (conj cg_co_cfg_plain
           (find_input_file_not_found cg_co_cfg ["notes.txt"]
                                      cg_co_cfg_plain)).
Defined.

Example nothing_found :
  find_input_file cg_co_cfg ["notes.txt"] = Err FileNotFoundError.
Proof. vm_compute. reflexivity. Qed.

(** X22 on [statements]. *)
Lemma apply_row_filter_idempotent_witness :
  apply_row_filter statements fs_combas_cfg false = Ok statements_parent
  /\ apply_row_filter statements_parent fs_combas_cfg false
     = Ok statements_parent.
Proof.
  assert (H1 : apply_row_filter statements fs_combas_cfg false
               = Ok statements_parent) by (vm_compute; reflexivity).
  exact (conj H1
           (apply_row_filter_idempotent statements fs_combas_cfg false
                                        statements_parent H1)).
Defined.

(** X23 on a store that holds [companies]: the column "Date" is added
    to the caller's table. *)
Lemma ensure_col_in_place_witness :
  let h : gmap nat DataFrame := {[ 0%nat := companies ]} in
  h !! 0%nat = Some companies
  /\ exists t',
       ensure_col 0%nat "Date" h = (<[0%nat := t']> h, Ok 0%nat)
       /\ "Date" ∈ columns t'
       /\ ("Date" ∈ columns companies -> t' = companies)
       /\ ("Date" ∉ columns companies ->
           columns t' = (columns companies ++ ["Date"])%list
           /\ column t' "Date"
              = replicate (length (rows companies)) CNone
           /\ forall c, c ≠ "Date" -> column t' c = column companies c)
       /\ ensure_col 0%nat "Date" (<[0%nat := t']> h)
          = (<[0%nat := t']> h, Ok 0%nat).
Proof.
  intros h.
  assert (H1 : h !! 0%nat = Some companies) by reflexivity.
  exact (conj H1 (ensure_col_in_place h 0%nat "Date" companies H1)).
Defined.

End MoreChecks.
